(** * split-the-bill: share calculator, completion evaluator, balance
      aggregator and bill lifecycle operations

    A shallow embedding of the balance and settlement engine of the
    repository (hooks/useBalances, hooks/useData, the dashboard and the
    bill detail pages) together with the properties the specification
    states about it.

    Modelling conventions.
    - A JavaScript [number] is a value of [num]: an exact rational, one of
      the two infinities, or NaN.  Rounding of finite results, overflow to
      an infinity and the sign of zero are abstracted away; the behaviour
      of NaN and of the infinities under [+ - * /] follows IEEE 754.
    - A value of type [any] that reaches [parseFloat] is a [jsval].
    - A JavaScript object used as a dictionary is a [gmap string _]; the
      properties inherited from [Object.prototype] are not modelled.
    - [Bill] is parametric in the type of its numeric fields: the balance
      hook and the dashboard coerce whatever they find ([jsval]), the bill
      detail page relies on the declared type [number] ([num]). *)

From Stdlib Require Import QArith Qcanon ZArith Ascii String List.
From stdpp Require Import base numbers option list strings gmap fin_maps.

Local Open Scope Z_scope.
Local Open Scope Qc_scope.
Local Open Scope string_scope.
Local Open Scope list_scope.

(** ** JavaScript numbers *)

Inductive num : Type :=
  | Fin (q : Qc)
  | PInf
  | NInf
  | NaN.

#[global] Instance num_eq_dec : EqDecision num.
Proof. solve_decision. Defined.

#[global] Instance num_inhabited : Inhabited num := populate (Fin 0).

Definition of_Z (z : Z) : num := Fin (Q2Qc (inject_Z z)).
Definition of_nat (n : nat) : num := of_Z (Z.of_nat n).

Definition zero : num := Fin 0.

Definition isNaN (n : num) : bool :=
  match n with NaN => true | _ => false end.

Definition isFinite (n : num) : bool :=
  match n with Fin _ => true | _ => false end.

(** [n === 0] *)
Definition is_zero (n : num) : bool :=
  match n with Fin q => bool_decide (q = 0) | _ => false end.

(** [n > 0] *)
Definition gt_zero (n : num) : bool :=
  match n with
  | Fin q => bool_decide (0 < q)
  | PInf => true
  | NInf | NaN => false
  end.

(** [n >= 0] *)
Definition ge_zero (n : num) : bool :=
  match n with
  | Fin q => bool_decide (0 <= q)
  | PInf => true
  | NInf | NaN => false
  end.

Definition neg (a : num) : num :=
  match a with
  | Fin q => Fin (- q)
  | PInf => NInf
  | NInf => PInf
  | NaN => NaN
  end.

Definition add (a b : num) : num :=
  match a, b with
  | NaN, _ | _, NaN => NaN
  | Fin x, Fin y => Fin (x + y)
  | PInf, NInf | NInf, PInf => NaN
  | PInf, _ | _, PInf => PInf
  | NInf, _ | _, NInf => NInf
  end.

Definition sub (a b : num) : num := add a (neg b).

(** The infinity whose sign is that of a finite non-zero [q], flipped
    when [flip] is set. *)
Definition inf_of_sign (flip : bool) (q : Qc) : num :=
  if xorb flip (bool_decide (0 <= q)) then PInf else NInf.

Definition mul (a b : num) : num :=
  match a, b with
  | NaN, _ | _, NaN => NaN
  | Fin x, Fin y => Fin (x * y)
  | PInf, Fin q | Fin q, PInf =>
      if bool_decide (q = 0) then NaN else inf_of_sign false q
  | NInf, Fin q | Fin q, NInf =>
      if bool_decide (q = 0) then NaN else inf_of_sign true q
  | PInf, PInf | NInf, NInf => PInf
  | PInf, NInf | NInf, PInf => NInf
  end.

Definition div (a b : num) : num :=
  match a, b with
  | NaN, _ | _, NaN => NaN
  | Fin x, Fin y =>
      if bool_decide (y = 0)
      then (if bool_decide (x = 0) then NaN else inf_of_sign false x)
      else Fin (x / y)
  | Fin _, (PInf | NInf) => Fin 0
  | PInf, Fin q => inf_of_sign false q
  | NInf, Fin q => inf_of_sign true q
  | (PInf | NInf), (PInf | NInf) => NaN
  end.

Declare Scope num_scope.
Delimit Scope num_scope with num.
Bind Scope num_scope with num.
Infix "+" := add : num_scope.
Infix "-" := sub : num_scope.
Infix "*" := mul : num_scope.
Infix "/" := div : num_scope.

(** ** Values of type [any] and [parseFloat] *)

Inductive jsval : Type :=
  | JUndefined
  | JNull
  | JBool (b : bool)
  | JNumber (n : num)
  | JString (s : string).

#[global] Instance jsval_eq_dec : EqDecision jsval.
Proof. solve_decision. Defined.

(** [obj[key]] on a dictionary: a missing key reads as [undefined]. *)
Definition js_get (m : gmap string jsval) (k : string) : jsval :=
  default JUndefined (m !! k).

Module ParseFloat.

(** The white space [parseFloat] trims (the one-byte characters). *)
Definition is_space (c : ascii) : bool :=
  let n := nat_of_ascii c in
  (Nat.eqb n 32 || Nat.eqb n 9 || Nat.eqb n 10 || Nat.eqb n 11
   || Nat.eqb n 12 || Nat.eqb n 13)%bool.

Definition digit_of (c : ascii) : option Z :=
  let n := nat_of_ascii c in
  if (Nat.leb 48 n && Nat.leb n 57)%bool
  then Some (Z.of_nat (n - 48)) else None.

Fixpoint trim_start (s : string) : string :=
  match s with
  | String c r => if is_space c then trim_start r else s
  | EmptyString => s
  end.

(** Reads the longest run of decimal digits: the accumulated value, the
    number of digits read, and the rest of the text. *)
Fixpoint digits (acc : Z) (cnt : nat) (s : string) : Z * nat * string :=
  match s with
  | String c r =>
      match digit_of c with
      | Some d => digits (10 * acc + d)%Z (S cnt) r
      | None => (acc, cnt, s)
      end
  | EmptyString => (acc, cnt, s)
  end.

(** The exponent part, ignored unless at least one digit follows. *)
Definition exponent (s : string) : Z :=
  match s with
  | String c r =>
      if (Ascii.eqb c "e" || Ascii.eqb c "E")%bool then
        let '(sg, r') :=
          match r with
          | String "+" t => (1%Z, t)
          | String "-" t => ((-1)%Z, t)
          | _ => (1%Z, r)
          end in
        let '(e, n, _) := digits 0 0 r' in
        if Nat.eqb n 0 then 0%Z else (sg * e)%Z
      else 0%Z
  | EmptyString => 0%Z
  end.

(** [m * 10 ^ e] as a rational. *)
Definition scale (m e : Z) : Qc :=
  if (0 <=? e)%Z then Q2Qc (inject_Z (m * 10 ^ e))
  else Q2Qc (Qmake m (Z.to_pos (10 ^ (- e)))).

(** The unsigned decimal literal at the head of [s], if there is one. *)
Definition unsigned (s : string) : option Qc :=
  let '(ip, ni, r1) := digits 0 0 s in
  let '(m, nf, r2) :=
    match r1 with
    | String "." t => let '(m, nf, r2) := digits ip 0 t in (m, nf, r2)
    | _ => (ip, 0%nat, r1)
    end in
  if Nat.eqb (ni + nf) 0 then None
  else Some (scale m (exponent r2 - Z.of_nat nf)).

Definition parse_text (s : string) : num :=
  let t := trim_start s in
  let '(negative, body) :=
    match t with
    | String "+" r => (false, r)
    | String "-" r => (true, r)
    | _ => (false, t)
    end in
  if String.prefix "Infinity" body
  then (if negative then NInf else PInf)
  else match unsigned body with
       | Some q => Fin (if negative then - q else q)
       | None => NaN
       end.

End ParseFloat.

(** [parseFloat(value)]: the argument is turned into text first; a number
    prints to text that reads back as itself, [undefined], [null] and the
    booleans print to text that is no number. *)
Definition parseFloat (value : jsval) : num :=
  match value with
  | JNumber n => n
  | JString s => ParseFloat.parse_text s
  | JUndefined | JNull | JBool _ => NaN
  end.

(** Helper for safe number parsing (useBalances, DashboardPage). *)
Definition safeNumber (value : jsval) : num :=
  let num := parseFloat value in
  if isNaN num then zero else num.

(** ** Data model (hooks/useData) *)

Inductive SplitType : Type := equal | custom.

#[global] Instance SplitType_eq_dec : EqDecision SplitType.
Proof. solve_decision. Defined.

Module BillItem.
Record t (V : Type) : Type := mk {
  id : string;
  name : string;
  amount : V;
  assignedTo : option string;
  sharedWith : list string;
}.
Arguments mk {V}.
Arguments id {V}.
Arguments name {V}.
Arguments amount {V}.
Arguments assignedTo {V}.
Arguments sharedWith {V}.
End BillItem.

Module Bill.
Record t (V : Type) : Type := mk {
  id : string;
  description : string;
  amount : V;
  paidBy : string;
  paidByName : option string;
  splitAmong : list string;
  splitType : SplitType;
  items : option (list (BillItem.t V));
  itemizedAmounts : option (gmap string V);
  taxPercentage : option V;
  tipsPercentage : option V;
  paidStatus : option (gmap string bool);
  pendingStatus : option (gmap string bool);
  timestamp : Z;
}.
Arguments mk {V}.
Arguments id {V}.
Arguments description {V}.
Arguments amount {V}.
Arguments paidBy {V}.
Arguments paidByName {V}.
Arguments splitAmong {V}.
Arguments splitType {V}.
Arguments items {V}.
Arguments itemizedAmounts {V}.
Arguments taxPercentage {V}.
Arguments tipsPercentage {V}.
Arguments paidStatus {V}.
Arguments pendingStatus {V}.
Arguments timestamp {V}.

Definition set_paidStatus {V} (st : option (gmap string bool)) (b : t V) : t V :=
  mk (id b) (description b) (amount b) (paidBy b) (paidByName b)
     (splitAmong b) (splitType b) (items b) (itemizedAmounts b)
     (taxPercentage b) (tipsPercentage b) st (pendingStatus b) (timestamp b).

Definition set_pendingStatus {V} (st : option (gmap string bool)) (b : t V) : t V :=
  mk (id b) (description b) (amount b) (paidBy b) (paidByName b)
     (splitAmong b) (splitType b) (items b) (itemizedAmounts b)
     (taxPercentage b) (tipsPercentage b) (paidStatus b) st (timestamp b).

Definition set_amount {V} (a : V) (b : t V) : t V :=
  mk (id b) (description b) a (paidBy b) (paidByName b)
     (splitAmong b) (splitType b) (items b) (itemizedAmounts b)
     (taxPercentage b) (tipsPercentage b) (paidStatus b) (pendingStatus b)
     (timestamp b).

Definition set_itemizedAmounts {V} (m : option (gmap string V)) (b : t V) : t V :=
  mk (id b) (description b) (amount b) (paidBy b) (paidByName b)
     (splitAmong b) (splitType b) (items b) m
     (taxPercentage b) (tipsPercentage b) (paidStatus b) (pendingStatus b)
     (timestamp b).

Definition set_taxPercentage {V} (x : option V) (b : t V) : t V :=
  mk (id b) (description b) (amount b) (paidBy b) (paidByName b)
     (splitAmong b) (splitType b) (items b) (itemizedAmounts b)
     x (tipsPercentage b) (paidStatus b) (pendingStatus b) (timestamp b).

Definition set_tipsPercentage {V} (x : option V) (b : t V) : t V :=
  mk (id b) (description b) (amount b) (paidBy b) (paidByName b)
     (splitAmong b) (splitType b) (items b) (itemizedAmounts b)
     (taxPercentage b) x (paidStatus b) (pendingStatus b) (timestamp b).
End Bill.

Module Friend.
Record t : Type := mk {
  id : string;
  name : string;
  email : option string;
}.
End Friend.

(** [st?.[k] || false] on a status dictionary that may be absent. *)
Definition status_flag (st : option (gmap string bool)) (k : string) : bool :=
  default false (st ≫= (.!! k)).

(** [s || fallback] on a string that may be absent: the empty string is
    falsy. *)
Definition string_or (s : option string) (fallback : string) : string :=
  match s with
  | Some (String c r) => String c r
  | Some EmptyString | None => fallback
  end.

(** [Object.values(obj)] *)
Definition Object_values {V} (obj : gmap string V) : list V :=
  (map_to_list obj).*2.

(** ** The balance hook (hooks/useBalances) *)

Record UserBalance : Type := mkUserBalance {
  friendId : string;
  friendName : string;
  owes : num;
  owed : num;
  netBalance : num;
}.

#[global] Instance UserBalance_eq_dec : EqDecision UserBalance.
Proof. solve_decision. Defined.

Definition getFriendName (friends : list Friend.t) (friendId : string) : string :=
  let friend := List.find (λ f, bool_decide (Friend.id f = friendId)) friends in
  string_or (Friend.name <$> friend) "Unknown Friend".

(** Calculate the user's share in a bill. *)
Definition calculateUserShare (bill : Bill.t jsval) (userId : string) : num :=
  let totalAmount := safeNumber (Bill.amount bill) in
  if is_zero totalAmount && bool_decide (Bill.splitType bill = equal) then zero
  else
    match Bill.splitType bill with
    | equal =>
        let splitCount :=
          match length (Bill.splitAmong bill) with O => 1%nat | n => n end in
        (totalAmount / of_nat splitCount)%num
    | custom =>
        let taxPercent := safeNumber (default JUndefined (Bill.taxPercentage bill)) in
        let tipsPercent := safeNumber (default JUndefined (Bill.tipsPercentage bill)) in
        let itemizedAmounts := default ∅ (Bill.itemizedAmounts bill) in
        let itemizedTotal :=
          foldl (λ a b, a + safeNumber b)%num zero (Object_values itemizedAmounts) in
        let taxAmount := ((itemizedTotal * taxPercent) / of_Z 100)%num in
        let tipsAmount := ((itemizedTotal * tipsPercent) / of_Z 100)%num in
        let totalTaxAndTips := (taxAmount + tipsAmount)%num in
        let userItemAmount := safeNumber (js_get itemizedAmounts userId) in
        if is_zero itemizedTotal then userItemAmount
        else
          let shareOfOverheads :=
            ((userItemAmount / itemizedTotal) * totalTaxAndTips)%num in
          (userItemAmount + shareOfOverheads)%num
    end.

(** Helper to check if a bill is completed. *)
Definition isBillCompleted {V} (bill : Bill.t V) : bool :=
  let peopleWhoPay := filter (λ id, id ≠ Bill.paidBy bill) (Bill.splitAmong bill) in
  if Nat.eqb (length peopleWhoPay) 0 then true
  else forallb (λ personId, status_flag (Bill.paidStatus bill) personId) peopleWhoPay.

Definition newBalance (friendId friendName : string) : UserBalance :=
  mkUserBalance friendId friendName zero zero zero.

Definition add_owes (x : num) (e : UserBalance) : UserBalance :=
  mkUserBalance (friendId e) (friendName e) (owes e + x)%num (owed e) (netBalance e).

Definition add_owed (x : num) (e : UserBalance) : UserBalance :=
  mkUserBalance (friendId e) (friendName e) (owes e) (owed e + x)%num (netBalance e).

Definition set_netBalance (e : UserBalance) : UserBalance :=
  mkUserBalance (friendId e) (friendName e) (owes e) (owed e) (owes e - owed e)%num.

(** [if (!balanceMap[k]) balanceMap[k] = fresh] *)
Definition ensure_entry (k : string) (fresh : UserBalance)
    (balanceMap : gmap string UserBalance) : gmap string UserBalance :=
  match balanceMap !! k with
  | Some _ => balanceMap
  | None => <[k := fresh]> balanceMap
  end.

Section balances.
Variable friends : list Friend.t.
Variable userId : string.

(** Case 1, the body of [bill.splitAmong.forEach]. *)
Definition owes_step (bill : Bill.t jsval)
    (balanceMap : gmap string UserBalance) (personId : string)
    : gmap string UserBalance :=
  if bool_decide (personId = userId) then balanceMap
  else
    let hasPaid := status_flag (Bill.paidStatus bill) personId in
    if hasPaid then balanceMap
    else
      let balanceMap :=
        ensure_entry personId
          (newBalance personId (getFriendName friends personId)) balanceMap in
      let personShare := calculateUserShare bill personId in
      alter (add_owes personShare) personId balanceMap.

(** The body of [bills.forEach]. *)
Definition bill_step (balanceMap : gmap string UserBalance)
    (bill : Bill.t jsval) : gmap string UserBalance :=
  if isBillCompleted bill then balanceMap
  else if negb (bool_decide (userId ∈ Bill.splitAmong bill)) then balanceMap
  else
    let paidByUserId := Bill.paidBy bill in
    let userShare := calculateUserShare bill userId in
    if bool_decide (paidByUserId = userId) then
      foldl (owes_step bill) balanceMap (Bill.splitAmong bill)
    else
      let balanceMap :=
        ensure_entry paidByUserId
          (newBalance paidByUserId (string_or (Bill.paidByName bill) "Unknown"))
          balanceMap in
      let isPaid := status_flag (Bill.paidStatus bill) userId in
      if negb isPaid then alter (add_owed userShare) paidByUserId balanceMap
      else balanceMap.

Definition accumulate (bills : list (Bill.t jsval)) : gmap string UserBalance :=
  foldl bill_step ∅ bills.
End balances.

(** [useBalances(bills, friends, userId)]: an absent or empty [userId] is
    falsy and yields the empty mapping. *)
Definition useBalances (bills : list (Bill.t jsval)) (friends : list Friend.t)
    (userId : option string) : gmap string UserBalance :=
  match userId with
  | None | Some EmptyString => ∅
  | Some uid => set_netBalance <$> accumulate friends uid bills
  end.

(** ** The dashboard page (components/pages/DashboardPage) *)

Module DashboardPage.

Definition calculateAmounts (bill : Bill.t jsval) (userId : string) : num :=
  let totalAmount := safeNumber (Bill.amount bill) in
  if is_zero totalAmount && bool_decide (Bill.splitType bill = equal) then zero
  else
    match Bill.splitType bill with
    | equal =>
        let splitCount :=
          match length (Bill.splitAmong bill) with O => 1%nat | n => n end in
        (totalAmount / of_nat splitCount)%num
    | custom =>
        let taxPercent := safeNumber (default JUndefined (Bill.taxPercentage bill)) in
        let tipsPercent := safeNumber (default JUndefined (Bill.tipsPercentage bill)) in
        let itemizedAmounts := default ∅ (Bill.itemizedAmounts bill) in
        let itemizedTotal :=
          foldl (λ a b, a + safeNumber b)%num zero (Object_values itemizedAmounts) in
        let taxAmount := ((itemizedTotal * taxPercent) / of_Z 100)%num in
        let tipsAmount := ((itemizedTotal * tipsPercent) / of_Z 100)%num in
        let totalTaxAndTips := (taxAmount + tipsAmount)%num in
        let userItemAmount := safeNumber (js_get itemizedAmounts userId) in
        if is_zero itemizedTotal then userItemAmount
        else
          let shareOfOverheads :=
            ((userItemAmount / itemizedTotal) * totalTaxAndTips)%num in
          (userItemAmount + shareOfOverheads)%num
    end.

Definition isBillCompleted {V} (bill : Bill.t V) : bool :=
  let peopleWhoPay := filter (λ id, id ≠ Bill.paidBy bill) (Bill.splitAmong bill) in
  if Nat.eqb (length peopleWhoPay) 0 then true
  else forallb (λ personId, status_flag (Bill.paidStatus bill) personId) peopleWhoPay.

End DashboardPage.

(** ** The bill detail page *)

(** [x || 0] on a number that may be absent: [undefined], [0] and [NaN] are
    falsy. *)
Definition num_or_zero (x : option num) : num :=
  match x with
  | Some NaN | None => zero
  | Some (Fin q) => if bool_decide (q = 0) then zero else Fin q
  | Some n => n
  end.

(** The fields of a bill that the detail page submits to [onUpdateBill]
    (a [Partial<Bill>]): an absent field is left as it is. *)
Record BillPatch : Type := mkBillPatch {
  patch_paidStatus : option (gmap string bool);
  patch_pendingStatus : option (gmap string bool);
}.

(** One call [onUpdateBill(billId, updates)]. *)
Record UpdateCall : Type := mkUpdateCall {
  call_billId : string;
  call_updates : BillPatch;
}.

(** What [updateDoc] does to the stored bill: every field of the patch
    that is present replaces the stored field as a whole. *)
Definition apply_patch {V} (p : BillPatch) (bill : Bill.t V) : Bill.t V :=
  let bill :=
    match patch_paidStatus p with
    | Some st => Bill.set_paidStatus (Some st) bill
    | None => bill
    end in
  match patch_pendingStatus p with
  | Some st => Bill.set_pendingStatus (Some st) bill
  | None => bill
  end.

Module BillDetailPage.

(** [calculateAmounts()]: one [{personId, amount}] per entry of
    [splitAmong]. *)
Definition calculateAmounts (bill : Bill.t num) : list (string * num) :=
  match Bill.splitType bill with
  | equal =>
      let perPerson := (Bill.amount bill / of_nat (length (Bill.splitAmong bill)))%num in
      (λ personId, (personId, perPerson)) <$> Bill.splitAmong bill
  | custom =>
      let baseAmount := Bill.amount bill in
      let taxPercent := num_or_zero (Bill.taxPercentage bill) in
      let tipsPercent := num_or_zero (Bill.tipsPercentage bill) in
      let itemizedTotal :=
        foldl (λ a b, a + b)%num zero
              (Object_values (default ∅ (Bill.itemizedAmounts bill))) in
      let taxAmount := ((itemizedTotal * taxPercent) / of_Z 100)%num in
      let tipsAmount := ((itemizedTotal * tipsPercent) / of_Z 100)%num in
      let totalTaxAndTips := (taxAmount + tipsAmount)%num in
      (λ personId,
         let itemAmount :=
           num_or_zero (Bill.itemizedAmounts bill ≫= (.!! personId)) in
         let share :=
           if gt_zero itemizedTotal
           then ((itemAmount / itemizedTotal) * totalTaxAndTips)%num
           else zero in
         (personId, (itemAmount + share)%num)) <$> Bill.splitAmong bill
  end.

(** Participant marks themselves as paid. *)
Definition handleMarkPaid {V} (bill : Bill.t V) (personId : string) : list UpdateCall :=
  let currentPending := default ∅ (Bill.pendingStatus bill) in
  let newPending := <[personId := true]> currentPending in
  [mkUpdateCall (Bill.id bill) (mkBillPatch None (Some newPending))].

(** Participant unmarks their pending payment status. *)
Definition handleUnmarkPending {V} (bill : Bill.t V) (personId : string) : list UpdateCall :=
  let currentPending := default ∅ (Bill.pendingStatus bill) in
  let newPending := <[personId := false]> currentPending in
  [mkUpdateCall (Bill.id bill) (mkBillPatch None (Some newPending))].

(** Payer confirms a participant's pending payment. *)
Definition handleConfirmPaid {V} (bill : Bill.t V) (personId : string) : list UpdateCall :=
  let currentPaid := default ∅ (Bill.paidStatus bill) in
  let currentPending := default ∅ (Bill.pendingStatus bill) in
  let newPaid := <[personId := true]> currentPaid in
  let newPending := <[personId := false]> currentPending in
  [mkUpdateCall (Bill.id bill) (mkBillPatch (Some newPaid) (Some newPending))].

(** Payer unmarks a paid status. *)
Definition handleUnmarkPaid {V} (bill : Bill.t V) (personId : string) : list UpdateCall :=
  let currentPaid := default ∅ (Bill.paidStatus bill) in
  let newPaid := <[personId := false]> currentPaid in
  [mkUpdateCall (Bill.id bill) (mkBillPatch (Some newPaid) None)].

End BillDetailPage.

(** The second copy of the bill detail page kept in the repository (the
    text that follows components/pages/AddBillPage): its calculator takes
    the tax and tips on [bill.amount]. *)
Module BillDetailPageCopy.

Definition calculateAmounts (bill : Bill.t num) : list (string * num) :=
  match Bill.splitType bill with
  | equal =>
      let perPerson := (Bill.amount bill / of_nat (length (Bill.splitAmong bill)))%num in
      (λ personId, (personId, perPerson)) <$> Bill.splitAmong bill
  | custom =>
      let baseAmount := Bill.amount bill in
      let taxPercent := num_or_zero (Bill.taxPercentage bill) in
      let tipsPercent := num_or_zero (Bill.tipsPercentage bill) in
      let itemizedTotal :=
        foldl (λ a b, a + b)%num zero
              (Object_values (default ∅ (Bill.itemizedAmounts bill))) in
      let taxAmount := ((baseAmount * taxPercent) / of_Z 100)%num in
      let tipsAmount := ((baseAmount * tipsPercent) / of_Z 100)%num in
      let totalTaxAndTips := (taxAmount + tipsAmount)%num in
      (λ personId,
         let itemAmount :=
           num_or_zero (Bill.itemizedAmounts bill ≫= (.!! personId)) in
         let share :=
           if gt_zero itemizedTotal
           then ((itemAmount / itemizedTotal) * totalTaxAndTips)%num
           else zero in
         (personId, (itemAmount + share)%num)) <$> Bill.splitAmong bill
  end.

End BillDetailPageCopy.

(** [amounts.find(a => a.personId === p)?.amount]: the share a detail page
    shows for participant [p]. *)
Definition amount_of (amounts : list (string * num)) (p : string) : option num :=
  snd <$> List.find (λ a, bool_decide (a.1 = p)) amounts.

(** A bill whose numeric fields hold numbers, as the balance hook sees it. *)
Definition item_as_stored (it : BillItem.t num) : BillItem.t jsval :=
  BillItem.mk (BillItem.id it) (BillItem.name it) (JNumber (BillItem.amount it))
    (BillItem.assignedTo it) (BillItem.sharedWith it).

Definition as_stored (bill : Bill.t num) : Bill.t jsval :=
  Bill.mk (Bill.id bill) (Bill.description bill) (JNumber (Bill.amount bill))
    (Bill.paidBy bill) (Bill.paidByName bill) (Bill.splitAmong bill)
    (Bill.splitType bill)
    (option_map (List.map item_as_stored) (Bill.items bill))
    (option_map (fmap (M := gmap string) JNumber) (Bill.itemizedAmounts bill))
    (option_map JNumber (Bill.taxPercentage bill))
    (option_map JNumber (Bill.tipsPercentage bill))
    (Bill.paidStatus bill) (Bill.pendingStatus bill) (Bill.timestamp bill).

(** ** Bill creation (hooks/useData) *)

Module useData.

Record User : Type := mkUser {
  uid : string;
  displayName : option string;
}.

(** The outcome of an asynchronous operation. *)
Inductive outcome (A : Type) : Type :=
  | Resolved (a : A)
  | Rejected (message : string).
Arguments Resolved {A}.
Arguments Rejected {A}.

(** What [getDoc(doc(db, "users", id))] yields: a failure, a missing
    document, or a document whose [name] may be absent. *)
Inductive GetDoc : Type :=
  | GetDocFails
  | DocMissing
  | DocData (name : option string).

(** The storage collaborator as [createBill] meets it. *)
Record Firestore : Type := mkFirestore {
  getUserDoc : string → GetDoc;
  addDoc : outcome string;
  serverTimestamp : Z;
}.

Record BillData : Type := mkBillData {
  description : string;
  amount : jsval;
  paidBy : string;
  splitAmong : list string;
  splitType : SplitType;
  items : option (list (BillItem.t jsval));
  itemizedAmounts : option (gmap string jsval);
  taxPercentage : option jsval;
  tipsPercentage : option jsval;
}.

(** The two status dictionaries built by [billData.splitAmong.forEach]. *)
Definition initial_status (billData : BillData)
    : gmap string bool * gmap string bool :=
  foldl (λ '(paidStatus, pendingStatus) uid,
           (<[uid := bool_decide (uid = paidBy billData)]> paidStatus,
            <[uid := false]> pendingStatus))
        (∅, ∅) (splitAmong billData).

(** [createBill(billData)]: the document written to the shared
    collection, or the error it fails with. *)
Definition createBill (user : option User) (db : Firestore)
    (billData : BillData) : outcome (Bill.t jsval) :=
  match user with
  | None => Rejected "User not authenticated"
  | Some _ =>
      let paidByName :=
        match getUserDoc db (paidBy billData) with
        | DocData name => string_or name "Unknown"
        | DocMissing | GetDocFails => "Unknown"
        end in
      let '(paidStatus, pendingStatus) := initial_status billData in
      let finalAmount :=
        match amount billData with
        | JString s => JNumber (parseFloat (JString s))
        | a => a
        end in
      match addDoc db with
      | Rejected e => Rejected e
      | Resolved billRef_id =>
          Resolved
            (Bill.mk billRef_id (description billData) finalAmount
               (paidBy billData) (Some paidByName) (splitAmong billData)
               (splitType billData) (items billData)
               (itemizedAmounts billData) (taxPercentage billData)
               (tipsPercentage billData) (Some paidStatus)
               (Some pendingStatus) (serverTimestamp db))
      end
  end.

End useData.

(** * Properties *)

(** ** Arithmetic of [num] *)

Section num_facts.
Implicit Types a b c : num.

Lemma add_comm a b : (a + b)%num = (b + a)%num.
Proof. destruct a, b; simpl; try reflexivity. f_equal; ring. Qed.

Lemma add_assoc a b c : (a + (b + c))%num = ((a + b) + c)%num.
Proof. destruct a, b, c; simpl; try reflexivity. f_equal; ring. Qed.

Lemma add_zero_l a : (zero + a)%num = a.
Proof. destruct a; simpl; try reflexivity. f_equal; ring. Qed.

Lemma add_zero_r a : (a + zero)%num = a.
Proof. rewrite add_comm. apply add_zero_l. Qed.

Lemma is_zero_spec a : is_zero a = true ↔ a = zero.
Proof.
  destruct a; simpl; try (split; discriminate).
  rewrite bool_decide_eq_true. split; [intros -> | intros [= ->]]; reflexivity.
Qed.

Lemma is_zero_false a : is_zero a = false ↔ a ≠ zero.
Proof.
  rewrite <- is_zero_spec. destruct (is_zero a); split; congruence.
Qed.

Lemma Qc_of_nat_S (n : nat) :
  Q2Qc (inject_Z (Z.of_nat (S n))) = Q2Qc (inject_Z (Z.of_nat n)) + 1.
Proof.
  apply Qc_is_canon. rewrite Nat2Z.inj_succ. unfold Z.succ.
  unfold Qcplus, Q2Qc; simpl this. rewrite !Qred_correct.
  rewrite inject_Z_plus. reflexivity.
Qed.

Lemma of_nat_S (n : nat) : of_nat (S n) = (of_nat n + of_Z 1)%num.
Proof. unfold of_nat, of_Z; simpl add. f_equal. apply Qc_of_nat_S. Qed.

Lemma Qc_of_Z_inj (z : Z) : Q2Qc (inject_Z z) = 0 → z = 0%Z.
Proof.
  intros H. apply (f_equal this) in H. simpl in H.
  assert (Hq : (inject_Z z == 0)%Q) by (rewrite <- (Qred_correct (inject_Z z)), H; reflexivity).
  unfold Qeq, inject_Z in Hq; simpl in Hq. by rewrite Z.mul_1_r in Hq.
Qed.

Lemma Qc_of_Z_nonneg (z : Z) : (0 ≤ z)%Z → 0 <= Q2Qc (inject_Z z).
Proof.
  intros Hz. unfold Qcle.
  change (0 <= Qred (inject_Z z))%Q. rewrite (Qred_correct (inject_Z z)).
  unfold Qle, inject_Z; simpl. lia.
Qed.

Lemma Qc_of_Z_pos (z : Z) : (0 < z)%Z → 0 < Q2Qc (inject_Z z).
Proof.
  intros Hz. unfold Qclt.
  change (0 < Qred (inject_Z z))%Q. rewrite (Qred_correct (inject_Z z)).
  unfold Qlt, inject_Z; simpl. lia.
Qed.
End num_facts.

(** [safeNumber] never yields NaN, and turns every value that
    [parseFloat] cannot read into [0]. *)
Lemma safeNumber_not_NaN (v : jsval) : safeNumber v ≠ NaN.
Proof. unfold safeNumber. destruct (parseFloat v); simpl; discriminate. Qed.

Lemma safeNumber_unreadable (v : jsval) : parseFloat v = NaN → safeNumber v = zero.
Proof. unfold safeNumber. intros ->. reflexivity. Qed.

Lemma safeNumber_number (n : num) : n ≠ NaN → safeNumber (JNumber n) = n.
Proof. unfold safeNumber; simpl. destruct n; simpl; congruence. Qed.

(** Closed decidable statements are settled by evaluating their decision
    procedure. *)
Ltac by_evaluation :=
  match goal with
  | |- ?P => apply (bool_decide_unpack P); vm_compute; exact I
  end.

(** Folds that agree step by step agree. *)
Lemma foldl_ext {A B} (f g : A → B → A) (a : A) (l : list B) :
  (∀ a x, x ∈ l → f a x = g a x) → foldl f a l = foldl g a l.
Proof.
  revert a. induction l as [|x l IH]; intros a H; simpl; [reflexivity|].
  rewrite H by left. apply IH. intros a' y Hy. apply H. by right.
Qed.

(** ** The share calculator, equal split *)

(** Adding the shares of the participants one after the other. *)
Definition sum_shares (bill : Bill.t jsval) : num :=
  foldl (λ acc p, acc + calculateUserShare bill p)%num zero (Bill.splitAmong bill).

Section equal_split.

(** The divisor [bill.splitAmong?.length || 1]. *)
Definition splitCount (bill : Bill.t jsval) : nat :=
  Nat.max 1 (length (Bill.splitAmong bill)).

Lemma zero_div_count (k : nat) : (1 ≤ k)%nat → (zero / of_nat k)%num = zero.
Proof.
  intros Hk. unfold zero, of_nat, of_Z; simpl.
  rewrite bool_decide_eq_false_2.
  - f_equal. unfold Qcdiv. ring.
  - intros H. apply Qc_of_Z_inj in H. lia.
Qed.

Lemma calculateUserShare_equal (bill : Bill.t jsval) (p : string) :
  Bill.splitType bill = equal →
  calculateUserShare bill p =
    (safeNumber (Bill.amount bill) / of_nat (splitCount bill))%num.
Proof.
  intros Heq. unfold calculateUserShare, splitCount. rewrite Heq.
  rewrite bool_decide_eq_true_2 by reflexivity. rewrite andb_true_r.
  assert (Hn : match length (Bill.splitAmong bill) with O => 1%nat | n => n end
               = Nat.max 1 (length (Bill.splitAmong bill))).
  { destruct (length (Bill.splitAmong bill)) as [|[|k]]; reflexivity. }
  rewrite Hn.
  destruct (is_zero (safeNumber (Bill.amount bill))) eqn:Hz; [|reflexivity].
  apply is_zero_spec in Hz. rewrite Hz. symmetry. apply zero_div_count. lia.
Qed.

(** [k] copies of [a / n] added to [c]. *)
Lemma foldl_add_const_fin {A} (x c : Qc) (l : list A) :
  foldl (λ acc _, acc + Fin x)%num (Fin c) l
  = Fin (c + Q2Qc (inject_Z (Z.of_nat (length l))) * x).
Proof.
  revert c. induction l as [|y l IH]; intros c; simpl foldl.
  - f_equal. simpl length. change (Q2Qc (inject_Z (Z.of_nat 0))) with 0. ring.
  - change (Fin c + Fin x)%num with (Fin (c + x)). rewrite IH. f_equal.
    simpl length. rewrite Qc_of_nat_S. ring.
Qed.

Lemma foldl_add_const_inf {A} (i : num) (l : list A) :
  i = PInf ∨ i = NInf →
  foldl (λ acc _, acc + i)%num i l = i.
Proof.
  intros Hi. induction l as [|y l IH]; simpl; [reflexivity|].
  destruct Hi as [-> | ->]; simpl; exact IH.
Qed.

Lemma sum_of_equal_parts {A} (a : num) (l : list A) :
  a ≠ NaN → (1 ≤ length l)%nat →
  foldl (λ acc _, acc + a / of_nat (length l))%num zero l = a.
Proof.
  intros Ha Hl.
  assert (Hn0 : Q2Qc (inject_Z (Z.of_nat (length l))) ≠ 0).
  { intros H. apply Qc_of_Z_inj in H. lia. }
  assert (Hpos : 0 <= Q2Qc (inject_Z (Z.of_nat (length l)))).
  { apply Qc_of_Z_nonneg. lia. }
  destruct a as [q| | |]; [| | |congruence].
  - unfold of_nat, of_Z; simpl div.
    rewrite bool_decide_eq_false_2 by exact Hn0.
    unfold zero. rewrite foldl_add_const_fin. f_equal. field. exact Hn0.
  - unfold of_nat, of_Z; simpl div. unfold inf_of_sign.
    rewrite bool_decide_eq_true_2 by exact Hpos. simpl.
    destruct l as [|y l]; [simpl in Hl; lia|]. simpl foldl.
    apply foldl_add_const_inf. by left.
  - unfold of_nat, of_Z; simpl div. unfold inf_of_sign.
    rewrite bool_decide_eq_true_2 by exact Hpos. simpl.
    destruct l as [|y l]; [simpl in Hl; lia|]. simpl foldl.
    apply foldl_add_const_inf. by right.
Qed.

End equal_split.

(** Scenario 1 of the specification: amount 90 split equally among
    U, F1 and F2, paid by U, F1 still unpaid. *)
Definition scenario_bill_A : Bill.t jsval :=
  Bill.mk "A" "Bill A" (JNumber (of_Z 90)) "U" (Some "U") ["U"; "F1"; "F2"]
    equal None None None None
    (Some (list_to_map [("U", true); ("F1", false); ("F2", true)]))
    (Some (list_to_map [("U", false); ("F1", false); ("F2", false)])) 0.

(** C1. Under an equal split every participant's share is the coerced
    total divided by the number of ids in [splitAmong] (by 1 when there is
    none); it is exactly 0 when the total coerces to 0; and with [n >= 1]
    participants every share is [A / n] and the shares of the participants
    add up to [A]. *)
Theorem equal_split_share (bill : Bill.t jsval) :
  Bill.splitType bill = equal →
  let A := safeNumber (Bill.amount bill) in
  let n := length (Bill.splitAmong bill) in
  (∀ p, calculateUserShare bill p = (A / of_nat (Nat.max 1 n))%num)
  ∧ (A = zero → ∀ p, calculateUserShare bill p = zero)
  ∧ ((1 ≤ n)%nat →
       (∀ p, calculateUserShare bill p = (A / of_nat n)%num)
       ∧ sum_shares bill = A).
Proof.
  intros Heq A n. split; [|split].
  - intros p. by apply calculateUserShare_equal.
  - intros HA p. unfold calculateUserShare. fold A. rewrite HA, Heq. reflexivity.
  - intros Hn.
    assert (Hshare : ∀ p, calculateUserShare bill p = (A / of_nat n)%num).
    { intros p. rewrite calculateUserShare_equal by exact Heq.
      unfold splitCount. fold n. by rewrite Nat.max_r. }
    split; [exact Hshare|].
    unfold sum_shares.
    rewrite (foldl_ext _ (λ acc _, acc + A / of_nat n)%num)
      by (intros; by rewrite Hshare).
    apply sum_of_equal_parts; [apply safeNumber_not_NaN | exact Hn].
Qed.

Lemma equal_split_share_witness :
  Bill.splitType scenario_bill_A = equal
  ∧ calculateUserShare scenario_bill_A "F1" = (of_Z 90 / of_nat 3)%num
  ∧ sum_shares scenario_bill_A = of_Z 90.
Proof.
  split; [reflexivity|].
  destruct (equal_split_share scenario_bill_A eq_refl) as (_ & _ & H).
  destruct (H ltac:(simpl; lia)) as [H1 H2].
  split; [exact (H1 "F1") | exact H2].
Defined.

(** ** The share calculator, custom split *)

Section custom_split.

(** The sum of a list of numbers, from the right. *)
Definition sum_num (l : list num) : num := foldr add zero l.

Lemma foldl_add_sum {V} (g : V → num) (c : num) (l : list V) :
  foldl (λ a b, a + g b)%num c l = (c + sum_num (g <$> l))%num.
Proof.
  revert c. induction l as [|x l IH]; intros c; simpl.
  - by rewrite add_zero_r.
  - rewrite IH. by rewrite add_assoc.
Qed.

Lemma sum_num_perm (l1 l2 : list num) : l1 ≡ₚ l2 → sum_num l1 = sum_num l2.
Proof.
  induction 1 as [|x l1 l2 _ IH|x y l|l1 l2 l3 _ IH1 _ IH2]; simpl.
  - reflexivity.
  - by rewrite IH.
  - rewrite !add_assoc. by rewrite (add_comm y x).
  - by rewrite IH1.
Qed.

(** The itemized total in the words of the specification: the sum of
    the coerced values of [itemizedAmounts]. *)
Definition itemizedTotal_spec (items : gmap string jsval) : num :=
  map_fold (λ _ v acc, safeNumber v + acc)%num zero items.

(** A participant's item subtotal: the coerced entry, 0 when there is
    none. *)
Definition userItemAmount_spec (items : gmap string jsval) (p : string) : num :=
  from_option safeNumber zero (items !! p).

Lemma itemizedTotal_spec_sum (items : gmap string jsval) :
  itemizedTotal_spec items = sum_num (safeNumber <$> Object_values items).
Proof.
  unfold itemizedTotal_spec, Object_values. rewrite map_fold_foldr.
  induction (map_to_list items) as [|[k v] l IH]; simpl; [reflexivity|].
  by rewrite IH.
Qed.

Lemma itemizedTotal_code (items : gmap string jsval) :
  foldl (λ a b, a + safeNumber b)%num zero (Object_values items)
  = itemizedTotal_spec items.
Proof. by rewrite foldl_add_sum, add_zero_l, itemizedTotal_spec_sum. Qed.

Lemma itemizedTotal_spec_insert (items : gmap string jsval) (k : string) (v : jsval) :
  items !! k = None →
  itemizedTotal_spec (<[k := v]> items)
  = (safeNumber v + itemizedTotal_spec items)%num.
Proof.
  intros Hk. rewrite !itemizedTotal_spec_sum. unfold Object_values.
  rewrite (sum_num_perm _ (safeNumber <$> ((k, v) :: map_to_list items).*2)).
  - reflexivity.
  - apply fmap_Permutation, fmap_Permutation. by apply map_to_list_insert.
Qed.

Lemma userItemAmount_code (items : gmap string jsval) (p : string) :
  safeNumber (js_get items p) = userItemAmount_spec items p.
Proof.
  unfold js_get, userItemAmount_spec. by destruct (items !! p).
Qed.

(** The share in the words of the specification. *)
Definition custom_share_spec (bill : Bill.t jsval) (p : string) : num :=
  let items := default ∅ (Bill.itemizedAmounts bill) in
  let itemizedTotal := itemizedTotal_spec items in
  let taxPercentage := safeNumber (default JUndefined (Bill.taxPercentage bill)) in
  let tipsPercentage := safeNumber (default JUndefined (Bill.tipsPercentage bill)) in
  let taxAmount := (itemizedTotal * taxPercentage / of_Z 100)%num in
  let tipsAmount := (itemizedTotal * tipsPercentage / of_Z 100)%num in
  let userItemAmount := userItemAmount_spec items p in
  if decide (itemizedTotal = zero) then userItemAmount
  else (userItemAmount
        + (userItemAmount / itemizedTotal) * (taxAmount + tipsAmount))%num.

Lemma calculateUserShare_custom (bill : Bill.t jsval) (p : string) :
  Bill.splitType bill = custom →
  calculateUserShare bill p = custom_share_spec bill p.
Proof.
  intros Hc. unfold calculateUserShare, custom_share_spec. rewrite Hc.
  rewrite bool_decide_eq_false_2 by discriminate. rewrite andb_false_r.
  rewrite itemizedTotal_code, userItemAmount_code.
  destruct (decide _) as [Hz|Hz].
  - by rewrite Hz.
  - apply is_zero_false in Hz. by rewrite Hz.
Qed.

End custom_split.

(** Scenario 2 of the specification: items total 100, tax 10%, tips 5%,
    P's itemized share 40; the percentages arrive as text. *)
Definition scenario_bill_B : Bill.t jsval :=
  Bill.mk "B" "Bill B" (JNumber (of_Z 115)) "Q" (Some "Q") ["P"; "Q"]
    custom None
    (Some (list_to_map [("P", JNumber (of_Z 40)); ("Q", JNumber (of_Z 60))]))
    (Some (JString "10")) (Some (JString "5"))
    (Some (list_to_map [("P", false); ("Q", true)]))
    (Some (list_to_map [("P", false); ("Q", false)])) 0.

(** C2. Under a custom split the share of [p] is
    [item + (item / itemizedTotal) * (taxAmount + tipsAmount)], with
    [itemizedTotal] the coerced sum of the values of [itemizedAmounts],
    [taxAmount = itemizedTotal * taxPercentage / 100] and
    [tipsAmount = itemizedTotal * tipsPercentage / 100]; it is the item
    subtotal alone when the itemized total is 0; and a participant with no
    entry gets what an entry of 0 would give. *)
Theorem custom_split_share (bill : Bill.t jsval) (p : string) :
  Bill.splitType bill = custom →
  let items := default ∅ (Bill.itemizedAmounts bill) in
  let item := userItemAmount_spec items p in
  let itemizedTotal := itemizedTotal_spec items in
  let taxAmount :=
    (itemizedTotal * safeNumber (default JUndefined (Bill.taxPercentage bill))
     / of_Z 100)%num in
  let tipsAmount :=
    (itemizedTotal * safeNumber (default JUndefined (Bill.tipsPercentage bill))
     / of_Z 100)%num in
  (itemizedTotal ≠ zero →
     calculateUserShare bill p
     = (item + (item / itemizedTotal) * (taxAmount + tipsAmount))%num)
  ∧ (itemizedTotal = zero → calculateUserShare bill p = item)
  ∧ (items !! p = None →
     item = zero
     ∧ calculateUserShare bill p
       = calculateUserShare
           (Bill.set_itemizedAmounts (Some (<[p := JNumber zero]> items)) bill) p).
Proof.
  intros Hc items item itemizedTotal taxAmount tipsAmount.
  rewrite (calculateUserShare_custom bill p Hc). unfold custom_share_spec.
  fold items itemizedTotal item.
  split; [|split].
  - intros Hz. by destruct (decide _).
  - intros Hz. by destruct (decide _).
  - intros Hp. split.
    { unfold item, userItemAmount_spec. by rewrite Hp. }
    rewrite calculateUserShare_custom by exact Hc.
    unfold custom_share_spec; simpl.
    rewrite itemizedTotal_spec_insert by exact Hp.
    rewrite (safeNumber_number zero) by discriminate. rewrite add_zero_l.
    fold itemizedTotal.
    assert (Hitem : userItemAmount_spec (<[p:=JNumber zero]> items) p = item).
    { unfold item, userItemAmount_spec. rewrite lookup_insert_eq, Hp. reflexivity. }
    by rewrite Hitem.
Qed.

Lemma custom_split_share_witness :
  Bill.splitType scenario_bill_B = custom
  ∧ calculateUserShare scenario_bill_B "P" = of_Z 46.
Proof.
  split; [reflexivity|].
  destruct (custom_split_share scenario_bill_B "P" eq_refl) as (H & _ & _).
  rewrite H; by_evaluation.
Defined.

(** ** The completion evaluator *)

Section completion.
Context {V : Type}.
Implicit Types bill : Bill.t V.

(** [p]'s share is confirmed settled: the bill has a [paidStatus]
    dictionary and its entry for [p] is [true]. *)
Definition confirmed_paid bill (p : string) : Prop :=
  ∃ st, Bill.paidStatus bill = Some st ∧ st !! p = Some true.

Lemma status_flag_true (st : option (gmap string bool)) (p : string) :
  status_flag st p = true ↔ ∃ m, st = Some m ∧ m !! p = Some true.
Proof.
  unfold status_flag. destruct st as [m|]; simpl.
  - destruct (m !! p) as [[]|] eqn:E; simpl; split;
      try discriminate; try (intros (m' & [= <-] & H); congruence).
    intros _. by exists m.
  - split; [discriminate | intros (m & H & _); discriminate].
Qed.

Lemma isBillCompleted_forallb bill :
  isBillCompleted bill
  = forallb (λ personId, status_flag (Bill.paidStatus bill) personId)
      (filter (λ id, id ≠ Bill.paidBy bill) (Bill.splitAmong bill)).
Proof.
  unfold isBillCompleted.
  destruct (filter _ (Bill.splitAmong bill)); reflexivity.
Qed.

Lemma isBillCompleted_true bill :
  isBillCompleted bill = true
  ↔ ∀ p, p ∈ Bill.splitAmong bill → p ≠ Bill.paidBy bill →
         status_flag (Bill.paidStatus bill) p = true.
Proof.
  rewrite isBillCompleted_forallb, forallb_forall. split.
  - intros H p Hp Hne. apply H, list_elem_of_In, list_elem_of_filter. done.
  - intros H p Hp. apply list_elem_of_In, list_elem_of_filter in Hp as [Hne Hp].
    by apply H.
Qed.

Lemma isBillCompleted_false bill :
  isBillCompleted bill = false
  ↔ ∃ p, p ∈ Bill.splitAmong bill ∧ p ≠ Bill.paidBy bill
         ∧ status_flag (Bill.paidStatus bill) p = false.
Proof.
  rewrite isBillCompleted_forallb. split.
  - intros H.
    induction (Bill.splitAmong bill) as [|x l IH]; [discriminate|].
    rewrite filter_cons in H. destruct (decide (x ≠ Bill.paidBy bill)) as [Hx|Hx].
    + simpl in H. destruct (status_flag (Bill.paidStatus bill) x) eqn:E.
      * destruct (IH H) as (p & Hp & Hne & Hf). exists p. split; [by right|done].
      * exists x. split; [by left|done].
    + destruct (IH H) as (p & Hp & Hne & Hf). exists p. split; [by right|done].
  - intros (p & Hp & Hne & Hf).
    destruct (forallb _ _) eqn:E; [|reflexivity].
    rewrite forallb_forall in E.
    rewrite <- Hf. symmetry. apply E, list_elem_of_In, list_elem_of_filter. done.
Qed.
End completion.

(** C3. A bill is completed exactly when every id of [splitAmong] other
    than [paidBy] has a [paidStatus] entry equal to [true] (a missing
    entry, or a missing dictionary, counts as false); so it is completed
    when [splitAmong] holds no id other than [paidBy]; and the answer does
    not depend on [pendingStatus]. *)
Theorem isBillCompleted_spec {V} (bill : Bill.t V) :
  (isBillCompleted bill = true
   ↔ ∀ p, p ∈ Bill.splitAmong bill → p ≠ Bill.paidBy bill → confirmed_paid bill p)
  ∧ ((∀ p, p ∈ Bill.splitAmong bill → p = Bill.paidBy bill) →
     isBillCompleted bill = true)
  ∧ (∀ pending, isBillCompleted (Bill.set_pendingStatus pending bill)
                = isBillCompleted bill).
Proof.
  split; [|split].
  - rewrite isBillCompleted_true. unfold confirmed_paid.
    split; intros H p Hp Hne.
    + apply (proj1 (status_flag_true _ p)). by apply H.
    + apply (proj2 (status_flag_true _ p)). by apply H.
  - intros H. apply isBillCompleted_true. intros p Hp Hne.
    exfalso. apply Hne. by apply H.
  - intros pending. reflexivity.
Qed.

(** Scenario 4 of the specification: the payer is the sole participant. *)
Definition scenario_bill_solo : Bill.t jsval :=
  Bill.mk "D" "Bill D" (JNumber (of_Z 12)) "U" (Some "U") ["U"]
    equal None None None None
    (Some (list_to_map [("U", true)])) (Some (list_to_map [("U", false)])) 0.

Lemma isBillCompleted_spec_witness :
  isBillCompleted scenario_bill_solo = true
  ∧ isBillCompleted scenario_bill_A = false.
Proof.
  split.
  - apply (proj1 (proj2 (isBillCompleted_spec scenario_bill_solo))).
    intros p Hp. apply list_elem_of_singleton in Hp. exact Hp.
  - destruct (isBillCompleted scenario_bill_A) eqn:E; [|reflexivity].
    destruct (isBillCompleted_spec scenario_bill_A) as ([Hall _] & _ & _).
    destruct (Hall E "F1") as (st & Hst & HF1).
    + by_evaluation.
    + discriminate.
    + injection Hst as <-. vm_compute in HF1. discriminate.
Defined.

(** ** The balance aggregator *)

(** The value of an accumulator of [p]'s entry, 0 when [p] has no entry. *)
Definition owes_of (m : gmap string UserBalance) (p : string) : num :=
  from_option owes zero (m !! p).

Definition owed_of (m : gmap string UserBalance) (p : string) : num :=
  from_option owed zero (m !! p).

Lemma ensure_entry_lookup (k : string) (fresh : UserBalance)
    (m : gmap string UserBalance) (p : string) :
  ensure_entry k fresh m !! p
  = if decide (k = p) then Some (default fresh (m !! k)) else m !! p.
Proof.
  unfold ensure_entry. destruct (m !! k) as [e|] eqn:E; case_decide; subst.
  - by rewrite E.
  - reflexivity.
  - by rewrite lookup_insert_eq.
  - by rewrite lookup_insert_ne.
Qed.

Section aggregator.
Variable friends : list Friend.t.
Variable userId : string.
Implicit Types (bill : Bill.t jsval) (m : gmap string UserBalance).

(** The entry the hook creates for a participant it meets for the first
    time in a bill the user paid. *)
Definition fresh_debtor (p : string) : UserBalance :=
  newBalance p (getFriendName friends p).

(** The entry it creates for the payer of a bill the user takes part in. *)
Definition fresh_payer bill : UserBalance :=
  newBalance (Bill.paidBy bill) (string_or (Bill.paidByName bill) "Unknown").

Lemma owes_step_lookup bill m (x p : string) :
  owes_step friends userId bill m x !! p
  = if decide (x = p ∧ p ≠ userId ∧ status_flag (Bill.paidStatus bill) p = false)
    then Some (add_owes (calculateUserShare bill p)
                 (default (fresh_debtor p) (m !! p)))
    else m !! p.
Proof.
  unfold owes_step, fresh_debtor.
  destruct (bool_decide_reflect (x = userId)) as [Hx|Hx].
  { rewrite decide_False; [reflexivity|]. intros (-> & Hne & _). done. }
  destruct (status_flag (Bill.paidStatus bill) x) eqn:Hpaid.
  { rewrite decide_False; [reflexivity|]. intros (-> & _ & Hf). congruence. }
  destruct (decide (x = p)) as [->|Hxp].
  - rewrite decide_True by done.
    rewrite lookup_alter_eq, ensure_entry_lookup, decide_True by done.
    reflexivity.
  - rewrite decide_False by (intros (? & _); done).
    rewrite lookup_alter_ne by done.
    rewrite ensure_entry_lookup. by rewrite decide_False.
Qed.

Lemma owes_fold_unchanged bill (l : list string) m (p : string) :
  p ∉ l ∨ p = userId ∨ status_flag (Bill.paidStatus bill) p = true →
  foldl (owes_step friends userId bill) m l !! p = m !! p.
Proof.
  revert m. induction l as [|x l IH]; intros m H; simpl; [reflexivity|].
  rewrite IH.
  - rewrite owes_step_lookup. rewrite decide_False; [reflexivity|].
    intros (-> & Hne & Hf). destruct H as [H | [H | H]].
    + apply H. by left.
    + done.
    + congruence.
  - destruct H as [H | H]; [left | by right].
    intros Hp. apply H. by right.
Qed.

Lemma owes_fold_owing bill (l : list string) m (p : string) :
  NoDup l → p ∈ l → p ≠ userId →
  status_flag (Bill.paidStatus bill) p = false →
  foldl (owes_step friends userId bill) m l !! p
  = Some (add_owes (calculateUserShare bill p)
            (default (fresh_debtor p) (m !! p))).
Proof.
  intros Hnd. revert m.
  induction Hnd as [|x l Hx Hnd IH]; intros m Hp Hne Hf.
  { by apply elem_of_nil in Hp. }
  simpl. destruct (decide (x = p)) as [->|Hxp].
  - rewrite owes_fold_unchanged by (by left).
    rewrite owes_step_lookup. by rewrite decide_True.
  - apply elem_of_cons in Hp as [Hp|Hp]; [congruence|].
    rewrite IH by done. rewrite owes_step_lookup.
    rewrite decide_False by (intros (? & _); done). reflexivity.
Qed.

(** How often [p] is listed in [l]. *)
Definition occurrences (p : string) (l : list string) : nat :=
  length (filter (λ x, x = p) l).

(** Without the assumption that the participants form a set: the share is
    added once for every time [p] is listed. *)
Lemma owes_fold_count bill (l : list string) m (p : string) :
  p ≠ userId → status_flag (Bill.paidStatus bill) p = false →
  foldl (owes_step friends userId bill) m l !! p
  = match occurrences p l with
    | O => m !! p
    | S k => Some (Nat.iter (S k) (add_owes (calculateUserShare bill p))
                     (default (fresh_debtor p) (m !! p)))
    end.
Proof.
  intros Hne Hf. revert m. unfold occurrences.
  induction l as [|x l IH]; intros m; [reflexivity|].
  simpl foldl. rewrite IH, owes_step_lookup, filter_cons.
  destruct (decide (x = p)) as [->|Hx].
  - rewrite decide_True by done. simpl length.
    destruct (length (filter (λ x, x = p) l)) as [|k]; [reflexivity|].
    simpl default. by rewrite <- !Nat.iter_succ_r.
  - rewrite decide_False by (intros (? & _); done). reflexivity.
Qed.

(** A participant of a bill paid by the user who still owes their share. *)
Definition owing bill (p : string) : Prop :=
  p ∈ Bill.splitAmong bill ∧ p ≠ userId
  ∧ status_flag (Bill.paidStatus bill) p = false.

Lemma owes_fold_is_Some bill (l : list string) m (p : string) :
  is_Some (foldl (owes_step friends userId bill) m l !! p)
  ↔ is_Some (m !! p)
    ∨ (p ∈ l ∧ p ≠ userId ∧ status_flag (Bill.paidStatus bill) p = false).
Proof.
  revert m. induction l as [|x l IH]; intros m; simpl.
  { split; [by left | intros [H | (H & _)]; [done | by apply elem_of_nil in H]]. }
  rewrite IH, owes_step_lookup. case_decide as Hc.
  - destruct Hc as (-> & Hne & Hf). split.
    + intros _. right. split; [by left | done].
    + intros _. left. by eexists.
  - split.
    + intros [H | (Hp & Hne & Hf)]; [by left|]. right. split; [by right | done].
    + intros [H | (Hp & Hne & Hf)]; [by left|].
      apply elem_of_cons in Hp as [->|Hp]; [|right; done].
      exfalso. apply Hc. done.
Qed.

(** What one bill does to the entry of [p], case by case. *)
Lemma bill_step_skipped bill m :
  isBillCompleted bill = true ∨ userId ∉ Bill.splitAmong bill →
  bill_step friends userId m bill = m.
Proof.
  unfold bill_step. intros [-> | H]; [reflexivity|].
  destruct (isBillCompleted bill); [reflexivity|].
  by rewrite bool_decide_eq_false_2.
Qed.

Lemma bill_step_payer bill m :
  isBillCompleted bill = false → userId ∈ Bill.splitAmong bill →
  Bill.paidBy bill = userId →
  bill_step friends userId m bill
  = foldl (owes_step friends userId bill) m (Bill.splitAmong bill).
Proof.
  unfold bill_step. intros -> Hin Hp.
  rewrite bool_decide_eq_true_2 by done. simpl.
  by rewrite bool_decide_eq_true_2.
Qed.

Lemma bill_step_participant bill m (p : string) :
  isBillCompleted bill = false → userId ∈ Bill.splitAmong bill →
  Bill.paidBy bill ≠ userId →
  bill_step friends userId m bill !! p
  = if decide (Bill.paidBy bill = p) then
      let e := default (fresh_payer bill) (m !! p) in
      Some (if status_flag (Bill.paidStatus bill) userId then e
            else add_owed (calculateUserShare bill userId) e)
    else m !! p.
Proof.
  unfold bill_step, fresh_payer. intros -> Hin Hp.
  rewrite bool_decide_eq_true_2 by done. simpl.
  rewrite bool_decide_eq_false_2 by done.
  destruct (status_flag (Bill.paidStatus bill) userId); simpl.
  - rewrite ensure_entry_lookup. case_decide; by subst.
  - case_decide as Hc.
    + subst p. rewrite lookup_alter_eq, ensure_entry_lookup.
      by rewrite decide_True.
    + rewrite lookup_alter_ne by done. rewrite ensure_entry_lookup.
      by rewrite decide_False.
Qed.

End aggregator.

Lemma useBalances_established (bills : list (Bill.t jsval))
    (friends : list Friend.t) (uid : string) :
  uid ≠ "" →
  useBalances bills friends (Some uid)
  = set_netBalance <$> foldl (bill_step friends uid) ∅ bills.
Proof. intros H. destruct uid; [done | reflexivity]. Qed.

(** The balance map when a bill of the input is reached is the result of
    the bills before it. *)
Lemma accumulate_reaches (friends : list Friend.t) (uid : string)
    (before after : list (Bill.t jsval)) (bill : Bill.t jsval) :
  accumulate friends uid (before ++ bill :: after)
  = foldl (bill_step friends uid)
      (bill_step friends uid (accumulate friends uid before) bill) after.
Proof. unfold accumulate. by rewrite foldl_app. Qed.

(** C4. [bill_step] is the body of [bills.forEach] and [m] the balance map
    when the bill is reached.  For a bill that is not completed, paid by
    the user and listing the user, every other participant [p] whose
    [paidStatus] is false (or missing) has the share of [p] added to the
    [owes] accumulator of their entry, which is created on first use: once
    when the participants form a set, and in general once for every time
    [p] is listed.  Nothing changes for a participant whose [paidStatus] is
    true. *)
Theorem payer_case_adds_owes (friends : list Friend.t) (userId : string)
    (bill : Bill.t jsval) (m : gmap string UserBalance) (p : string) :
  isBillCompleted bill = false →
  Bill.paidBy bill = userId →
  userId ∈ Bill.splitAmong bill →
  p ∈ Bill.splitAmong bill → p ≠ userId →
  let m' := bill_step friends userId m bill in
  let share := calculateUserShare bill p in
  let entry := default (fresh_debtor friends p) (m !! p) in
  (status_flag (Bill.paidStatus bill) p = false →
     m' !! p = Some (Nat.iter (occurrences p (Bill.splitAmong bill))
                       (add_owes share) entry)
     ∧ (NoDup (Bill.splitAmong bill) →
        m' !! p = Some (add_owes share entry)
        ∧ owes_of m' p = (owes_of m p + share)%num
        ∧ owed_of m' p = owed_of m p))
  ∧ (status_flag (Bill.paidStatus bill) p = true → m' !! p = m !! p).
Proof.
  intros Hopen Hpayer Hin Hp Hne m' share entry. subst m' share entry.
  rewrite bill_step_payer by done. split.
  - intros Hf. split.
    + rewrite owes_fold_count by done. unfold occurrences.
      destruct (filter _ _) as [|y l'] eqn:E; [|reflexivity].
      exfalso. by apply (filter_nil_not_elem_of _ _ p E).
    + intros Hnd.
      pose proof (owes_fold_owing friends userId bill _ m p Hnd Hp Hne Hf) as E.
      split; [exact E|]. unfold owes_of, owed_of. rewrite E.
      destruct (m !! p); simpl; done.
  - intros Hf. apply owes_fold_unchanged. by right; right.
Qed.

Lemma payer_case_adds_owes_witness :
  let balances := useBalances [scenario_bill_A] [] (Some "U") in
  owes <$> balances !! "F1" = Some (of_Z 30)
  ∧ balances !! "F2" = None.
Proof.
  assert (Hopen : isBillCompleted scenario_bill_A = false) by reflexivity.
  assert (Hin : "U" ∈ Bill.splitAmong scenario_bill_A) by by_evaluation.
  assert (Hnd : NoDup (Bill.splitAmong scenario_bill_A)) by by_evaluation.
  assert (H1 : "F1" ∈ Bill.splitAmong scenario_bill_A) by by_evaluation.
  assert (H2 : "F2" ∈ Bill.splitAmong scenario_bill_A) by by_evaluation.
  intros balances. subst balances.
  rewrite useBalances_established by discriminate. simpl foldl.
  rewrite !lookup_fmap. split.
  - destruct (payer_case_adds_owes [] "U" scenario_bill_A ∅ "F1"
                Hopen eq_refl Hin H1 ltac:(discriminate)) as [Hadd _].
    destruct (Hadd eq_refl) as (_ & Honce).
    destruct (Honce Hnd) as (-> & _ & _). by_evaluation.
  - destruct (payer_case_adds_owes [] "U" scenario_bill_A ∅ "F2"
                Hopen eq_refl Hin H2 ltac:(discriminate)) as [_ Hsame].
    rewrite (Hsame eq_refl). reflexivity.
Defined.

(** Scenario 3 of the specification: amount 50 paid by F2, split equally
    between U and F2; U has reported payment, F2 has not confirmed it. *)
Definition scenario_bill_C : Bill.t jsval :=
  Bill.mk "C" "Bill C" (JNumber (of_Z 50)) "F2" (Some "F2") ["U"; "F2"]
    equal None None None None
    (Some (list_to_map [("U", false); ("F2", true)]))
    (Some (list_to_map [("U", true); ("F2", false)])) 0.

(** C5. For a bill that is not completed, paid by someone else and
    listing the user, the user's share is added to the payer's [owed]
    accumulator exactly when the user's [paidStatus] is false, whatever
    [pendingStatus] holds, and no other entry is touched; and every entry
    of the mapping returned by [useBalances] has
    [netBalance = owes - owed]. *)
Theorem participant_case_adds_owed :
  (∀ (friends : list Friend.t) (userId : string) (bill : Bill.t jsval)
     (m : gmap string UserBalance),
     isBillCompleted bill = false →
     Bill.paidBy bill ≠ userId →
     userId ∈ Bill.splitAmong bill →
     let payer := Bill.paidBy bill in
     let m' := bill_step friends userId m bill in
     let e := default (fresh_payer bill) (m !! payer) in
     (status_flag (Bill.paidStatus bill) userId = false →
        m' !! payer = Some (add_owed (calculateUserShare bill userId) e)
        ∧ owed_of m' payer = (owed_of m payer + calculateUserShare bill userId)%num)
     ∧ (status_flag (Bill.paidStatus bill) userId = true →
        m' !! payer = Some e ∧ owed_of m' payer = owed_of m payer)
     ∧ (∀ pending,
          bill_step friends userId m (Bill.set_pendingStatus pending bill) = m')
     ∧ (∀ q, q ≠ payer → m' !! q = m !! q))
  ∧ (∀ (bills : list (Bill.t jsval)) (friends : list Friend.t)
       (userId : option string) (k : string) (e : UserBalance),
       useBalances bills friends userId !! k = Some e →
       netBalance e = (owes e - owed e)%num).
Proof.
  split.
  - intros friends userId bill m Hopen Hpayer Hin payer m' e.
    pose proof (bill_step_participant friends userId bill m payer Hopen Hin Hpayer) as E.
    rewrite decide_True in E by reflexivity. cbv zeta in E. fold e m' in E.
    split; [|split; [|split]].
    + intros Hf. rewrite Hf in E. split; [exact E|].
      unfold owed_of. rewrite E. subst e. by destruct (m !! payer).
    + intros Hf. rewrite Hf in E. split; [exact E|].
      unfold owed_of. rewrite E. subst e. by destruct (m !! payer).
    + intros pending. reflexivity.
    + intros q Hq. subst m'.
      rewrite (bill_step_participant friends userId bill m q) by done.
      by rewrite decide_False.
  - intros bills friends userId k e H.
    assert (Hfm : ∃ (acc : gmap string UserBalance),
               useBalances bills friends userId = set_netBalance <$> acc).
    { destruct userId as [[|c s]|]; simpl.
      - exists ∅. by rewrite fmap_empty.
      - by eexists.
      - exists ∅. by rewrite fmap_empty. }
    destruct Hfm as [acc Hacc]. rewrite Hacc, lookup_fmap in H.
    destruct (acc !! k) as [e0|]; [|discriminate].
    injection H as <-. reflexivity.
Qed.

Lemma participant_case_adds_owed_witness :
  let balances := useBalances [scenario_bill_C] [] (Some "U") in
  status_flag (Bill.pendingStatus scenario_bill_C) "U" = true
  ∧ owed <$> balances !! "F2" = Some (of_Z 25)
  ∧ netBalance <$> balances !! "F2" = Some (of_Z (-25)).
Proof.
  intros balances. split; [reflexivity|]. subst balances.
  rewrite useBalances_established by discriminate. simpl foldl.
  rewrite !lookup_fmap.
  destruct participant_case_adds_owed as [Hstep _].
  destruct (Hstep [] "U" scenario_bill_C ∅ eq_refl ltac:(discriminate)
              ltac:(by_evaluation)) as (Hadd & _ & _ & _).
  destruct (Hadd eq_refl) as [E _].
  change (Bill.paidBy scenario_bill_C) with "F2" in E. rewrite E.
  split; by_evaluation.
Defined.

(** *** Which friends receive an entry *)

Section entries.
Variable friends : list Friend.t.
Variable userId : string.
Implicit Types (bill : Bill.t jsval) (m : gmap string UserBalance).

(** [f] has an outstanding stake toward the user in [bill]: the bill is
    open and includes the user, and either the user paid it and [f] is a
    participant who has not paid, or [f] paid it and the user has not
    paid. *)
Definition outstanding_stake bill (f : string) : Prop :=
  isBillCompleted bill = false ∧ userId ∈ Bill.splitAmong bill ∧ f ≠ userId
  ∧ ((Bill.paidBy bill = userId ∧ f ∈ Bill.splitAmong bill
      ∧ status_flag (Bill.paidStatus bill) f = false)
     ∨ (Bill.paidBy bill = f
        ∧ status_flag (Bill.paidStatus bill) userId = false)).

(** What makes the hook create or keep an entry for [f]: as above,
    except that the payer of an open bill gets one whether or not the
    user has paid. *)
Definition gives_entry bill (f : string) : Prop :=
  isBillCompleted bill = false ∧ userId ∈ Bill.splitAmong bill ∧ f ≠ userId
  ∧ ((Bill.paidBy bill = userId ∧ f ∈ Bill.splitAmong bill
      ∧ status_flag (Bill.paidStatus bill) f = false)
     ∨ Bill.paidBy bill = f).

Lemma bill_step_is_Some bill m (f : string) :
  is_Some (bill_step friends userId m bill !! f)
  ↔ is_Some (m !! f) ∨ gives_entry bill f.
Proof.
  unfold gives_entry.
  destruct (isBillCompleted bill) eqn:Hopen.
  { rewrite bill_step_skipped by (by left). split; [by left|].
    intros [H | (H & _)]; [done | discriminate]. }
  destruct (decide (userId ∈ Bill.splitAmong bill)) as [Hin|Hin].
  2: { rewrite bill_step_skipped by (by right). split; [by left|].
       intros [H | (_ & H & _)]; done. }
  destruct (decide (Bill.paidBy bill = userId)) as [Hp|Hp].
  - rewrite bill_step_payer, owes_fold_is_Some by done. split.
    + intros [H | (Hf & Hne & Hu)]; [by left|]. right.
      repeat split; try done. left. done.
    + intros [H | (_ & _ & Hne & [(_ & Hf & Hu) | Hf])]; [by left | |].
      * right. done.
      * congruence.
  - rewrite bill_step_participant by done. case_decide as Hf.
    + split; [|by eexists]. intros _. right.
      repeat split; try done; [congruence | by right].
    + split; [by left|].
      intros [H | (_ & _ & _ & [(H & _) | H])]; done.
Qed.

Lemma accumulate_is_Some (bills : list (Bill.t jsval)) m (f : string) :
  is_Some (foldl (bill_step friends userId) m bills !! f)
  ↔ is_Some (m !! f) ∨ ∃ bill, bill ∈ bills ∧ gives_entry bill f.
Proof.
  revert m. induction bills as [|b bills IH]; intros m; simpl.
  { split; [by left|]. intros [H | (b & Hb & _)]; [done|].
    by apply elem_of_nil in Hb. }
  rewrite IH, bill_step_is_Some. split.
  - intros [[H | H] | (b' & Hb' & H)].
    + by left.
    + right. exists b. split; [by left | done].
    + right. exists b'. split; [by right | done].
  - intros [H | (b' & Hb' & H)]; [by left; left|].
    apply elem_of_cons in Hb' as [-> | Hb'].
    + left. by right.
    + right. by exists b'.
Qed.

Lemma accumulate_skips_completed (bills : list (Bill.t jsval)) m :
  foldl (bill_step friends userId) m
    (filter (λ bill, isBillCompleted bill = false) bills)
  = foldl (bill_step friends userId) m bills.
Proof.
  revert m. induction bills as [|b bills IH]; intros m; [reflexivity|].
  rewrite filter_cons. case_decide as Hb; simpl.
  - apply IH.
  - rewrite IH. rewrite (bill_step_skipped _ _ b m); [reflexivity|].
    left. by destruct (isBillCompleted b).
Qed.

(** Both accumulators of [f] are 0, if [f] has an entry at all. *)
Definition zero_valued m (f : string) : Prop :=
  ∀ e, m !! f = Some e → owes e = zero ∧ owed e = zero.

Lemma bill_step_zero_valued bill m (f : string) :
  ¬ outstanding_stake bill f →
  zero_valued m f → zero_valued (bill_step friends userId m bill) f.
Proof.
  intros Hno Hz. unfold outstanding_stake in Hno.
  destruct (isBillCompleted bill) eqn:Hopen.
  { by rewrite bill_step_skipped by (by left). }
  destruct (decide (userId ∈ Bill.splitAmong bill)) as [Hin|Hin].
  2: { by rewrite bill_step_skipped by (by right). }
  intros e.
  destruct (decide (Bill.paidBy bill = userId)) as [Hp|Hp].
  - rewrite bill_step_payer by done.
    rewrite owes_fold_unchanged; [apply Hz|].
    destruct (decide (f ∈ Bill.splitAmong bill)) as [Hf|Hf]; [|by left].
    destruct (decide (f = userId)) as [Hu|Hu]; [by right; left|].
    right; right.
    destruct (status_flag (Bill.paidStatus bill) f) eqn:E; [reflexivity|].
    exfalso. apply Hno. repeat split; try done. by left.
  - rewrite bill_step_participant by done. case_decide as Hf; [|apply Hz].
    destruct (status_flag (Bill.paidStatus bill) userId) eqn:E.
    + cbv zeta. intros [= <-]. destruct (m !! f) as [e0|] eqn:E0; simpl.
      * by apply Hz.
      * done.
    + exfalso. apply Hno. repeat split; try done; [congruence | by right].
Qed.

Lemma accumulate_zero_valued (bills : list (Bill.t jsval)) m (f : string) :
  (∀ bill, bill ∈ bills → ¬ outstanding_stake bill f) →
  zero_valued m f →
  zero_valued (foldl (bill_step friends userId) m bills) f.
Proof.
  revert m. induction bills as [|b bills IH]; intros m Hno Hz; [exact Hz|].
  simpl. apply IH.
  - intros b' Hb'. apply Hno. by right.
  - apply bill_step_zero_valued; [apply Hno; by left | exact Hz].
Qed.
End entries.

(** The statement of the specification: a friend with no outstanding
    stake toward the user in any bill has no entry. *)
Definition no_entry_without_stake : Prop :=
  ∀ (bills : list (Bill.t jsval)) (friends : list Friend.t) (uid f : string),
    uid ≠ "" →
    (∀ bill, bill ∈ bills → ¬ outstanding_stake uid bill f) →
    useBalances bills friends (Some uid) !! f = None.

(** A bill paid by F and split among U, F and G: U has paid, G has not. *)
Definition settled_share_bill : Bill.t jsval :=
  Bill.mk "E" "Bill E" (JNumber (of_Z 60)) "F" (Some "F") ["U"; "F"; "G"]
    equal None None None None
    (Some (list_to_map [("U", true); ("F", true); ("G", false)]))
    (Some (list_to_map [("U", false); ("F", false); ("G", false)])) 0.

(** U owes F nothing, and yet F has an entry, with every field 0. *)
Example settled_share_entry :
  useBalances [settled_share_bill] [] (Some "U") !! "F"
  = Some (mkUserBalance "F" "F" zero zero zero).
Proof. by_evaluation. Qed.

Lemma no_entry_without_stake_fails : ¬ no_entry_without_stake.
Proof.
  intros H.
  specialize (H [settled_share_bill] [] "U" "F" ltac:(discriminate)).
  assert (Hnone : useBalances [settled_share_bill] [] (Some "U") !! "F" = None).
  { apply H. intros b Hb. apply list_elem_of_singleton in Hb as ->.
    intros (_ & _ & _ & [(Hp & _) | (_ & Hu)]); discriminate. }
  vm_compute in Hnone. discriminate.
Qed.

(** C6 as stated fails: F has no outstanding stake toward U in the only
    bill, and F is present in the result with zero-valued [owes] and
    [owed]. *)
Lemma settled_payer_has_entry :
  (∀ bill, bill ∈ [settled_share_bill] → ¬ outstanding_stake "U" bill "F")
  ∧ useBalances [settled_share_bill] [] (Some "U") !! "F"
    = Some (mkUserBalance "F" "F" zero zero zero).
Proof.
  split.
  - intros b Hb. apply list_elem_of_singleton in Hb as ->.
    intros (_ & _ & _ & [(Hp & _) | (_ & Hu)]); discriminate.
  - by_evaluation.
Qed.

(** C6, amended. Completed bills contribute no entry and no amount:
    dropping them from the input leaves the result unchanged.  A friend
    has an entry exactly when some open bill that lists the user either was
    paid by the user and lists the friend as a participant who has not
    paid, or was paid by the friend.  A friend with no outstanding stake
    in any bill is therefore absent, or (as the payer of an open bill in
    which the user's own share is settled) present with [owes], [owed] and
    [netBalance] all 0. *)
Theorem entries_of_open_bills (bills : list (Bill.t jsval))
    (friends : list Friend.t) (uid f : string) :
  uid ≠ "" →
  let balances := useBalances bills friends (Some uid) in
  useBalances (filter (λ bill, isBillCompleted bill = false) bills)
    friends (Some uid) = balances
  ∧ (is_Some (balances !! f) ↔ ∃ bill, bill ∈ bills ∧ gives_entry uid bill f)
  ∧ ((∀ bill, bill ∈ bills → ¬ outstanding_stake uid bill f) →
     ∀ e, balances !! f = Some e →
          owes e = zero ∧ owed e = zero ∧ netBalance e = zero).
Proof.
  intros Huid balances. subst balances.
  rewrite !useBalances_established by exact Huid.
  split; [|split].
  - by rewrite accumulate_skips_completed.
  - rewrite lookup_fmap, fmap_is_Some, accumulate_is_Some, lookup_empty.
    split; [intros [[? H] | H]; [discriminate | exact H] | by right].
  - intros Hno e. rewrite lookup_fmap.
    destruct (foldl _ _ _ !! f) as [e0|] eqn:E; [|discriminate].
    intros [= <-].
    destruct (accumulate_zero_valued friends uid bills ∅ f Hno) with (e := e0)
      as [Ho Hd]; [intros e'; by rewrite lookup_empty | exact E |].
    simpl. rewrite Ho, Hd. repeat split.
Qed.

Lemma entries_of_open_bills_witness :
  let balances :=
    useBalances [scenario_bill_solo; settled_share_bill; scenario_bill_C] []
      (Some "U") in
  is_Some (balances !! "F") ∧ is_Some (balances !! "F2")
  ∧ (∀ e, balances !! "F" = Some e →
          owes e = zero ∧ owed e = zero ∧ netBalance e = zero).
Proof.
  intros balances.
  destruct (entries_of_open_bills
              [scenario_bill_solo; settled_share_bill; scenario_bill_C] []
              "U" "F" ltac:(discriminate)) as (_ & HF & HzF).
  destruct (entries_of_open_bills
              [scenario_bill_solo; settled_share_bill; scenario_bill_C] []
              "U" "F2" ltac:(discriminate)) as (_ & HF2 & _).
  split; [|split].
  - apply HF. exists settled_share_bill.
    split; [apply list_elem_of_In; simpl; auto|].
    repeat split; [by_evaluation | discriminate | by right].
  - apply HF2. exists scenario_bill_C.
    split; [apply list_elem_of_In; simpl; auto|].
    repeat split; [by_evaluation | discriminate | by right].
  - apply HzF. intros b Hb.
    intros (Hopen & _ & _ & [(Hp & _) | (Hp & Hu)]).
    + apply elem_of_cons in Hb as [-> | Hb]; [discriminate|].
      apply elem_of_cons in Hb as [-> | Hb]; [discriminate|].
      apply list_elem_of_singleton in Hb as ->. discriminate.
    + apply elem_of_cons in Hb as [-> | Hb]; [discriminate|].
      apply elem_of_cons in Hb as [-> | Hb]; [discriminate|].
      apply list_elem_of_singleton in Hb as ->. discriminate.
Defined.

(** ** The copies of the share calculator *)

(** The dashboard carries the calculator and the completion test of the
    balance hook word for word. *)
Lemma dashboard_calculateAmounts (bill : Bill.t jsval) (userId : string) :
  DashboardPage.calculateAmounts bill userId = calculateUserShare bill userId.
Proof. reflexivity. Qed.

Lemma dashboard_isBillCompleted {V} (bill : Bill.t V) :
  DashboardPage.isBillCompleted bill = isBillCompleted bill.
Proof. reflexivity. Qed.

Section detail_page.

(** A finite amount that is not negative. *)
Definition nonneg_finite (n : num) : Prop := ∃ q, n = Fin q ∧ 0 <= q.

(** The stored bills the detail page is written for: the total is a
    number and no item subtotal is negative, infinite or NaN. *)
Definition well_formed (bill : Bill.t num) : Prop :=
  Bill.amount bill ≠ NaN
  ∧ ∀ k v, default ∅ (Bill.itemizedAmounts bill) !! k = Some v → nonneg_finite v.

Lemma amount_of_fmap (g : string → num) (l : list string) (p : string) :
  p ∈ l → amount_of ((λ personId, (personId, g personId)) <$> l) p = Some (g p).
Proof.
  unfold amount_of. induction l as [|x l IH]; intros Hp.
  { by apply elem_of_nil in Hp. }
  simpl. destruct (bool_decide_reflect (x = p)) as [->|Hx]; [reflexivity|].
  apply elem_of_cons in Hp as [->|Hp]; [done | by apply IH].
Qed.

Lemma num_or_zero_coerced (x : option num) :
  safeNumber (default JUndefined (option_map JNumber x)) = num_or_zero x.
Proof.
  destruct x as [[q| | |]|]; try reflexivity.
  unfold safeNumber; simpl. case_bool_decide; by subst.
Qed.

Lemma Object_values_fmap {A B} (f : A → B) (m : gmap string A) :
  Object_values (f <$> m) = f <$> Object_values m.
Proof.
  unfold Object_values. rewrite map_to_list_fmap, <- !list_fmap_compose.
  apply list_fmap_ext. by intros _ [k v] _.
Qed.

Lemma elem_of_Object_values {A} (m : gmap string A) (v : A) :
  v ∈ Object_values m → ∃ k, m !! k = Some v.
Proof.
  unfold Object_values. intros H.
  apply list_elem_of_fmap in H as ([k v'] & -> & H).
  exists k. by apply elem_of_map_to_list.
Qed.

Lemma foldl_add_nonneg (l : list num) (c : Qc) :
  0 <= c → (∀ v, v ∈ l → nonneg_finite v) →
  ∃ s, foldl (λ a b, a + b)%num (Fin c) l = Fin s ∧ 0 <= s.
Proof.
  revert c. induction l as [|x l IH]; intros c Hc Hl; simpl.
  { by exists c. }
  destruct (Hl x) as (q & -> & Hq); [by left|]. simpl.
  apply IH.
  - replace 0 with (0 + 0) by ring. by apply Qcplus_le_compat.
  - intros v Hv. apply Hl. by right.
Qed.

Lemma itemizedTotal_coerced (m : gmap string num) :
  (∀ k v, m !! k = Some v → nonneg_finite v) →
  foldl (λ a b, a + safeNumber b)%num zero (Object_values (JNumber <$> m))
  = foldl (λ a b, a + b)%num zero (Object_values m).
Proof.
  intros Hm. rewrite Object_values_fmap, foldl_fmap.
  apply foldl_ext. intros a x Hx.
  apply elem_of_Object_values in Hx as [k Hk].
  destruct (Hm k x Hk) as (q & -> & _). reflexivity.
Qed.

(** On the bills it is written for, the detail page shows every
    participant the share the balance hook computes. *)
Lemma detail_page_agrees (bill : Bill.t num) (p : string) :
  well_formed bill → p ∈ Bill.splitAmong bill →
  amount_of (BillDetailPage.calculateAmounts bill) p
  = Some (calculateUserShare (as_stored bill) p).
Proof.
  intros [Hamount Hitems] Hp.
  unfold BillDetailPage.calculateAmounts, calculateUserShare.
  change (Bill.splitType (as_stored bill)) with (Bill.splitType bill).
  change (Bill.splitAmong (as_stored bill)) with (Bill.splitAmong bill).
  destruct (Bill.splitType bill) eqn:Hty.
  - rewrite (amount_of_fmap (λ _, _)) by exact Hp. f_equal.
    change (Bill.amount (as_stored bill)) with (JNumber (Bill.amount bill)).
    rewrite safeNumber_number by exact Hamount.
    rewrite bool_decide_eq_true_2 by reflexivity. rewrite andb_true_r.
    assert (Hlen : (1 ≤ length (Bill.splitAmong bill))%nat).
    { destruct (Bill.splitAmong bill); [by apply elem_of_nil in Hp | simpl; lia]. }
    destruct (is_zero (Bill.amount bill)) eqn:Hz.
    + apply is_zero_spec in Hz. rewrite Hz. by apply zero_div_count.
    + destruct (length (Bill.splitAmong bill)); [lia | reflexivity].
  - rewrite (amount_of_fmap (λ personId, _)) by exact Hp. f_equal.
    rewrite bool_decide_eq_false_2 by discriminate. rewrite andb_false_r.
    change (Bill.taxPercentage (as_stored bill))
      with (option_map JNumber (Bill.taxPercentage bill)).
    change (Bill.tipsPercentage (as_stored bill))
      with (option_map JNumber (Bill.tipsPercentage bill)).
    change (Bill.itemizedAmounts (as_stored bill))
      with (option_map (fmap (M := gmap string) JNumber) (Bill.itemizedAmounts bill)).
    rewrite !num_or_zero_coerced.
    set (m := default ∅ (Bill.itemizedAmounts bill)) in *.
    assert (Hm : default ∅ (option_map (fmap (M := gmap string) JNumber)
                               (Bill.itemizedAmounts bill)) = JNumber <$> m).
    { subst m. destruct (Bill.itemizedAmounts bill); simpl;
        [reflexivity | by rewrite fmap_empty]. }
    rewrite Hm, itemizedTotal_coerced by exact Hitems.
    assert (Hitem : safeNumber (js_get (JNumber <$> m) p)
                    = num_or_zero (Bill.itemizedAmounts bill ≫= (.!! p))).
    { unfold js_get. rewrite lookup_fmap. subst m.
      destruct (Bill.itemizedAmounts bill) as [im|]; simpl;
        [|by rewrite lookup_empty].
      destruct (im !! p) as [v|] eqn:E; simpl; [|reflexivity].
      destruct (Hitems p v E) as (q & -> & _).
      unfold safeNumber; simpl. case_bool_decide; by subst. }
    rewrite Hitem.
    destruct (foldl_add_nonneg (Object_values m) 0) as (s & Hs & Hs0).
    { apply Qcle_refl. }
    { intros v Hv. apply elem_of_Object_values in Hv as [k Hk]. by eapply Hitems. }
    fold zero in Hs. rewrite Hs. simpl is_zero. simpl gt_zero.
    destruct (bool_decide_reflect (s = 0)) as [->|Hne].
    + rewrite bool_decide_eq_false_2 by apply Qcle_not_lt, Qcle_refl.
      by rewrite add_zero_r.
    + rewrite bool_decide_eq_true_2; [reflexivity|].
      apply Qcle_lt_or_eq in Hs0 as [H | H]; [exact H | congruence].
Qed.

End detail_page.

(** A custom bill on which the two detail pages differ: the amount typed
    for the bill is 115, the items add up to 100, tax 10%, tips 5%. *)
Definition itemized_bill : Bill.t num :=
  Bill.mk "B" "Bill B" (of_Z 115) "Q" (Some "Q") ["P"; "Q"] custom None
    (Some (list_to_map [("P", of_Z 40); ("Q", of_Z 60)]))
    (Some (of_Z 10)) (Some (of_Z 5))
    (Some (list_to_map [("P", false); ("Q", true)]))
    (Some (list_to_map [("P", false); ("Q", false)])) 0.

(** C7. The copies of the calculator evaluated on one bill snapshot: the
    balance hook, the dashboard and one detail page give P a share of 46,
    the other detail page, which takes tax and tips on [bill.amount], gives
    46.9. *)
Theorem detail_page_copy_diverges :
  calculateUserShare (as_stored itemized_bill) "P" = of_Z 46
  ∧ DashboardPage.calculateAmounts (as_stored itemized_bill) "P" = of_Z 46
  ∧ amount_of (BillDetailPage.calculateAmounts itemized_bill) "P" = Some (of_Z 46)
  ∧ amount_of (BillDetailPageCopy.calculateAmounts itemized_bill) "P"
    = Some (Fin (Q2Qc (469 # 10)))
  ∧ amount_of (BillDetailPageCopy.calculateAmounts itemized_bill) "P"
    ≠ Some (calculateUserShare (as_stored itemized_bill) "P").
Proof. repeat split; by_evaluation. Qed.

(** ** Bill creation *)

Section creation.
Import useData.

Lemma initial_status_fold (payer : string) (l : list string)
    (acc : gmap string bool * gmap string bool) (p : string) :
  let r := foldl (λ '(paidStatus, pendingStatus) uid,
                    (<[uid := bool_decide (uid = payer)]> paidStatus,
                     <[uid := false]> pendingStatus)) acc l in
  r.1 !! p = (if decide (p ∈ l) then Some (bool_decide (p = payer)) else acc.1 !! p)
  ∧ r.2 !! p = (if decide (p ∈ l) then Some false else acc.2 !! p).
Proof.
  revert acc. induction l as [|x l IH]; intros [ps pe]; simpl.
  { done. }
  destruct (IH (<[x := bool_decide (x = payer)]> ps, <[x := false]> pe)) as [H1 H2].
  simpl in H1, H2. rewrite H1, H2.
  destruct (decide (p ∈ l)) as [Hl|Hl].
  - rewrite !decide_True by (by right). done.
  - destruct (decide (p = x)) as [->|Hx].
    + rewrite !decide_True by (by left). by rewrite !lookup_insert_eq.
    + rewrite !decide_False by (intros [?|?]%elem_of_cons; done).
      by rewrite !lookup_insert_ne.
Qed.

Lemma initial_status_lookup (billData : BillData) (p : string) :
  p ∈ splitAmong billData →
  (initial_status billData).1 !! p = Some (bool_decide (p = paidBy billData))
  ∧ (initial_status billData).2 !! p = Some false.
Proof.
  intros Hp. unfold initial_status.
  destruct (initial_status_fold (paidBy billData) (splitAmong billData) (∅, ∅) p)
    as [H1 H2].
  rewrite decide_True in H1, H2 by exact Hp. done.
Qed.

Lemma createBill_written (u : User) (db : Firestore) (billData : BillData)
    (bill : Bill.t jsval) :
  createBill (Some u) db billData = Resolved bill →
  Bill.paidStatus bill = Some (initial_status billData).1
  ∧ Bill.pendingStatus bill = Some (initial_status billData).2
  ∧ Bill.paidBy bill = paidBy billData
  ∧ Bill.splitAmong bill = splitAmong billData.
Proof.
  unfold createBill. destruct (initial_status billData) as [ps pe].
  destruct (addDoc db) as [i|e]; [|discriminate].
  intros [= <-]. done.
Qed.
End creation.

Definition scenario_billData : useData.BillData :=
  useData.mkBillData "Bill A" (JString "90") "U" ["U"; "F1"; "F2"] equal
    None None None None.

Definition scenario_db : useData.Firestore :=
  useData.mkFirestore (λ _, useData.DocData (Some "Una"))
    (useData.Resolved "bill-1") 1700000000.

(** C8. [createBill] fails with the error "User not authenticated" when
    no acting user is established.  Otherwise, unless the store refuses the
    write, it writes a bill, and the bill it writes has
    [paidStatus[p] = (p == paidBy)] and [pendingStatus[p] = false] for
    every [p] of [splitAmong]; so [paidStatus[paidBy]] is true when
    [paidBy] is in [splitAmong]. *)
Theorem createBill_spec (user : option useData.User) (db : useData.Firestore)
    (billData : useData.BillData) :
  (user = None →
     useData.createBill user db billData
     = useData.Rejected "User not authenticated")
  ∧ (is_Some user → (∃ i, useData.addDoc db = useData.Resolved i) →
     ∃ bill, useData.createBill user db billData = useData.Resolved bill)
  ∧ (∀ bill, useData.createBill user db billData = useData.Resolved bill →
       is_Some user
       ∧ (∀ p, p ∈ useData.splitAmong billData →
            Bill.paidStatus bill ≫= (.!! p)
            = Some (bool_decide (p = useData.paidBy billData))
            ∧ Bill.pendingStatus bill ≫= (.!! p) = Some false)
       ∧ (useData.paidBy billData ∈ useData.splitAmong billData →
          Bill.paidStatus bill ≫= (.!! Bill.paidBy bill) = Some true)).
Proof.
  split; [|split].
  - intros ->. reflexivity.
  - intros [u ->] [i Hi]. unfold useData.createBill.
    destruct (useData.initial_status billData) as [ps pe]. rewrite Hi.
    by eexists.
  - intros bill H. destruct user as [u|]; [|discriminate].
    apply createBill_written in H as (Hps & Hpe & Hpayer & Hsplit).
    split; [by eexists|]. rewrite Hps, Hpe, Hpayer. simpl. split.
    + intros p Hp. by apply initial_status_lookup.
    + intros Hp. destruct (initial_status_lookup billData _ Hp) as [-> _].
      by rewrite bool_decide_eq_true_2.
Qed.

Lemma createBill_spec_witness :
  ∃ bill,
    useData.createBill (Some (useData.mkUser "U" None)) scenario_db
      scenario_billData = useData.Resolved bill
    ∧ Bill.paidStatus bill ≫= (.!! "U") = Some true
    ∧ Bill.paidStatus bill ≫= (.!! "F1") = Some false
    ∧ Bill.pendingStatus bill ≫= (.!! "F1") = Some false.
Proof.
  destruct (createBill_spec (Some (useData.mkUser "U" None)) scenario_db
              scenario_billData) as (_ & Hwrites & Hbill).
  destruct Hwrites as [bill Hb]; [by eexists | by eexists |].
  exists bill. split; [exact Hb|].
  destruct (Hbill bill Hb) as (_ & Hall & Hpayer).
  assert (HU : "U" ∈ useData.splitAmong scenario_billData) by by_evaluation.
  assert (HF : "F1" ∈ useData.splitAmong scenario_billData) by by_evaluation.
  destruct (Hall "F1" HF) as [H1 H2].
  destruct (Hall "U" HU) as [H3 _].
  repeat split; [exact H3 | exact H1 | exact H2].
Defined.

(** ** Status transitions *)

Lemma default_empty_lookup {A} (st : option (gmap string A)) (k : string) :
  default ∅ st !! k = st ≫= (.!! k).
Proof. destruct st; simpl; [reflexivity | apply lookup_empty]. Qed.

(** C9. Confirming the payment of [p] issues exactly one update; it
    carries both status dictionaries in full, with [paidStatus[p]] true and
    [pendingStatus[p]] false, and the entries of every other participant as
    they are in the bill that was read. *)
Theorem handleConfirmPaid_spec {V} (bill : Bill.t V) (p : string) :
  ∃ newPaid newPending,
    BillDetailPage.handleConfirmPaid bill p
    = [mkUpdateCall (Bill.id bill) (mkBillPatch (Some newPaid) (Some newPending))]
    ∧ newPaid !! p = Some true
    ∧ newPending !! p = Some false
    ∧ ∀ q, q ≠ p →
        newPaid !! q = Bill.paidStatus bill ≫= (.!! q)
        ∧ newPending !! q = Bill.pendingStatus bill ≫= (.!! q).
Proof.
  eexists _, _. split; [reflexivity|].
  rewrite !lookup_insert_eq. repeat split.
  - rewrite lookup_insert_ne by done. apply default_empty_lookup.
  - rewrite lookup_insert_ne by done. apply default_empty_lookup.
Qed.

(** Once the update is applied to the stored bill, [p] reads as paid and
    not pending, and nobody else's flags have moved. *)
Lemma confirmPaid_applied {V} (bill : Bill.t V) (p : string) :
  let bill' :=
    foldl (λ b c, apply_patch (call_updates c) b) bill
          (BillDetailPage.handleConfirmPaid bill p) in
  status_flag (Bill.paidStatus bill') p = true
  ∧ status_flag (Bill.pendingStatus bill') p = false
  ∧ ∀ q, q ≠ p →
      status_flag (Bill.paidStatus bill') q = status_flag (Bill.paidStatus bill) q
      ∧ status_flag (Bill.pendingStatus bill') q
        = status_flag (Bill.pendingStatus bill) q.
Proof.
  simpl. unfold status_flag; simpl. rewrite !lookup_insert_eq.
  repeat split; rewrite lookup_insert_ne by done;
    by rewrite default_empty_lookup.
Qed.

(** ** Coercion and sign of the share *)

Section coercion.

Lemma nonneg_finite_add (a b : num) :
  nonneg_finite a → nonneg_finite b → nonneg_finite (a + b)%num.
Proof.
  intros (x & -> & Hx) (y & -> & Hy). exists (x + y). split; [reflexivity|].
  replace 0 with (0 + 0) by ring. by apply Qcplus_le_compat.
Qed.

Lemma nonneg_finite_mul (a b : num) :
  nonneg_finite a → nonneg_finite b → nonneg_finite (a * b)%num.
Proof.
  intros (x & -> & Hx) (y & -> & Hy). exists (x * y). split; [reflexivity|].
  by apply Qcmult_nonneg_nonneg.
Qed.

Lemma nonneg_finite_div (a : num) (y : Qc) :
  nonneg_finite a → 0 < y → nonneg_finite (a / Fin y)%num.
Proof.
  intros (x & -> & Hx) Hy. exists (x / y). simpl.
  rewrite bool_decide_eq_false_2.
  - split; [reflexivity|]. unfold Qcdiv.
    apply Qcmult_nonneg_nonneg; [exact Hx|]. by apply Qclt_le_weak, Qcinv_pos.
  - intros ->. by apply (Qcle_not_lt 0 0 (Qcle_refl 0)).
Qed.

Lemma nonneg_finite_ge_zero (a : num) : nonneg_finite a → ge_zero a = true.
Proof. intros (x & -> & Hx). simpl. by apply bool_decide_eq_true_2. Qed.

Lemma itemizedTotal_nonneg (m : gmap string jsval) :
  (∀ k v, m !! k = Some v → nonneg_finite (safeNumber v)) →
  nonneg_finite (itemizedTotal_spec m).
Proof.
  intros Hm. rewrite itemizedTotal_spec_sum.
  assert (Hl : ∀ v, v ∈ Object_values m → nonneg_finite (safeNumber v)).
  { intros v Hv. apply elem_of_Object_values in Hv as [k Hk]. by eapply Hm. }
  induction (Object_values m) as [|x l IH]; simpl.
  - exists 0. split; [reflexivity | apply Qcle_refl].
  - apply nonneg_finite_add.
    + apply Hl. by left.
    + apply IH. intros v Hv. apply Hl. by right.
Qed.

Lemma itemizedTotal_spec_replace (m : gmap string jsval) (k : string)
    (v v' : jsval) :
  m !! k = Some v → safeNumber v' = safeNumber v →
  itemizedTotal_spec (<[k := v']> m) = itemizedTotal_spec m.
Proof.
  intros Hk Hv.
  rewrite <- (insert_delete_eq m k v').
  rewrite (itemizedTotal_spec_insert (delete k m) k v') by apply lookup_delete_eq.
  rewrite Hv, <- (itemizedTotal_spec_insert (delete k m) k v)
    by apply lookup_delete_eq.
  by rewrite insert_delete_id.
Qed.

Lemma userItemAmount_spec_replace (m : gmap string jsval) (k p : string)
    (v v' : jsval) :
  m !! k = Some v → safeNumber v' = safeNumber v →
  userItemAmount_spec (<[k := v']> m) p = userItemAmount_spec m p.
Proof.
  intros Hk Hv. unfold userItemAmount_spec.
  destruct (decide (k = p)) as [->|Hne].
  - by rewrite lookup_insert_eq, Hk.
  - by rewrite lookup_insert_ne.
Qed.

(** The conditions under which the share has a sign: under an equal
    split the coerced total is not negative; under a custom split the
    coerced percentages and item subtotals are finite and not negative. *)
Definition coerced_nonneg (bill : Bill.t jsval) : Prop :=
  match Bill.splitType bill with
  | equal => ge_zero (safeNumber (Bill.amount bill)) = true
  | custom =>
      nonneg_finite (safeNumber (default JUndefined (Bill.taxPercentage bill)))
      ∧ nonneg_finite (safeNumber (default JUndefined (Bill.tipsPercentage bill)))
      ∧ ∀ k v, default ∅ (Bill.itemizedAmounts bill) !! k = Some v →
               nonneg_finite (safeNumber v)
  end.

Lemma calculateUserShare_nonneg (bill : Bill.t jsval) (p : string) :
  coerced_nonneg bill → ge_zero (calculateUserShare bill p) = true.
Proof.
  unfold coerced_nonneg. destruct (Bill.splitType bill) eqn:Hty.
  - intros HA. rewrite calculateUserShare_equal by exact Hty.
    assert (Hn : 0 < Q2Qc (inject_Z (Z.of_nat (splitCount bill)))).
    { apply Qc_of_Z_pos. unfold splitCount. lia. }
    destruct (safeNumber (Bill.amount bill)) as [a| | |] eqn:E;
      try discriminate.
    + apply nonneg_finite_ge_zero. apply nonneg_finite_div; [|exact Hn].
      exists a. split; [reflexivity|]. simpl in HA.
      by apply bool_decide_eq_true_1 in HA.
    + unfold of_nat, of_Z; simpl. unfold inf_of_sign.
      rewrite bool_decide_eq_true_2 by (by apply Qclt_le_weak). reflexivity.
  - intros (Htax & Htips & Hitems).
    rewrite calculateUserShare_custom by exact Hty. unfold custom_share_spec.
    set (items := default ∅ (Bill.itemizedAmounts bill)) in *.
    pose proof (itemizedTotal_nonneg items Hitems) as Htotal.
    assert (Hitem : nonneg_finite (userItemAmount_spec items p)).
    { unfold userItemAmount_spec. destruct (items !! p) as [v|] eqn:E; simpl.
      - by eapply Hitems.
      - exists 0. split; [reflexivity | apply Qcle_refl]. }
    assert (H100 : 0 < Q2Qc (inject_Z 100)) by (by apply Qc_of_Z_pos).
    apply nonneg_finite_ge_zero.
    destruct (decide _) as [Hz|Hz]; [exact Hitem|].
    destruct Htotal as (s & Hs & Hs0). rewrite Hs in *.
    assert (Hspos : 0 < s).
    { apply Qcle_lt_or_eq in Hs0 as [H | H]; [exact H|].
      exfalso. apply Hz. by rewrite <- H. }
    apply nonneg_finite_add; [exact Hitem|].
    apply nonneg_finite_mul.
    + by apply nonneg_finite_div.
    + apply nonneg_finite_add; apply nonneg_finite_div; try exact H100;
        apply nonneg_finite_mul; try done; by exists s.
Qed.

End coercion.

(** A refund entered as a bill: amount -90, equal split among three. *)
Definition refund_bill : Bill.t jsval :=
  Bill.mk "R" "Refund" (JNumber (of_Z (-90))) "U" (Some "U") ["U"; "F1"; "F2"]
    equal None None None None
    (Some (list_to_map [("U", true); ("F1", false); ("F2", false)]))
    (Some (list_to_map [("U", false); ("F1", false); ("F2", false)])) 0.

(** C10 as stated fails: the share of a bill with a negative amount is
    negative. *)
Lemma negative_share :
  calculateUserShare refund_bill "F1" = of_Z (-30)
  ∧ ge_zero (calculateUserShare refund_bill "F1") = false.
Proof. split; by_evaluation. Qed.

(** C10, amended. The calculator is a total function.  An amount, a
    percentage or an item subtotal that is missing or that [parseFloat]
    cannot read behaves as 0.  The share is greater than or equal to 0
    when the coerced total (equal split) is not negative, or when the
    coerced percentages and item subtotals (custom split) are finite and
    not negative and no sum or product of them overflows: the arithmetic
    here is exact, so a sum of finite numbers is finite.  A total that is
    infinite, as an overflowing sum is, gives NaN ([infinite_total_share]
    below). *)
Theorem calculateUserShare_coercion :
  (∀ bill p, parseFloat (Bill.amount bill) = NaN →
     calculateUserShare bill p
     = calculateUserShare (Bill.set_amount (JNumber zero) bill) p)
  ∧ (∀ bill p, parseFloat (default JUndefined (Bill.taxPercentage bill)) = NaN →
     calculateUserShare bill p
     = calculateUserShare (Bill.set_taxPercentage (Some (JNumber zero)) bill) p)
  ∧ (∀ bill p, parseFloat (default JUndefined (Bill.tipsPercentage bill)) = NaN →
     calculateUserShare bill p
     = calculateUserShare (Bill.set_tipsPercentage (Some (JNumber zero)) bill) p)
  ∧ (∀ bill p, Bill.itemizedAmounts bill = None →
     calculateUserShare bill p
     = calculateUserShare (Bill.set_itemizedAmounts (Some ∅) bill) p)
  ∧ (∀ bill p items k v,
       Bill.itemizedAmounts bill = Some items → items !! k = Some v →
       parseFloat v = NaN →
       calculateUserShare bill p
       = calculateUserShare
           (Bill.set_itemizedAmounts (Some (<[k := JNumber zero]> items)) bill) p)
  ∧ (∀ bill p, coerced_nonneg bill → ge_zero (calculateUserShare bill p) = true).
Proof.
  repeat split.
  - intros bill p H. unfold calculateUserShare; simpl.
    by rewrite (safeNumber_unreadable _ H).
  - intros bill p H. unfold calculateUserShare; simpl.
    by rewrite (safeNumber_unreadable _ H).
  - intros bill p H. unfold calculateUserShare; simpl.
    by rewrite (safeNumber_unreadable _ H).
  - intros bill p H. unfold calculateUserShare; simpl. by rewrite H.
  - intros bill p items k v Hitems Hk Hv.
    assert (Hsafe : safeNumber (JNumber zero) = safeNumber v).
    { by rewrite (safeNumber_unreadable _ Hv). }
    destruct (Bill.splitType bill) eqn:Hty.
    + rewrite !calculateUserShare_equal by done. reflexivity.
    + rewrite !calculateUserShare_custom by done.
      unfold custom_share_spec; simpl. rewrite Hitems; simpl.
      rewrite (itemizedTotal_spec_replace items k v) by done.
      by rewrite (userItemAmount_spec_replace items k p v).
  - intros bill p. apply calculateUserShare_nonneg.
Qed.

(** A bill none of whose numeric fields can be read. *)
Definition unreadable_bill : Bill.t jsval :=
  Bill.mk "X" "Bill X" (JString "n/a") "U" None ["U"; "F1"] custom None
    (Some (list_to_map [("U", JString "12.50"); ("F1", JString "?")]))
    (Some (JString "abc")) None None None 0.

Lemma calculateUserShare_coercion_witness :
  coerced_nonneg unreadable_bill
  ∧ ge_zero (calculateUserShare unreadable_bill "U") = true
  ∧ calculateUserShare unreadable_bill "F1"
    = calculateUserShare
        (Bill.set_itemizedAmounts
           (Some (<[ "F1" := JNumber zero ]>
                    (list_to_map [("U", JString "12.50"); ("F1", JString "?")])))
           unreadable_bill) "F1".
Proof.
  assert (Hnn : coerced_nonneg unreadable_bill).
  { repeat split.
    - exists 0. split; [reflexivity | apply Qcle_refl].
    - exists 0. split; [reflexivity | apply Qcle_refl].
    - intros k v Hkv.
      destruct (decide (k = "U")) as [-> | HU].
      { vm_compute in Hkv. injection Hkv as <-.
        exists (Q2Qc (25 # 2)). split; by_evaluation. }
      destruct (decide (k = "F1")) as [-> | HF].
      { vm_compute in Hkv. injection Hkv as <-.
        exists 0. split; [reflexivity | apply Qcle_refl]. }
      simpl in Hkv. rewrite !lookup_insert_ne, lookup_empty in Hkv by done.
      discriminate. }
  destruct calculateUserShare_coercion as (_ & _ & _ & _ & Hentry & Hsign).
  split; [exact Hnn|]. split.
  - by apply Hsign.
  - apply (Hentry unreadable_bill "F1" _ "F1" (JString "?")); reflexivity.
Defined.

(** An itemized total that is infinite: P's item is 40, Q's is Infinity,
    tax 10%. *)
Definition infinite_total_bill : Bill.t jsval :=
  Bill.mk "I" "Bill I" (JNumber zero) "Q" (Some "Q") ["P"; "Q"] custom None
    (Some (list_to_map [("P", JNumber (of_Z 40)); ("Q", JNumber PInf)]))
    (Some (JNumber (of_Z 10))) None None None 0.

(** The finiteness asked of the item subtotals is needed: none of the
    coerced fields is negative, and the share is NaN.  This is also what
    the code computes when the sum of finite item subtotals overflows to
    Infinity. *)
Example infinite_total_share :
  (∀ k v, default ∅ (Bill.itemizedAmounts infinite_total_bill) !! k = Some v →
          ge_zero (safeNumber v) = true)
  ∧ ge_zero (safeNumber (default JUndefined
                           (Bill.taxPercentage infinite_total_bill))) = true
  ∧ calculateUserShare infinite_total_bill "P" = NaN
  ∧ ge_zero (calculateUserShare infinite_total_bill "P") = false.
Proof.
  split; [|repeat split; by_evaluation].
  intros k v Hkv.
  change (default ∅ (Bill.itemizedAmounts infinite_total_bill))
    with (<["P" := JNumber (of_Z 40)]>
            (<["Q" := JNumber PInf]> (∅ : gmap string jsval))) in Hkv.
  destruct (decide (k = "P")) as [->|HP].
  { rewrite lookup_insert_eq in Hkv. injection Hkv as <-. by_evaluation. }
  destruct (decide (k = "Q")) as [->|HQ].
  { rewrite lookup_insert_ne, lookup_insert_eq in Hkv by done.
    injection Hkv as <-. reflexivity. }
  rewrite !lookup_insert_ne, lookup_empty in Hkv by done. discriminate.
Qed.


(** * Further properties of the code *)

(** ** The totals of the dashboard (components/pages/DashboardPage) *)

Record Totals : Type := mkTotals {
  totalUnpaid : num;
  totalPaid : num;
  totalPending : num;
}.

(** The body of [bills.forEach] inside [totals]. *)
Definition totals_step (authenticatedUser : option useData.User)
    (t : Totals) (bill : Bill.t jsval) : Totals :=
  match authenticatedUser with
  | None => t
  | Some user =>
      if bool_decide (useData.uid user ∈ Bill.splitAmong bill) then
        let myShare := DashboardPage.calculateAmounts bill (useData.uid user) in
        if bool_decide (Bill.paidBy bill = useData.uid user) then
          mkTotals (totalUnpaid t) (totalPaid t + myShare)%num (totalPending t)
        else
          let isPaid := status_flag (Bill.paidStatus bill) (useData.uid user) in
          let isPending := status_flag (Bill.pendingStatus bill) (useData.uid user) in
          if isPaid then
            mkTotals (totalUnpaid t) (totalPaid t + myShare)%num (totalPending t)
          else if isPending then
            mkTotals (totalUnpaid t + myShare)%num (totalPaid t)
                     (totalPending t + myShare)%num
          else
            mkTotals (totalUnpaid t + myShare)%num (totalPaid t) (totalPending t)
      else t
  end.

Definition dashboard_totals (bills : list (Bill.t jsval))
    (authenticatedUser : option useData.User) : Totals :=
  foldl (totals_step authenticatedUser) (mkTotals zero zero zero) bills.

(** The user still has to pay their share of [bill]: they take part, did
    not pay the bill, and their share is not confirmed. *)
Definition user_unpaid (uid : string) (bill : Bill.t jsval) : bool :=
  bool_decide (uid ∈ Bill.splitAmong bill)
  && negb (bool_decide (Bill.paidBy bill = uid))
  && negb (status_flag (Bill.paidStatus bill) uid).

Section dashboard_totals_facts.
Variable user : useData.User.

Lemma add_swap_r (a b c : num) : ((a + b) + c)%num = ((a + c) + b)%num.
Proof. by rewrite <- !add_assoc, (add_comm b c). Qed.

Lemma totals_step_sum (t : Totals) (bill : Bill.t jsval) :
  (totalPaid (totals_step (Some user) t bill)
   + totalUnpaid (totals_step (Some user) t bill))%num
  = if bool_decide ((useData.uid user) ∈ Bill.splitAmong bill)
    then ((totalPaid t + totalUnpaid t) + calculateUserShare bill (useData.uid user))%num
    else (totalPaid t + totalUnpaid t)%num.
Proof.
  unfold totals_step. rewrite dashboard_calculateAmounts.
  case_bool_decide; [|reflexivity].
  case_bool_decide; simpl; [apply add_swap_r|].
  destruct (status_flag (Bill.paidStatus bill) (useData.uid user)); simpl; [apply add_swap_r|].
  destruct (status_flag (Bill.pendingStatus bill) (useData.uid user)); simpl;
    by rewrite add_assoc.
Qed.

Lemma totals_fold_sum (bills : list (Bill.t jsval)) (t : Totals) :
  (totalPaid (foldl (totals_step (Some user)) t bills)
   + totalUnpaid (foldl (totals_step (Some user)) t bills))%num
  = ((totalPaid t + totalUnpaid t)
     + sum_num ((λ bill, calculateUserShare bill (useData.uid user))
                  <$> filter (λ bill, (useData.uid user) ∈ Bill.splitAmong bill) bills))%num.
Proof.
  revert t. induction bills as [|b bills IH]; intros t; cbn [foldl].
  { simpl. by rewrite add_zero_r. }
  rewrite IH, totals_step_sum, filter_cons.
  case_bool_decide as Hin.
  - rewrite decide_True by done. simpl. by rewrite add_assoc.
  - by rewrite decide_False.
Qed.

Lemma totals_step_unpaid (t : Totals) (bill : Bill.t jsval) :
  totalUnpaid (totals_step (Some user) t bill)
  = if user_unpaid (useData.uid user) bill
    then (totalUnpaid t + calculateUserShare bill (useData.uid user))%num
    else totalUnpaid t.
Proof.
  unfold totals_step, user_unpaid. rewrite dashboard_calculateAmounts.
  case_bool_decide; [|reflexivity]. case_bool_decide; [reflexivity|].
  destruct (status_flag (Bill.paidStatus bill) (useData.uid user)); [reflexivity|].
  by destruct (status_flag (Bill.pendingStatus bill) (useData.uid user)).
Qed.

Lemma totals_step_paid_unpaid_pending_free (t1 t2 : Totals)
    (bill : Bill.t jsval) (pending : option (gmap string bool)) :
  totalUnpaid t1 = totalUnpaid t2 → totalPaid t1 = totalPaid t2 →
  let t1' := totals_step (Some user) t1 (Bill.set_pendingStatus pending bill) in
  let t2' := totals_step (Some user) t2 bill in
  totalUnpaid t1' = totalUnpaid t2' ∧ totalPaid t1' = totalPaid t2'.
Proof.
  intros Hu Hp. unfold totals_step. simpl.
  case_bool_decide; [|done]. case_bool_decide; simpl; [by rewrite Hu, Hp|].
  destruct (status_flag (Bill.paidStatus bill) (useData.uid user)); simpl; [by rewrite Hu, Hp|].
  destruct (status_flag pending (useData.uid user)), (status_flag (Bill.pendingStatus bill) (useData.uid user));
    simpl; by rewrite Hu, Hp.
Qed.

End dashboard_totals_facts.

(** X1. Every bill that lists the signed-in user counts in exactly one of
    "paid" and "unpaid": the two totals add up to the sum of the user's
    shares over the bills that list them.  With nobody signed in all three
    totals are 0. *)
Theorem dashboard_totals_account (bills : list (Bill.t jsval)) :
  (∀ user,
     let t := dashboard_totals bills (Some user) in
     (totalPaid t + totalUnpaid t)%num
     = sum_num ((λ bill, calculateUserShare bill (useData.uid user))
                  <$> filter (λ bill, useData.uid user ∈ Bill.splitAmong bill) bills))
  ∧ dashboard_totals bills None = mkTotals zero zero zero.
Proof.
  split.
  - intros user. unfold dashboard_totals.
    rewrite (totals_fold_sum user bills (mkTotals zero zero zero)).
    cbn [totalPaid totalUnpaid]. by rewrite !add_zero_l.
  - unfold dashboard_totals. induction bills as [|b bills IH]; [reflexivity|].
    exact IH.
Qed.

(** X2. The "paid" and "unpaid" totals do not read [pendingStatus]: they
    are the same whatever the pending flags of the bills are, so a payment
    that is reported but not confirmed still counts as unpaid. *)
Theorem dashboard_totals_ignore_pending (bills : list (Bill.t jsval))
    (user : useData.User)
    (pending : Bill.t jsval → option (gmap string bool)) :
  let bills' := (λ bill, Bill.set_pendingStatus (pending bill) bill) <$> bills in
  totalUnpaid (dashboard_totals bills' (Some user))
  = totalUnpaid (dashboard_totals bills (Some user))
  ∧ totalPaid (dashboard_totals bills' (Some user))
    = totalPaid (dashboard_totals bills (Some user)).
Proof.
  unfold dashboard_totals.
  assert (H : ∀ t1 t2, totalUnpaid t1 = totalUnpaid t2 → totalPaid t1 = totalPaid t2 →
            totalUnpaid (foldl (totals_step (Some user)) t1
                           ((λ bill, Bill.set_pendingStatus (pending bill) bill) <$> bills))
            = totalUnpaid (foldl (totals_step (Some user)) t2 bills)
            ∧ totalPaid (foldl (totals_step (Some user)) t1
                           ((λ bill, Bill.set_pendingStatus (pending bill) bill) <$> bills))
              = totalPaid (foldl (totals_step (Some user)) t2 bills)).
  { induction bills as [|b bills IH]; intros t1 t2 Hu Hp; [done|].
    cbn [foldl fmap list_fmap]. apply IH;
      by apply (totals_step_paid_unpaid_pending_free user t1 t2 b (pending b)). }
  by apply H.
Qed.

(** *** "You owe" on the dashboard and the ledger of the friends page *)

(** The sum of one field over the entries of a ledger. *)
Definition total_by (g : UserBalance → num) (m : gmap string UserBalance) : num :=
  sum_num (g <$> Object_values m).

(** What the user owes to all friends together, according to the ledger. *)
Definition total_owed (balances : gmap string UserBalance) : num :=
  total_by owed balances.

Section ledger_totals.
Variable g : UserBalance → num.
Implicit Types (m : gmap string UserBalance) (e : UserBalance).

Lemma total_by_empty : total_by g ∅ = zero.
Proof. unfold total_by, Object_values. by rewrite map_to_list_empty. Qed.

Lemma total_by_insert m (k : string) e :
  m !! k = None → total_by g (<[k := e]> m) = (g e + total_by g m)%num.
Proof.
  intros Hk. unfold total_by, Object_values.
  rewrite (sum_num_perm _ (g <$> ((k, e) :: map_to_list m).*2)); [reflexivity|].
  apply fmap_Permutation, fmap_Permutation. by apply map_to_list_insert.
Qed.

Lemma total_by_lookup m (k : string) e :
  m !! k = Some e → total_by g m = (g e + total_by g (delete k m))%num.
Proof.
  intros Hk. rewrite <- (insert_delete_id m k e Hk) at 1.
  apply total_by_insert, lookup_delete_eq.
Qed.

Lemma total_by_alter m (k : string) (f : UserBalance → UserBalance) e :
  m !! k = Some e →
  total_by g (alter f k m) = (g (f e) + total_by g (delete k m))%num.
Proof.
  intros Hk.
  assert (Ha : alter f k m = <[k := f e]> (delete k m)).
  { apply map_eq. intros j. destruct (decide (k = j)) as [<-|Hne].
    - by rewrite lookup_alter_eq, lookup_insert_eq, Hk.
    - by rewrite lookup_alter_ne, lookup_insert_ne, lookup_delete_ne. }
  rewrite Ha. apply total_by_insert, lookup_delete_eq.
Qed.

Lemma total_by_alter_same m (k : string) (f : UserBalance → UserBalance) :
  (∀ e, g (f e) = g e) → total_by g (alter f k m) = total_by g m.
Proof.
  intros Hf. destruct (m !! k) as [e|] eqn:Hk.
  - by rewrite (total_by_alter m k f e Hk), Hf, <- total_by_lookup.
  - f_equal. apply map_eq. intros j. destruct (decide (k = j)) as [<-|Hne].
    + by rewrite lookup_alter_eq, Hk.
    + by rewrite lookup_alter_ne.
Qed.

Lemma total_by_ensure_entry m (k : string) (fresh : UserBalance) :
  g fresh = zero → total_by g (ensure_entry k fresh m) = total_by g m.
Proof.
  intros Hz. unfold ensure_entry. destruct (m !! k) eqn:Hk; [reflexivity|].
  by rewrite total_by_insert, Hz, add_zero_l.
Qed.

Lemma total_by_fmap m (h : UserBalance → UserBalance) :
  (∀ e, g (h e) = g e) → total_by g (h <$> m) = total_by g m.
Proof.
  intros Hh. unfold total_by. rewrite Object_values_fmap, <- list_fmap_compose.
  f_equal. apply list_fmap_ext. intros _ e _. apply Hh.
Qed.
End ledger_totals.

Section owed_total.
Variable friends : list Friend.t.
Variable userId : string.
Implicit Types (bill : Bill.t jsval) (m : gmap string UserBalance).

Lemma owes_step_total_owed bill m (x : string) :
  total_by owed (owes_step friends userId bill m x) = total_by owed m.
Proof.
  unfold owes_step. case_bool_decide; [reflexivity|].
  destruct (status_flag _ x); [reflexivity|].
  rewrite total_by_alter_same by (by intros []).
  by apply total_by_ensure_entry.
Qed.

Lemma user_unpaid_open bill :
  user_unpaid userId bill = true → isBillCompleted bill = false.
Proof.
  unfold user_unpaid. intros H.
  apply andb_prop in H as [H Hflag]. apply andb_prop in H as [Hin Hpayer].
  apply bool_decide_eq_true_1 in Hin.
  apply negb_true_iff, bool_decide_eq_false_1 in Hpayer.
  apply negb_true_iff in Hflag.
  apply isBillCompleted_false. exists userId. split; [done|]. split; [congruence|done].
Qed.

Lemma bill_step_total_owed bill m :
  total_by owed (bill_step friends userId m bill)
  = if user_unpaid userId bill
    then (total_by owed m + calculateUserShare bill userId)%num
    else total_by owed m.
Proof.
  destruct (user_unpaid userId bill) eqn:Hu.
  - pose proof (user_unpaid_open bill Hu) as Hopen. unfold user_unpaid in Hu.
    apply andb_prop in Hu as [Hu Hflag]. apply andb_prop in Hu as [Hin Hpayer].
    apply bool_decide_eq_true_1 in Hin.
    apply negb_true_iff, bool_decide_eq_false_1 in Hpayer.
    apply negb_true_iff in Hflag.
    unfold bill_step. rewrite Hopen, Hflag.
    rewrite bool_decide_eq_true_2 by done. simpl.
    rewrite bool_decide_eq_false_2 by done.
    set (fresh := newBalance _ _).
    assert (Hsome : ensure_entry (Bill.paidBy bill) fresh m !! Bill.paidBy bill
                    = Some (default fresh (m !! Bill.paidBy bill))).
    { by rewrite ensure_entry_lookup, decide_True. }
    rewrite (total_by_alter owed _ _ _ _ Hsome).
    rewrite <- (total_by_ensure_entry owed m (Bill.paidBy bill) fresh) by reflexivity.
    rewrite (total_by_lookup owed _ _ _ Hsome). simpl.
    by rewrite add_comm, add_assoc, (add_comm (total_by _ _)).
  - unfold bill_step. destruct (isBillCompleted bill); [reflexivity|].
    case_bool_decide as Hin; simpl; [|reflexivity].
    case_bool_decide as Hpayer.
    + clear Hin. generalize m. induction (Bill.splitAmong bill) as [|x l IH]; intros m0;
        [reflexivity|]. cbn [foldl]. by rewrite IH, owes_step_total_owed.
    + unfold user_unpaid in Hu.
      rewrite bool_decide_eq_true_2, bool_decide_eq_false_2 in Hu by done.
      simpl in Hu. apply negb_false_iff in Hu. rewrite Hu. simpl.
      by apply total_by_ensure_entry.
Qed.

Lemma accumulate_total_owed (bills : list (Bill.t jsval)) m :
  total_by owed (foldl (bill_step friends userId) m bills)
  = foldl (λ acc bill, if user_unpaid userId bill
                       then (acc + calculateUserShare bill userId)%num else acc)
      (total_by owed m) bills.
Proof.
  revert m. induction bills as [|b bills IH]; intros m; [reflexivity|].
  cbn [foldl]. by rewrite IH, bill_step_total_owed.
Qed.
End owed_total.

Lemma totals_fold_unpaid (user : useData.User) (bills : list (Bill.t jsval))
    (t : Totals) :
  totalUnpaid (foldl (totals_step (Some user)) t bills)
  = foldl (λ acc bill, if user_unpaid (useData.uid user) bill
                       then (acc + calculateUserShare bill (useData.uid user))%num
                       else acc)
      (totalUnpaid t) bills.
Proof.
  revert t. induction bills as [|b bills IH]; intros t; [reflexivity|].
  cbn [foldl]. by rewrite IH, totals_step_unpaid.
Qed.

(** X3. The "You owe" figure of the dashboard is the sum of the [owed]
    fields of the ledger the friends page shows: both count the user's
    share of exactly the bills that list the user, were paid by somebody
    else and are not confirmed paid by the user. *)
Theorem dashboard_unpaid_is_ledger_owed (bills : list (Bill.t jsval))
    (friends : list Friend.t) (user : useData.User) :
  useData.uid user ≠ "" →
  totalUnpaid (dashboard_totals bills (Some user))
  = total_owed (useBalances bills friends (Some (useData.uid user))).
Proof.
  intros Huid. rewrite useBalances_established by exact Huid.
  unfold total_owed, dashboard_totals.
  rewrite total_by_fmap by (by intros []).
  by rewrite accumulate_total_owed, totals_fold_unpaid, total_by_empty.
Qed.

Lemma dashboard_unpaid_is_ledger_owed_witness :
  totalUnpaid (dashboard_totals
                 [scenario_bill_A; scenario_bill_C; settled_share_bill]
                 (Some (useData.mkUser "U" None)))
  = of_Z 25
  ∧ total_owed (useBalances [scenario_bill_A; scenario_bill_C; settled_share_bill]
                  [] (Some "U"))
    = of_Z 25.
Proof.
  assert (H : totalUnpaid (dashboard_totals
                 [scenario_bill_A; scenario_bill_C; settled_share_bill]
                 (Some (useData.mkUser "U" None))) = of_Z 25) by by_evaluation.
  split; [exact H|].
  rewrite <- (dashboard_unpaid_is_ledger_owed _ [] (useData.mkUser "U" None));
    [exact H | discriminate].
Defined.

(** ** The balance card of the friends page (components/pages/FriendsPage) *)

(** [n < 0] *)
Definition lt_zero (n : num) : bool :=
  match n with
  | Fin q => bool_decide (q < 0)
  | NInf => true
  | PInf | NaN => false
  end.

Module FriendsPage.

(** [balance && (balance.owes > 0 || balance.owed > 0)] *)
Definition hasBalance (balances : gmap string UserBalance) (friend : Friend.t) : bool :=
  match balances !! Friend.id friend with
  | Some balance => gt_zero (owes balance) || gt_zero (owed balance)
  | None => false
  end.

(** [balance?.netBalance ?? 0] *)
Definition netBalance (balances : gmap string UserBalance) (friend : Friend.t) : num :=
  match balances !! Friend.id friend with
  | Some balance => netBalance balance
  | None => zero
  end.

(** [netBalance < 0]: the card reads "You owe" rather than "Owed to you". *)
Definition isUserOws (balances : gmap string UserBalance) (friend : Friend.t) : bool :=
  lt_zero (netBalance balances friend).

End FriendsPage.

#[global] Instance outstanding_stake_dec (uid : string) (bill : Bill.t jsval)
  (f : string) : Decision (outstanding_stake uid bill f).
Proof. unfold outstanding_stake. apply _. Defined.

Lemma stake_or_zero_valued (friends : list Friend.t) (uid : string)
    (bills : list (Bill.t jsval)) (m : gmap string UserBalance) (f : string) :
  zero_valued m f →
  (∃ bill, bill ∈ bills ∧ outstanding_stake uid bill f)
  ∨ zero_valued (foldl (bill_step friends uid) m bills) f.
Proof.
  revert m. induction bills as [|b bills IH]; intros m Hz; [by right|].
  destruct (decide (outstanding_stake uid b f)) as [Hs|Hs].
  { left. exists b. split; [by left | done]. }
  cbn [foldl].
  destruct (IH (bill_step friends uid m b)) as [(b' & Hb' & Hs') | Hz'].
  - by apply bill_step_zero_valued.
  - left. exists b'. split; [by right | done].
  - by right.
Qed.

(** X4. The friends page shows a balance card for a friend only if the
    friend has an outstanding stake toward the user in some bill: the
    zero-valued entry that the ledger keeps for the payer of an open bill
    whose share the user has settled is not shown. *)
Theorem balance_card_needs_stake (bills : list (Bill.t jsval))
    (friends : list Friend.t) (uid : string) (friend : Friend.t) :
  FriendsPage.hasBalance (useBalances bills friends (Some uid)) friend = true →
  ∃ bill, bill ∈ bills ∧ outstanding_stake uid bill (Friend.id friend).
Proof.
  unfold FriendsPage.hasBalance. intros H.
  destruct (decide (uid = "")) as [->|Huid]; [discriminate|].
  rewrite useBalances_established, lookup_fmap in H by exact Huid.
  destruct (stake_or_zero_valued friends uid bills ∅ (Friend.id friend))
    as [Hex | Hz]; [intros e; by rewrite lookup_empty | exact Hex |].
  exfalso.
  destruct (foldl _ _ _ !! Friend.id friend) as [e|] eqn:E; [|discriminate].
  destruct (Hz e E) as [Ho Hd]. simpl in H. rewrite Ho, Hd in H. discriminate.
Qed.

Lemma balance_card_needs_stake_witness :
  FriendsPage.hasBalance (useBalances [settled_share_bill; scenario_bill_C] []
                            (Some "U")) (Friend.mk "F2" "Fay" None) = true
  ∧ FriendsPage.hasBalance (useBalances [settled_share_bill; scenario_bill_C] []
                              (Some "U")) (Friend.mk "F" "Finn" None) = false
  ∧ ∃ bill, bill ∈ [settled_share_bill; scenario_bill_C]
            ∧ outstanding_stake "U" bill "F2".
Proof.
  assert (H : FriendsPage.hasBalance
                (useBalances [settled_share_bill; scenario_bill_C] [] (Some "U"))
                (Friend.mk "F2" "Fay" None) = true) by by_evaluation.
  split; [exact H|]. split; [by_evaluation|].
  exact (balance_card_needs_stake _ _ _ _ H).
Defined.

(** X5. For a friend whose ledger entry holds finite amounts, the card
    reads "You owe" exactly when what the user owes the friend exceeds what
    the friend owes the user. *)
Theorem balance_card_direction (bills : list (Bill.t jsval))
    (friends : list Friend.t) (userId : option string) (friend : Friend.t)
    (e : UserBalance) (a b : Qc) :
  useBalances bills friends userId !! Friend.id friend = Some e →
  owes e = Fin a → owed e = Fin b →
  FriendsPage.isUserOws (useBalances bills friends userId) friend = true ↔ a < b.
Proof.
  intros He Ha Hb. unfold FriendsPage.isUserOws, FriendsPage.netBalance.
  rewrite He.
  assert (Hnet : netBalance e = (owes e - owed e)%num).
  { assert (Hfm : ∃ (acc : gmap string UserBalance),
               useBalances bills friends userId = set_netBalance <$> acc).
    { destruct userId as [[|c s]|]; simpl.
      - exists ∅. by rewrite fmap_empty.
      - by eexists.
      - exists ∅. by rewrite fmap_empty. }
    destruct Hfm as [acc Hacc]. rewrite Hacc, lookup_fmap in He.
    destruct (acc !! Friend.id friend); [|discriminate].
    by injection He as <-. }
  rewrite Hnet, Ha, Hb. simpl. rewrite bool_decide_eq_true.
  rewrite (Qclt_minus_iff (a + - b) 0), (Qclt_minus_iff a b).
  replace (0 + - (a + - b)) with (b + - a) by ring. reflexivity.
Qed.

Lemma balance_card_direction_witness :
  let e := mkUserBalance "F2" "F2" zero (of_Z 25) (of_Z (-25)) in
  useBalances [scenario_bill_C] [] (Some "U") !! "F2" = Some e
  ∧ 0 < Q2Qc 25
  ∧ FriendsPage.isUserOws (useBalances [scenario_bill_C] [] (Some "U"))
      (Friend.mk "F2" "Fay" None) = true.
Proof.
  intros e.
  assert (H : useBalances [scenario_bill_C] [] (Some "U") !! Friend.id (Friend.mk "F2" "Fay" None) = Some e)
    by by_evaluation.
  assert (Hlt : 0 < Q2Qc 25) by by_evaluation.
  split; [exact H|]. split; [exact Hlt|].
  exact (proj2 (balance_card_direction _ _ _ _ e 0 (Q2Qc 25) H eq_refl eq_refl) Hlt).
Defined.

(** ** Invariants of the ledger *)

Section ledger_invariants.
Variable friends : list Friend.t.
Variable userId : string.
Implicit Types (bill : Bill.t jsval) (m : gmap string UserBalance).

(** Every entry sits under its own [friendId]. *)
Definition keyed m : Prop := ∀ k e, m !! k = Some e → friendId e = k.

Lemma keyed_ensure_entry m (k name : string) :
  keyed m → keyed (ensure_entry k (newBalance k name) m).
Proof.
  intros Hm j e. rewrite ensure_entry_lookup. case_decide as Hk; [|apply Hm].
  subst j. intros [= <-]. destruct (m !! k) as [e0|] eqn:E; simpl; [|reflexivity].
  by apply Hm.
Qed.

Lemma keyed_alter m (k : string) (f : UserBalance → UserBalance) :
  (∀ e, friendId (f e) = friendId e) → keyed m → keyed (alter f k m).
Proof.
  intros Hf Hm j e. rewrite lookup_alter. case_decide as Hk; [|apply Hm].
  subst j. destruct (m !! k) as [e0|] eqn:E; [|discriminate].
  intros [= <-]. rewrite Hf. by apply Hm.
Qed.

Lemma keyed_bill_step bill m : keyed m → keyed (bill_step friends userId m bill).
Proof.
  intros Hm. unfold bill_step. destruct (isBillCompleted bill); [exact Hm|].
  destruct (negb _); [exact Hm|]. case_bool_decide.
  - revert m Hm. induction (Bill.splitAmong bill) as [|x l IH]; intros m Hm;
      [exact Hm|]. cbn [foldl]. apply IH. unfold owes_step.
    case_bool_decide; [exact Hm|]. destruct (status_flag _ x); [exact Hm|].
    apply keyed_alter; [by intros [] | by apply keyed_ensure_entry].
  - destruct (negb _).
    + apply keyed_alter; [by intros [] | by apply keyed_ensure_entry].
    + by apply keyed_ensure_entry.
Qed.

Lemma keyed_accumulate (bills : list (Bill.t jsval)) m :
  keyed m → keyed (foldl (bill_step friends userId) m bills).
Proof.
  revert m. induction bills as [|b bills IH]; intros m Hm; [exact Hm|].
  cbn [foldl]. by apply IH, keyed_bill_step.
Qed.

(** Neither accumulator of any entry is negative (or NaN). *)
Definition nonneg_ledger m : Prop :=
  ∀ k e, m !! k = Some e → ge_zero (owes e) = true ∧ ge_zero (owed e) = true.

Lemma ge_zero_add (a b : num) :
  ge_zero a = true → ge_zero b = true → ge_zero (a + b)%num = true.
Proof.
  destruct a as [x| | |], b as [y| | |]; simpl; try done.
  rewrite !bool_decide_eq_true. intros Hx Hy.
  replace 0 with (0 + 0) by ring. by apply Qcplus_le_compat.
Qed.

Lemma nonneg_ensure_entry m (k name : string) :
  nonneg_ledger m → nonneg_ledger (ensure_entry k (newBalance k name) m).
Proof.
  intros Hm j e. rewrite ensure_entry_lookup. case_decide as Hk; [|apply Hm].
  subst j. intros [= <-]. destruct (m !! k) as [e0|] eqn:E; simpl.
  - by apply (Hm k).
  - split; by_evaluation.
Qed.

Lemma nonneg_alter m (k : string) (f : UserBalance → UserBalance) :
  (∀ e, ge_zero (owes e) = true ∧ ge_zero (owed e) = true →
        ge_zero (owes (f e)) = true ∧ ge_zero (owed (f e)) = true) →
  nonneg_ledger m → nonneg_ledger (alter f k m).
Proof.
  intros Hf Hm j e. rewrite lookup_alter. case_decide as Hk; [|apply Hm].
  subst j. destruct (m !! k) as [e0|] eqn:E; [|discriminate].
  intros [= <-]. apply Hf. by apply (Hm k).
Qed.

Lemma nonneg_bill_step bill m :
  coerced_nonneg bill → nonneg_ledger m →
  nonneg_ledger (bill_step friends userId m bill).
Proof.
  intros Hb Hm. unfold bill_step. destruct (isBillCompleted bill); [exact Hm|].
  destruct (negb _); [exact Hm|]. case_bool_decide.
  - revert m Hm. induction (Bill.splitAmong bill) as [|x l IH]; intros m Hm;
      [exact Hm|]. cbn [foldl]. apply IH. unfold owes_step.
    case_bool_decide; [exact Hm|]. destruct (status_flag _ x); [exact Hm|].
    apply nonneg_alter; [|by apply nonneg_ensure_entry].
    intros [] [Ho Hd]; simpl in *. split; [|exact Hd].
    apply ge_zero_add; [exact Ho | by apply calculateUserShare_nonneg].
  - destruct (negb _); [|by apply nonneg_ensure_entry].
    apply nonneg_alter; [|by apply nonneg_ensure_entry].
    intros [] [Ho Hd]; simpl in *. split; [exact Ho|].
    apply ge_zero_add; [exact Hd | by apply calculateUserShare_nonneg].
Qed.

Lemma nonneg_accumulate (bills : list (Bill.t jsval)) m :
  (∀ bill, bill ∈ bills → coerced_nonneg bill) → nonneg_ledger m →
  nonneg_ledger (foldl (bill_step friends userId) m bills).
Proof.
  revert m. induction bills as [|b bills IH]; intros m Hb Hm; [exact Hm|].
  cbn [foldl]. apply IH.
  - intros b' Hb'. apply Hb. by right.
  - apply nonneg_bill_step; [apply Hb; by left | exact Hm].
Qed.
End ledger_invariants.

(** X6. Every entry of the ledger sits under the id it carries in
    [friendId], and the user never has an entry of their own. *)
Theorem ledger_keys (bills : list (Bill.t jsval)) (friends : list Friend.t)
    (userId : option string) (k : string) (e : UserBalance) :
  useBalances bills friends userId !! k = Some e →
  friendId e = k ∧ userId ≠ Some k.
Proof.
  destruct userId as [uid|]; [|simpl; by rewrite lookup_empty].
  destruct (decide (uid = "")) as [->|Huid]; [simpl; by rewrite lookup_empty|].
  rewrite useBalances_established, lookup_fmap by exact Huid.
  destruct (foldl _ _ _ !! k) as [e0|] eqn:E; [|discriminate].
  intros [= <-]. split.
  - simpl. apply (keyed_accumulate friends uid bills ∅); [|exact E].
    intros j e'. by rewrite lookup_empty.
  - intros [= ->].
    assert (Hs : is_Some (foldl (bill_step friends k) ∅ bills !! k)) by by eexists.
    apply accumulate_is_Some in Hs as [Hs | (b & _ & _ & _ & Hne & _)].
    + rewrite lookup_empty in Hs. by destruct Hs.
    + done.
Qed.

Lemma ledger_keys_witness :
  let e := mkUserBalance "F2" "F2" zero (of_Z 25) (of_Z (-25)) in
  useBalances [scenario_bill_C] [] (Some "U") !! "F2" = Some e
  ∧ friendId e = "F2" ∧ Some "U" ≠ Some "F2".
Proof.
  intros e.
  assert (H : useBalances [scenario_bill_C] [] (Some "U") !! "F2" = Some e)
    by by_evaluation.
  split; [exact H|]. exact (ledger_keys _ _ _ _ _ H).
Defined.

(** X7. When, for every bill, the coerced amount is not negative (equal
    split), or the coerced percentages and item amounts are finite and
    not negative (custom split), no entry of the ledger has a negative
    [owes] or [owed].  The arithmetic is exact: sums and products of
    finite numbers do not overflow. *)
Theorem ledger_nonneg (bills : list (Bill.t jsval)) (friends : list Friend.t)
    (userId : option string) (k : string) (e : UserBalance) :
  (∀ bill, bill ∈ bills → coerced_nonneg bill) →
  useBalances bills friends userId !! k = Some e →
  ge_zero (owes e) = true ∧ ge_zero (owed e) = true.
Proof.
  intros Hb.
  destruct userId as [uid|]; [|simpl; by rewrite lookup_empty].
  destruct (decide (uid = "")) as [->|Huid]; [simpl; by rewrite lookup_empty|].
  rewrite useBalances_established, lookup_fmap by exact Huid.
  destruct (foldl _ _ _ !! k) as [e0|] eqn:E; [|discriminate].
  intros [= <-]. simpl.
  apply (nonneg_accumulate friends uid bills ∅ Hb) with (k := k); [|exact E].
  intros j e'. by rewrite lookup_empty.
Qed.

Lemma ledger_nonneg_witness :
  let e := mkUserBalance "F1" "Unknown Friend" (of_Z 30) zero (of_Z 30) in
  (∀ bill, bill ∈ [scenario_bill_A] → coerced_nonneg bill)
  ∧ useBalances [scenario_bill_A] [] (Some "U") !! "F1" = Some e
  ∧ ge_zero (owes e) = true ∧ ge_zero (owed e) = true.
Proof.
  intros e.
  assert (Hb : ∀ bill, bill ∈ [scenario_bill_A] → coerced_nonneg bill).
  { intros b Hb. apply list_elem_of_singleton in Hb as ->.
    unfold coerced_nonneg. simpl. by_evaluation. }
  assert (H : useBalances [scenario_bill_A] [] (Some "U") !! "F1" = Some e)
    by by_evaluation.
  split; [exact Hb|]. split; [exact H|].
  exact (ledger_nonneg _ _ _ _ _ Hb H).
Defined.

(** ** The payment state machine of the bill detail page *)

Inductive Action : Type := MarkPaid | UnmarkPending | ConfirmPaid | UnmarkPaid.

#[global] Instance Action_eq_dec : EqDecision Action.
Proof. solve_decision. Defined.

(** What the page shows for a participant: paid takes precedence over
    pending. *)
Inductive PayState : Type := Unpaid | Pending | Paid.

#[global] Instance PayState_eq_dec : EqDecision PayState.
Proof. solve_decision. Defined.

Definition pay_state {V} (bill : Bill.t V) (personId : string) : PayState :=
  if status_flag (Bill.paidStatus bill) personId then Paid
  else if status_flag (Bill.pendingStatus bill) personId then Pending
  else Unpaid.

(** The buttons rendered in the row of [personId] for the signed-in
    viewer (the guards of the JSX of the participant list; [updating] is
    false). *)
Definition offered {V} (authenticatedUser : option useData.User)
    (bill : Bill.t V) (personId : string) : list Action :=
  let viewer_is (x : string) : bool :=
    bool_decide (useData.uid <$> authenticatedUser = Some x) in
  let isPaid := status_flag (Bill.paidStatus bill) personId in
  let isPending := status_flag (Bill.pendingStatus bill) personId in
  if bool_decide (personId ≠ Bill.paidBy bill) then
    (if isPaid && viewer_is (Bill.paidBy bill) then [UnmarkPaid] else [])
    ++ (if isPending && negb isPaid then
          (if viewer_is personId then [UnmarkPending] else [])
          ++ (if viewer_is (Bill.paidBy bill) then [UnmarkPending] else [])
        else [])
    ++ (if viewer_is personId && negb isPaid && negb isPending
        then [MarkPaid] else [])
    ++ (if viewer_is (Bill.paidBy bill) && isPending && negb isPaid
        then [ConfirmPaid] else [])
  else [].

Definition handler {V} (a : Action) : Bill.t V → string → list UpdateCall :=
  match a with
  | MarkPaid => BillDetailPage.handleMarkPaid
  | UnmarkPending => BillDetailPage.handleUnmarkPending
  | ConfirmPaid => BillDetailPage.handleConfirmPaid
  | UnmarkPaid => BillDetailPage.handleUnmarkPaid
  end.

(** The bill once the updates of a handler have reached the store (no
    other write in between). *)
Definition perform {V} (a : Action) (bill : Bill.t V) (personId : string) : Bill.t V :=
  foldl (λ b c, apply_patch (call_updates c) b) bill (handler a bill personId).

Section transitions.
Context {V : Type}.
Implicit Types (bill : Bill.t V) (p q : string).

Lemma status_flag_insert (st : option (gmap string bool)) (p q : string) (v : bool) :
  status_flag (Some (<[p := v]> (default ∅ st))) q
  = if decide (p = q) then v else status_flag st q.
Proof.
  unfold status_flag; simpl. case_decide as Hpq.
  - subst q. by rewrite lookup_insert_eq.
  - rewrite lookup_insert_ne by done. by rewrite default_empty_lookup.
Qed.

Lemma perform_paid a bill p q :
  status_flag (Bill.paidStatus (perform a bill p)) q
  = match a with
    | ConfirmPaid => if decide (p = q) then true else status_flag (Bill.paidStatus bill) q
    | UnmarkPaid => if decide (p = q) then false else status_flag (Bill.paidStatus bill) q
    | MarkPaid | UnmarkPending => status_flag (Bill.paidStatus bill) q
    end.
Proof. destruct a; try reflexivity; apply status_flag_insert. Qed.

Lemma perform_pending a bill p q :
  status_flag (Bill.pendingStatus (perform a bill p)) q
  = match a with
    | MarkPaid => if decide (p = q) then true else status_flag (Bill.pendingStatus bill) q
    | UnmarkPending | ConfirmPaid =>
        if decide (p = q) then false else status_flag (Bill.pendingStatus bill) q
    | UnmarkPaid => status_flag (Bill.pendingStatus bill) q
    end.
Proof. destruct a; try reflexivity; apply status_flag_insert. Qed.

Lemma perform_other a bill p q :
  p ≠ q → pay_state (perform a bill p) q = pay_state bill q.
Proof.
  intros Hpq. unfold pay_state. rewrite perform_paid, perform_pending.
  destruct a; by rewrite ?decide_False by done.
Qed.

Lemma perform_self a bill p :
  pay_state (perform a bill p) p
  = match a with
    | MarkPaid => if status_flag (Bill.paidStatus bill) p then Paid else Pending
    | UnmarkPending => if status_flag (Bill.paidStatus bill) p then Paid else Unpaid
    | ConfirmPaid => Paid
    | UnmarkPaid => if status_flag (Bill.pendingStatus bill) p then Pending else Unpaid
    end.
Proof.
  unfold pay_state. rewrite perform_paid, perform_pending.
  destruct a; by rewrite ?decide_True by done.
Qed.

Lemma offered_spec (viewer : option useData.User) a bill p :
  a ∈ offered viewer bill p →
  p ≠ Bill.paidBy bill
  ∧ match a with
    | MarkPaid =>
        pay_state bill p = Unpaid ∧ useData.uid <$> viewer = Some p
    | UnmarkPending =>
        pay_state bill p = Pending
        ∧ (useData.uid <$> viewer = Some p
           ∨ useData.uid <$> viewer = Some (Bill.paidBy bill))
    | ConfirmPaid =>
        pay_state bill p = Pending
        ∧ useData.uid <$> viewer = Some (Bill.paidBy bill)
    | UnmarkPaid =>
        pay_state bill p = Paid
        ∧ useData.uid <$> viewer = Some (Bill.paidBy bill)
    end.
Proof.
  unfold offered, pay_state.
  case_bool_decide as Hp; [|by intros ?%elem_of_nil].
  intros Hin. split; [exact Hp|].
  destruct (status_flag (Bill.paidStatus bill) p),
           (status_flag (Bill.pendingStatus bill) p);
    destruct (bool_decide_reflect (useData.uid <$> viewer = Some p)) as [Hv1|Hv1];
    destruct (bool_decide_reflect (useData.uid <$> viewer = Some (Bill.paidBy bill)))
      as [Hv2|Hv2];
    simpl in Hin; rewrite ?elem_of_cons, ?elem_of_nil in Hin;
    destruct a; intuition discriminate.
Qed.
End transitions.

(** A bill whose participant F1 has reported a payment that the payer U
    has not confirmed yet. *)
Definition pending_bill : Bill.t jsval :=
  Bill.set_pendingStatus
    (Some (list_to_map [("U", false); ("F1", true); ("F2", false)]))
    scenario_bill_A.

(** X8. Every button the page offers follows the state machine
    unpaid -> pending -> paid: reporting a payment is offered to the
    participant alone and only when unpaid; withdrawing it to the
    participant or the payer when pending; confirming to the payer alone
    and only when pending, so no button takes a share from unpaid to paid
    directly; undoing a confirmation to the payer alone.  The payer's own
    row offers nothing, and a button changes the state of nobody else. *)
Theorem offered_actions_follow_state_machine {V} (viewer : option useData.User)
    (a : Action) (bill : Bill.t V) (p : string) :
  a ∈ offered viewer bill p →
  p ≠ Bill.paidBy bill
  ∧ (∀ q, q ≠ p → pay_state (perform a bill p) q = pay_state bill q)
  ∧ match a with
    | MarkPaid =>
        useData.uid <$> viewer = Some p
        ∧ pay_state bill p = Unpaid ∧ pay_state (perform a bill p) p = Pending
    | UnmarkPending =>
        (useData.uid <$> viewer = Some p
         ∨ useData.uid <$> viewer = Some (Bill.paidBy bill))
        ∧ pay_state bill p = Pending ∧ pay_state (perform a bill p) p = Unpaid
    | ConfirmPaid =>
        useData.uid <$> viewer = Some (Bill.paidBy bill)
        ∧ pay_state bill p = Pending ∧ pay_state (perform a bill p) p = Paid
    | UnmarkPaid =>
        useData.uid <$> viewer = Some (Bill.paidBy bill)
        ∧ pay_state bill p = Paid ∧ pay_state (perform a bill p) p ≠ Paid
    end.
Proof.
  intros Ha. destruct (offered_spec viewer a bill p Ha) as [Hp Hst].
  split; [exact Hp|]. split.
  { intros q Hq. by apply perform_other. }
  rewrite perform_self. unfold pay_state in *.
  destruct a; destruct Hst as [Hs Hv]; (split; [exact Hv|]); (split; [exact Hs|]);
    destruct (status_flag (Bill.paidStatus bill) p),
             (status_flag (Bill.pendingStatus bill) p); done.
Qed.

Lemma offered_actions_follow_state_machine_witness :
  let payer := Some (useData.mkUser "U" None) in
  ConfirmPaid ∈ offered payer pending_bill "F1"
  ∧ pay_state pending_bill "F1" = Pending
  ∧ pay_state (perform ConfirmPaid pending_bill "F1") "F1" = Paid
  ∧ offered payer scenario_bill_A "F1" = [].
Proof.
  intros payer.
  assert (H : ConfirmPaid ∈ offered payer pending_bill "F1") by by_evaluation.
  split; [exact H|].
  destruct (offered_actions_follow_state_machine payer ConfirmPaid
              pending_bill "F1" H) as (_ & _ & _ & Hs & Hs').
  split; [exact Hs|]. split; [exact Hs'|]. reflexivity.
Defined.

(** *** What the buttons can reach from a created bill *)

(** The bills reachable from [b0] by pressing offered buttons, whoever is
    signed in at each step, when every press is made on a page that shows
    the bill as it is stored at that moment.  The code does not enforce
    this: presses from a page that is out of date are [written], below. *)
Inductive reachable {V} (b0 : Bill.t V) : Bill.t V → Prop :=
  | reach_start : reachable b0 b0
  | reach_step (b : Bill.t V) (viewer : option useData.User) (p : string)
      (a : Action) :
      reachable b0 b → p ∈ Bill.splitAmong b → a ∈ offered viewer b p →
      reachable b0 (perform a b p).

(** No participant is shown as paid while a report of theirs is pending. *)
Definition never_both {V} (bill : Bill.t V) : Prop :=
  ∀ q, ¬ (status_flag (Bill.paidStatus bill) q = true
          ∧ status_flag (Bill.pendingStatus bill) q = true).

Lemma perform_frame (a : Action) (bill : Bill.t jsval) (p : string) :
  Bill.paidBy (perform a bill p) = Bill.paidBy bill
  ∧ Bill.splitAmong (perform a bill p) = Bill.splitAmong bill
  ∧ (∀ q, calculateUserShare (perform a bill p) q = calculateUserShare bill q).
Proof. by destruct a. Qed.

Lemma never_both_step {V} (viewer : option useData.User) (a : Action)
    (bill : Bill.t V) (p : string) :
  a ∈ offered viewer bill p → never_both bill → never_both (perform a bill p).
Proof.
  intros Ha Hnb q. rewrite perform_paid, perform_pending.
  destruct (offered_spec viewer a bill p Ha) as [_ Hst].
  specialize (Hnb q). unfold pay_state in Hst.
  destruct (decide (p = q)) as [<-|Hq].
  2: { destruct a; rewrite ?decide_False by done; exact Hnb. }
  destruct a; rewrite ?decide_True by done; destruct Hst as [Hs _];
    destruct (status_flag (Bill.paidStatus bill) p),
             (status_flag (Bill.pendingStatus bill) p);
    try discriminate Hs; intros [H1 H2]; discriminate.
Qed.

Lemma created_bill_flags (u : useData.User) (db : useData.Firestore)
    (billData : useData.BillData) (b0 : Bill.t jsval) :
  useData.createBill (Some u) db billData = useData.Resolved b0 →
  (∀ q, status_flag (Bill.pendingStatus b0) q = false)
  ∧ (Bill.paidBy b0 ∈ Bill.splitAmong b0 →
     status_flag (Bill.paidStatus b0) (Bill.paidBy b0) = true).
Proof.
  intros H. apply createBill_written in H as (Hps & Hpe & Hpayer & Hsplit).
  rewrite Hps, Hpe, Hpayer, Hsplit. unfold status_flag, useData.initial_status.
  simpl. split.
  - intros q.
    destruct (initial_status_fold (useData.paidBy billData)
                (useData.splitAmong billData) (∅, ∅) q) as [_ ->].
    case_decide; simpl; [reflexivity | by rewrite lookup_empty].
  - intros Hin.
    destruct (initial_status_fold (useData.paidBy billData)
                (useData.splitAmong billData) (∅, ∅) (useData.paidBy billData))
      as [-> _].
    rewrite decide_True by exact Hin. simpl. by rewrite bool_decide_eq_true_2.
Qed.

(** *** How the transitions show in the ledger *)

Lemma bill_step_pending_free (friends : list Friend.t) (userId : string)
    (m : gmap string UserBalance) (bill : Bill.t jsval)
    (pending : option (gmap string bool)) :
  bill_step friends userId m (Bill.set_pendingStatus pending bill)
  = bill_step friends userId m bill.
Proof. reflexivity. Qed.

Lemma useBalances_replace_bill (friends : list Friend.t)
    (userId : option string) (before after : list (Bill.t jsval))
    (bill bill' : Bill.t jsval) :
  (∀ uid m, bill_step friends uid m bill' = bill_step friends uid m bill) →
  useBalances (before ++ bill' :: after) friends userId
  = useBalances (before ++ bill :: after) friends userId.
Proof.
  intros H. destruct userId as [[|c s]|]; try reflexivity.
  unfold useBalances, accumulate. rewrite !foldl_app. cbn [foldl]. by rewrite H.
Qed.

(** X10. Reporting a payment, or withdrawing the report, changes neither
    the completion of the bill nor anybody's ledger: until the payer
    confirms, the share still counts as owed. *)
Theorem pending_moves_leave_ledger (friends : list Friend.t)
    (userId : option string) (before after : list (Bill.t jsval))
    (bill : Bill.t jsval) (p : string) :
  (isBillCompleted (perform MarkPaid bill p) = isBillCompleted bill
   ∧ useBalances (before ++ perform MarkPaid bill p :: after) friends userId
     = useBalances (before ++ bill :: after) friends userId)
  ∧ (isBillCompleted (perform UnmarkPending bill p) = isBillCompleted bill
     ∧ useBalances (before ++ perform UnmarkPending bill p :: after) friends userId
       = useBalances (before ++ bill :: after) friends userId).
Proof.
  split; (split; [reflexivity|]); apply useBalances_replace_bill;
    intros uid m; apply bill_step_pending_free.
Qed.

(** The bill after the payer has confirmed every other participant, one
    after the other, each confirmation pressed on the bill as it stands
    after the previous one. *)
Definition confirm_all {V} (bill : Bill.t V) : Bill.t V :=
  foldl (λ b q, perform ConfirmPaid b q) bill
        (filter (λ id, id ≠ Bill.paidBy bill) (Bill.splitAmong bill)).

Lemma confirm_fold {V} (l : list string) (bill : Bill.t V) :
  let bill' := foldl (λ b q, perform ConfirmPaid b q) bill l in
  Bill.paidBy bill' = Bill.paidBy bill
  ∧ Bill.splitAmong bill' = Bill.splitAmong bill
  ∧ ∀ q, status_flag (Bill.paidStatus bill') q
         = if decide (q ∈ l) then true else status_flag (Bill.paidStatus bill) q.
Proof.
  revert bill. induction l as [|x l IH]; intros bill; cbn [foldl].
  { repeat split. }
  destruct (IH (perform ConfirmPaid bill x)) as (H1 & H2 & H3).
  cbv zeta. rewrite H1, H2. repeat split. intros q. rewrite H3, perform_paid.
  destruct (decide (q ∈ l)) as [Hl|Hl].
  - rewrite decide_True; [reflexivity | by right].
  - destruct (decide (x = q)) as [->|Hx].
    + rewrite decide_True; [reflexivity | by left].
    + rewrite decide_False; [reflexivity|].
      intros [?|?]%elem_of_cons; [congruence | done].
Qed.

(** X12. A confirmed share no longer counts.  In a bill somebody else
    paid, once the user's payment is confirmed the bill adds nothing to
    what the user owes the payer; in a bill the user paid, once the
    payment of [p] is confirmed the bill leaves the entry of [p] alone. *)
Theorem confirmed_share_drops_out (friends : list Friend.t) (userId : string)
    (bill : Bill.t jsval) (m : gmap string UserBalance) :
  (Bill.paidBy bill ≠ userId →
     owed_of (bill_step friends userId m (perform ConfirmPaid bill userId))
       (Bill.paidBy bill)
     = owed_of m (Bill.paidBy bill))
  ∧ (∀ p, Bill.paidBy bill = userId → p ≠ userId →
       bill_step friends userId m (perform ConfirmPaid bill p) !! p = m !! p).
Proof.
  split.
  - intros Hpayer. set (bill' := perform ConfirmPaid bill userId).
    assert (Hflag : status_flag (Bill.paidStatus bill') userId = true).
    { unfold bill'. rewrite perform_paid. by rewrite decide_True. }
    destruct (isBillCompleted bill') eqn:Hopen.
    { by rewrite bill_step_skipped by (by left). }
    destruct (decide (userId ∈ Bill.splitAmong bill')) as [Hin|Hin].
    2: { by rewrite bill_step_skipped by (by right). }
    unfold owed_of.
    rewrite (bill_step_participant friends userId bill' m (Bill.paidBy bill))
      by done.
    rewrite decide_True by reflexivity. cbv zeta. rewrite Hflag.
    by destruct (m !! Bill.paidBy bill).
  - intros p Hpayer Hne. set (bill' := perform ConfirmPaid bill p).
    assert (Hflag : status_flag (Bill.paidStatus bill') p = true).
    { unfold bill'. rewrite perform_paid. by rewrite decide_True. }
    destruct (isBillCompleted bill') eqn:Hopen.
    { by rewrite bill_step_skipped by (by left). }
    destruct (decide (userId ∈ Bill.splitAmong bill')) as [Hin|Hin].
    2: { by rewrite bill_step_skipped by (by right). }
    rewrite bill_step_payer by done.
    apply owes_fold_unchanged. by right; right.
Qed.

Lemma confirmed_share_drops_out_witness :
  owed_of (useBalances [scenario_bill_C] [] (Some "U")) "F2" = of_Z 25
  ∧ owed_of (bill_step [] "U" ∅ (perform ConfirmPaid scenario_bill_C "U")) "F2"
    = zero.
Proof.
  split; [by_evaluation|].
  destruct (confirmed_share_drops_out [] "U" scenario_bill_C ∅) as [H _].
  change (Bill.paidBy scenario_bill_C) with "F2" in H.
  rewrite H by discriminate. reflexivity.
Defined.

(** X13. Undoing the confirmation of a participant other than the payer
    reopens the bill; and in the ledger of a payer who takes part in the
    bill, that participant owes their share again. *)
Theorem unmark_paid_reopens (friends : list Friend.t) (bill : Bill.t jsval)
    (m : gmap string UserBalance) (p : string) :
  p ∈ Bill.splitAmong bill → p ≠ Bill.paidBy bill →
  let bill' := perform UnmarkPaid bill p in
  isBillCompleted bill' = false
  ∧ (Bill.paidBy bill ∈ Bill.splitAmong bill → NoDup (Bill.splitAmong bill) →
     bill_step friends (Bill.paidBy bill) m bill' !! p
     = Some (add_owes (calculateUserShare bill p)
               (default (fresh_debtor friends p) (m !! p)))).
Proof.
  intros Hp Hne bill'.
  assert (Hflag : status_flag (Bill.paidStatus bill') p = false).
  { unfold bill'. rewrite perform_paid. by rewrite decide_True. }
  assert (Hopen : isBillCompleted bill' = false).
  { apply isBillCompleted_false. by exists p. }
  split; [exact Hopen|]. intros Hin Hnd.
  rewrite bill_step_payer by done.
  by apply (owes_fold_owing friends (Bill.paidBy bill) bill').
Qed.

(** The bill of scenario 1 once F1 has paid and been confirmed. *)
Definition settled_bill_A : Bill.t jsval :=
  perform ConfirmPaid scenario_bill_A "F1".

Lemma unmark_paid_reopens_witness :
  isBillCompleted settled_bill_A = true
  ∧ isBillCompleted (perform UnmarkPaid settled_bill_A "F1") = false
  ∧ owes <$> bill_step [] "U" ∅ (perform UnmarkPaid settled_bill_A "F1") !! "F1"
    = Some (of_Z 30).
Proof.
  split; [reflexivity|].
  destruct (unmark_paid_reopens [] settled_bill_A ∅ "F1"
              ltac:(by_evaluation) ltac:(discriminate)) as [Hopen Howes].
  split; [exact Hopen|].
  change (Bill.paidBy settled_bill_A) with "U" in Howes.
  rewrite Howes; by_evaluation.
Defined.

(** ** The form that creates a bill (components/pages/AddBillPage) *)

From Stdlib Require Import Qround.

(** [Math.round]: the nearest integer, halves upwards. *)
Definition Math_round (n : num) : num :=
  match n with
  | Fin q => Fin (Q2Qc (inject_Z (Qfloor (this q + (1 # 2)))))
  | PInf => PInf
  | NInf => NInf
  | NaN => NaN
  end.

(** Truthiness of a number: neither [0] nor [NaN]. *)
Definition truthy (n : num) : bool :=
  match n with
  | Fin q => negb (bool_decide (q = 0))
  | PInf | NInf => true
  | NaN => false
  end.

Module AddBillPage.

Record FormData : Type := mkFormData {
  description : string;
  amount : string;
  paidBy : string;
  splitAmong : list string;
  taxValue : string;
  tipsValue : string;
  itemizedAmounts : gmap string num;
}.

(** The state of the component besides the form. *)
Record Settings : Type := mkSettings {
  splitType : SplitType;
  taxIsPercent : bool;
  tipsIsPercent : bool;
}.

Definition initial_formData : FormData :=
  mkFormData "" "" "" [] "" "" ∅.

Definition toggleFriend (id : string) (prev : FormData) : FormData :=
  mkFormData (description prev) (amount prev) (paidBy prev)
    (if bool_decide (id ∈ splitAmong prev)
     then filter (λ fid, fid ≠ id) (splitAmong prev)
     else splitAmong prev ++ [id])
    (taxValue prev) (tipsValue prev) (itemizedAmounts prev).

Definition handleItemAmountChange (userId : string) (amount' : string)
    (prev : FormData) : FormData :=
  mkFormData (description prev) (amount prev) (paidBy prev) (splitAmong prev)
    (taxValue prev) (tipsValue prev)
    (<[userId := match amount' with
                 | EmptyString => zero
                 | _ => parseFloat (JString amount')
                 end]> (itemizedAmounts prev)).

(** The bill data [handleFinish] hands to [onCreateBill]. *)
Definition handleFinish (st : Settings) (formData : FormData) : useData.BillData :=
  let base := num_or_zero (Some (parseFloat (JString (amount formData)))) in
  let taxRaw := num_or_zero (Some (parseFloat (JString (taxValue formData)))) in
  let tipsRaw := num_or_zero (Some (parseFloat (JString (tipsValue formData)))) in
  let taxPercent :=
    if taxIsPercent st then taxRaw
    else if gt_zero base then ((taxRaw / base) * of_Z 100)%num else zero in
  let tipsPercent :=
    if tipsIsPercent st then tipsRaw
    else if gt_zero base then ((tipsRaw / base) * of_Z 100)%num else zero in
  useData.mkBillData (description formData)
    (JNumber (parseFloat (JString (amount formData))))
    (paidBy formData) (splitAmong formData) (splitType st) None
    (match splitType st with
     | custom => Some (JNumber <$> itemizedAmounts formData)
     | equal => None
     end)
    (if truthy taxRaw
     then Some (JNumber (Math_round (taxPercent * of_Z 100) / of_Z 100)%num)
     else None)
    (if truthy tipsRaw
     then Some (JNumber (Math_round (tipsPercent * of_Z 100) / of_Z 100)%num)
     else None).

(** The forms the user can arrive at: every [setFormData] of the page. *)
Inductive reachable_form : FormData → Prop :=
  | form_initial : reachable_form initial_formData
  | form_toggle id f : reachable_form f → reachable_form (toggleFriend id f)
  | form_item userId a f :
      reachable_form f → reachable_form (handleItemAmountChange userId a f)
  | form_description d f :
      reachable_form f →
      reachable_form (mkFormData d (amount f) (paidBy f) (splitAmong f)
                        (taxValue f) (tipsValue f) (itemizedAmounts f))
  | form_amount a f :
      reachable_form f →
      reachable_form (mkFormData (description f) a (paidBy f) (splitAmong f)
                        (taxValue f) (tipsValue f) (itemizedAmounts f))
  | form_paidBy p f :
      reachable_form f →
      reachable_form (mkFormData (description f) (amount f) p (splitAmong f)
                        (taxValue f) (tipsValue f) (itemizedAmounts f))
  | form_taxValue v f :
      reachable_form f →
      reachable_form (mkFormData (description f) (amount f) (paidBy f)
                        (splitAmong f) v (tipsValue f) (itemizedAmounts f))
  | form_tipsValue v f :
      reachable_form f →
      reachable_form (mkFormData (description f) (amount f) (paidBy f)
                        (splitAmong f) (taxValue f) v (itemizedAmounts f)).

End AddBillPage.

Section form_facts.
Import AddBillPage.

Lemma toggleFriend_NoDup (id : string) (f : FormData) :
  NoDup (splitAmong f) → NoDup (splitAmong (toggleFriend id f)).
Proof.
  intros Hnd. unfold toggleFriend; simpl. case_bool_decide as Hin.
  - by apply NoDup_filter.
  - apply NoDup_app. split; [exact Hnd|]. split; [|apply NoDup_singleton].
    intros x Hx Hx'. apply list_elem_of_singleton in Hx' as ->. done.
Qed.

Lemma reachable_form_NoDup (f : FormData) :
  reachable_form f → NoDup (splitAmong f).
Proof.
  induction 1; simpl; try done.
  - apply NoDup_nil_2.
  - by apply toggleFriend_NoDup.
Qed.
End form_facts.

(** X14. Selecting a person toggles exactly their membership of the
    participants and keeps the list free of duplicates; selecting twice a
    person who was not selected restores the list. *)
Theorem toggleFriend_spec (id : string) (f : AddBillPage.FormData) :
  let f' := AddBillPage.toggleFriend id f in
  (id ∈ AddBillPage.splitAmong f' ↔ id ∉ AddBillPage.splitAmong f)
  ∧ (∀ j, j ≠ id →
       (j ∈ AddBillPage.splitAmong f' ↔ j ∈ AddBillPage.splitAmong f))
  ∧ (NoDup (AddBillPage.splitAmong f) → NoDup (AddBillPage.splitAmong f'))
  ∧ (id ∉ AddBillPage.splitAmong f →
     AddBillPage.splitAmong (AddBillPage.toggleFriend id f')
     = AddBillPage.splitAmong f).
Proof.
  intros f'. split; [|split; [|split]].
  - subst f'. unfold AddBillPage.toggleFriend; simpl. case_bool_decide as Hin.
    + rewrite list_elem_of_filter. split; [by intros [? _] | done].
    + rewrite elem_of_app, list_elem_of_singleton. split; [done | by right].
  - intros j Hj. subst f'. unfold AddBillPage.toggleFriend; simpl.
    case_bool_decide as Hin.
    + rewrite list_elem_of_filter. split; [by intros [_ ?] | done].
    + rewrite elem_of_app, list_elem_of_singleton.
      split; [by intros [?|?] | by left].
  - apply toggleFriend_NoDup.
  - intros Hin. subst f'. unfold AddBillPage.toggleFriend; simpl.
    rewrite (bool_decide_eq_false_2 _ Hin).
    rewrite bool_decide_eq_true_2
      by (rewrite elem_of_app, list_elem_of_singleton; by right).
    rewrite filter_app, filter_cons_False, filter_nil, app_nil_r by (by intros ?).
    clear -Hin. induction (AddBillPage.splitAmong f) as [|x l IH]; [reflexivity|].
    rewrite filter_cons_True.
    + f_equal. apply IH. intros ?. apply Hin. by right.
    + intros ->. apply Hin. by left.
Qed.

Lemma toggleFriend_spec_witness :
  let f := AddBillPage.toggleFriend "F1"
             (AddBillPage.toggleFriend "U" AddBillPage.initial_formData) in
  AddBillPage.splitAmong f = ["U"; "F1"]
  ∧ AddBillPage.splitAmong (AddBillPage.toggleFriend "U" f) = ["F1"]
  ∧ NoDup (AddBillPage.splitAmong (AddBillPage.toggleFriend "U" f)).
Proof.
  intros f. split; [reflexivity|]. split; [reflexivity|].
  destruct (toggleFriend_spec "U" f) as (_ & _ & Hnd & _).
  apply Hnd. by_evaluation.
Defined.

(** X15. A bill created through the form lists nobody twice, whatever
    was typed and clicked before: so each participant is charged their
    share the one time the balance hook promises for duplicate-free
    bills. *)
Theorem form_bill_lists_nobody_twice (f : AddBillPage.FormData)
    (st : AddBillPage.Settings) (user : option useData.User)
    (db : useData.Firestore) (bill : Bill.t jsval) :
  AddBillPage.reachable_form f →
  useData.createBill user db (AddBillPage.handleFinish st f)
  = useData.Resolved bill →
  NoDup (Bill.splitAmong bill)
  ∧ Bill.splitAmong bill = AddBillPage.splitAmong f
  ∧ Bill.paidBy bill = AddBillPage.paidBy f.
Proof.
  intros Hr Hc. destruct user as [u|]; [|discriminate].
  apply createBill_written in Hc as (_ & _ & Hp & Hs).
  rewrite Hs, Hp. simpl. split; [|done]. by apply reachable_form_NoDup.
Qed.

Lemma form_bill_lists_nobody_twice_witness :
  let f := AddBillPage.toggleFriend "F1"
             (AddBillPage.toggleFriend "U" AddBillPage.initial_formData) in
  ∃ bill,
    useData.createBill (Some (useData.mkUser "U" None)) scenario_db
      (AddBillPage.handleFinish (AddBillPage.mkSettings equal true true) f)
    = useData.Resolved bill
    ∧ NoDup (Bill.splitAmong bill).
Proof.
  intros f. eexists. split; [reflexivity|].
  eapply (form_bill_lists_nobody_twice f _ (Some (useData.mkUser "U" None))
            scenario_db).
  - apply AddBillPage.form_toggle, AddBillPage.form_toggle,
      AddBillPage.form_initial.
  - reflexivity.
Defined.

(** *** The percentage stored for a tax or tip typed as an amount *)

From Stdlib Require Import Lqa.

Lemma round_to_cents_bound (q : Qc) :
  let r := Q2Qc (inject_Z (Qfloor (this (q * Q2Qc (inject_Z 100)) + (1 # 2))))
           / Q2Qc (inject_Z 100) in
  q - Q2Qc (1 # 200) < r ∧ r <= q + Q2Qc (1 # 200).
Proof.
  intros r. subst r.
  pose proof (Qfloor_le (this (q * Q2Qc (inject_Z 100)) + (1 # 2))) as H1.
  pose proof (Qlt_floor (this (q * Q2Qc (inject_Z 100)) + (1 # 2))) as H2.
  set (z := Qfloor _) in *.
  rewrite inject_Z_plus in H2.
  unfold Qclt, Qcle, Qcminus, Qcplus, Qcopp, Qcdiv, Qcmult, Qcinv, Q2Qc in *.
  cbn [this] in *. rewrite !Qred_correct in *.
  change (inject_Z 100) with (100 # 1)%Q in *.
  change (inject_Z 1) with 1%Q in *.
  set (zq := inject_Z z) in *. clearbody zq. clear z.
  set (x := this q) in *. clearbody x.
  change (/ 100)%Q with (1 # 100)%Q. split; lra.
Qed.

(** The percentage [handleFinish] stores for a value typed as an amount of
    money: [Math.round(((raw / base) * 100) * 100) / 100]. *)
Lemma stored_percentage (raw base : Qc) :
  0 < base →
  ∃ r, (Math_round ((Fin raw / Fin base) * of_Z 100 * of_Z 100) / of_Z 100)%num
       = Fin r
       ∧ raw / base * Q2Qc (inject_Z 100) - Q2Qc (1 # 200) < r
       ∧ r <= raw / base * Q2Qc (inject_Z 100) + Q2Qc (1 # 200).
Proof.
  intros Hb.
  assert (Hb0 : base ≠ 0) by (intros ->; by apply (Qcle_not_lt 0 0 (Qcle_refl 0))).
  assert (H100 : Q2Qc (inject_Z 100) ≠ 0) by (intros H; by apply Qc_of_Z_inj in H).
  unfold of_Z. cbn [div mul Math_round].
  rewrite (bool_decide_eq_false_2 _ Hb0). cbn [mul Math_round div].
  rewrite (bool_decide_eq_false_2 _ H100).
  eexists. split; [reflexivity|]. apply round_to_cents_bound.
Qed.

(** X16. When the tax is typed as an amount of money and the
    bill amount is positive, the percentage stored with the bill is the
    amount as a percentage of the bill amount, rounded to two decimals: it
    is off by at most 0.005.  When the bill amount is not a positive number
    the percentage stored is 0. *)
Theorem handleFinish_percentages (st : AddBillPage.Settings)
    (f : AddBillPage.FormData) (t : Qc) :
  AddBillPage.taxIsPercent st = false →
  parseFloat (JString (AddBillPage.taxValue f)) = Fin t → t ≠ 0 →
  (∀ b, parseFloat (JString (AddBillPage.amount f)) = Fin b → 0 < b →
     ∃ r, useData.taxPercentage (AddBillPage.handleFinish st f)
          = Some (JNumber (Fin r))
          ∧ t / b * Q2Qc (inject_Z 100) - Q2Qc (1 # 200) < r
          ∧ r <= t / b * Q2Qc (inject_Z 100) + Q2Qc (1 # 200))
  ∧ (gt_zero (parseFloat (JString (AddBillPage.amount f))) = false →
     useData.taxPercentage (AddBillPage.handleFinish st f)
     = Some (JNumber zero)).
Proof.
  intros Hmode Ht Ht0. split.
  - intros b Hb Hbpos.
    assert (Hb0 : b ≠ 0) by (intros ->; by apply (Qcle_not_lt 0 0 (Qcle_refl 0))).
    destruct (stored_percentage t b Hbpos) as (r & Hr & Hlo & Hhi).
    exists r. split; [|done].
    unfold AddBillPage.handleFinish. cbn [useData.taxPercentage].
    rewrite Hmode, Ht, Hb. cbn [num_or_zero].
    rewrite (bool_decide_eq_false_2 _ Ht0), (bool_decide_eq_false_2 _ Hb0).
    cbn [truthy gt_zero negb].
    rewrite (bool_decide_eq_false_2 _ Ht0), (bool_decide_eq_true_2 _ Hbpos).
    cbn [negb]. by rewrite Hr.
  - intros Hb.
    assert (Hg : gt_zero (num_or_zero
                   (Some (parseFloat (JString (AddBillPage.amount f))))) = false).
    { destruct (parseFloat (JString (AddBillPage.amount f))) as [b| | |];
        try done. cbn [num_or_zero]. case_bool_decide; [|exact Hb].
        apply bool_decide_eq_false_2, Qcle_not_lt, Qcle_refl. }
    unfold AddBillPage.handleFinish. cbn [useData.taxPercentage].
    rewrite Hmode, Hg, Ht. cbn [num_or_zero].
    rewrite (bool_decide_eq_false_2 _ Ht0). cbn [truthy negb].
    rewrite (bool_decide_eq_false_2 _ Ht0). cbn [negb].
    do 2 f_equal. by_evaluation.
Qed.

Lemma handleFinish_percentages_witness :
  let f := AddBillPage.mkFormData "Dinner" "80" "U" ["U"; "F1"] "7" "" ∅ in
  let st := AddBillPage.mkSettings custom false true in
  useData.taxPercentage (AddBillPage.handleFinish st f)
  = Some (JNumber (Fin (Q2Qc (875 # 100))))
  ∧ ∃ r, useData.taxPercentage (AddBillPage.handleFinish st f)
         = Some (JNumber (Fin r))
         ∧ Q2Qc 7 / Q2Qc 80 * Q2Qc (inject_Z 100) - Q2Qc (1 # 200) < r
         ∧ r <= Q2Qc 7 / Q2Qc 80 * Q2Qc (inject_Z 100) + Q2Qc (1 # 200).
Proof.
  intros f st. split; [by_evaluation|].
  destruct (handleFinish_percentages st f (Q2Qc 7) eq_refl
              ltac:(by_evaluation) ltac:(by_evaluation)) as [Hpos _].
  exact (Hpos (Q2Qc 80) ltac:(by_evaluation) ltac:(by_evaluation)).
Defined.

(** ** Merging the two subscriptions (hooks/useData, updateBills) *)

(** [map.set(k, v)] on a [Map], kept as its entries in insertion order: a
    key already present keeps its place and takes the new value. *)
Fixpoint Map_set {B} (k : string) (v : B) (m : list (string * B))
    : list (string * B) :=
  match m with
  | [] => [(k, v)]
  | (k', v') :: r =>
      if bool_decide (k' = k) then (k, v) :: r else (k', v') :: Map_set k v r
  end.

(** [new Map(entries)] *)
Definition Map_new {B} (entries : list (string * B)) : list (string * B) :=
  foldl (λ m e, Map_set e.1 e.2 m) [] entries.

(** Stable insertion into a list ordered newest first: [b] goes before the
    first bill that is not newer than it. *)
Fixpoint insert_newest_first {V} (b : Bill.t V) (l : list (Bill.t V))
    : list (Bill.t V) :=
  match l with
  | [] => [b]
  | x :: r =>
      if (Bill.timestamp b <? Bill.timestamp x)%Z
      then x :: insert_newest_first b r
      else b :: x :: r
  end.

(** [bills.sort((a, b) => b.timestamp - a.timestamp)]: the stable sort of
    the array, newest first (every timestamp is taken as set). *)
Definition sort_newest_first {V} (l : list (Bill.t V)) : list (Bill.t V) :=
  foldr insert_newest_first [] l.

(** [updateBills]: what [setBills] receives for the two snapshots. *)
Definition updateBills {V} (payerBills splitBills : list (Bill.t V))
    : list (Bill.t V) :=
  let allBills := payerBills ++ splitBills in
  let uniqueBills := (Map_new ((λ bill, (Bill.id bill, bill)) <$> allBills)).*2 in
  sort_newest_first uniqueBills.

Section map_facts.
Context {B : Type}.
Implicit Types (m entries : list (string * B)) (k : string) (v : B).

Lemma Map_set_keys k v m :
  (Map_set k v m).*1 = if decide (k ∈ m.*1) then m.*1 else m.*1 ++ [k].
Proof.
  induction m as [|[k' v'] r IH]; [reflexivity|]. cbn [Map_set].
  case_bool_decide as Hk; cbn [fmap list_fmap fst].
  - subst k'. rewrite decide_True by (by left). reflexivity.
  - rewrite IH. destruct (decide (k ∈ r.*1)) as [Hr|Hr].
    + rewrite decide_True by (by right). reflexivity.
    + rewrite decide_False; [reflexivity|].
      intros [?|?]%elem_of_cons; [congruence | done].
Qed.

Lemma Map_set_NoDup k v m : NoDup m.*1 → NoDup (Map_set k v m).*1.
Proof.
  intros Hnd. rewrite Map_set_keys. case_decide as Hk; [exact Hnd|].
  apply NoDup_app. split; [exact Hnd|]. split; [|apply NoDup_singleton].
  intros x Hx Hx'. apply list_elem_of_singleton in Hx' as ->. done.
Qed.

Lemma Map_set_from k v m (e : string * B) :
  e ∈ Map_set k v m → e = (k, v) ∨ e ∈ m.
Proof.
  induction m as [|[k' v'] r IH]; cbn [Map_set].
  { intros ->%list_elem_of_singleton. by left. }
  case_bool_decide as Hk.
  - intros [->|He]%elem_of_cons; [by left | right; by right].
  - intros [->|He]%elem_of_cons; [right; by left|].
    destruct (IH He) as [->|Hr]; [by left | right; by right].
Qed.

Lemma Map_set_new k v m : (k, v) ∈ Map_set k v m.
Proof.
  induction m as [|[k' v'] r IH]; cbn [Map_set]; [by left|].
  case_bool_decide; [by left | by right].
Qed.

Lemma Map_set_keeps k v m (e : string * B) :
  e ∈ m → e.1 ≠ k → e ∈ Map_set k v m.
Proof.
  intros He Hk. induction m as [|[k' v'] r IH]; cbn [Map_set].
  { by apply elem_of_nil in He. }
  apply elem_of_cons in He as [->|He].
  - simpl in Hk. rewrite bool_decide_eq_false_2 by done. by left.
  - case_bool_decide; right; [exact He | by apply IH].
Qed.

Lemma Map_fold_NoDup entries m :
  NoDup m.*1 → NoDup (foldl (λ m e, Map_set e.1 e.2 m) m entries).*1.
Proof.
  revert m. induction entries as [|e entries IH]; intros m Hm; [exact Hm|].
  cbn [foldl]. by apply IH, Map_set_NoDup.
Qed.

Lemma Map_fold_from entries m (e : string * B) :
  e ∈ foldl (λ m e, Map_set e.1 e.2 m) m entries → e ∈ entries ∨ e ∈ m.
Proof.
  revert m. induction entries as [|[k v] entries IH]; intros m; cbn [foldl].
  { by right. }
  intros He. destruct (IH _ He) as [H|H]; [left; by right|].
  destruct (Map_set_from _ _ _ _ H) as [->|Hm]; [left; by left | by right].
Qed.

Lemma Map_fold_keys entries m k :
  k ∈ entries.*1 ∨ k ∈ m.*1 →
  k ∈ (foldl (λ m e, Map_set e.1 e.2 m) m entries).*1.
Proof.
  revert m. induction entries as [|[k' v'] entries IH]; intros m; cbn [foldl].
  { intros [H|H]; [by apply elem_of_nil in H | exact H]. }
  intros H. apply IH. rewrite Map_set_keys. cbn [fst fmap list_fmap] in *.
  destruct H as [[->|H]%elem_of_cons | H].
  - right. case_decide; [done|]. apply elem_of_app. right. by left.
  - by left.
  - right. case_decide; [done|]. apply elem_of_app. by left.
Qed.

Lemma Map_fold_last entries1 entries2 m k v :
  k ∉ entries2.*1 →
  (k, v) ∈ foldl (λ m e, Map_set e.1 e.2 m) m (entries1 ++ (k, v) :: entries2).
Proof.
  intros Hk. rewrite foldl_app. cbn [foldl fst snd].
  generalize (Map_set_new k v (foldl (λ m e, Map_set e.1 e.2 m) m entries1)).
  generalize (Map_set k v (foldl (λ m e, Map_set e.1 e.2 m) m entries1)).
  induction entries2 as [|[k' v'] entries2 IH]; intros m' Hm'; cbn [foldl];
    [exact Hm'|].
  apply IH.
  - intros H. apply Hk. by right.
  - apply Map_set_keeps; [exact Hm'|]. cbn [fst]. intros ->. apply Hk. by left.
Qed.
End map_facts.

From stdpp Require Import sorting.

Section sort_facts.
Context {V : Type}.
Implicit Types (b : Bill.t V) (l : list (Bill.t V)).

(** [a] is at least as new as [b]. *)
Definition not_older (a b : Bill.t V) : Prop :=
  (Bill.timestamp b ≤ Bill.timestamp a)%Z.

Lemma insert_newest_first_perm b l : insert_newest_first b l ≡ₚ b :: l.
Proof.
  induction l as [|x r IH]; cbn [insert_newest_first]; [reflexivity|].
  destruct (Bill.timestamp b <? Bill.timestamp x)%Z; [|reflexivity].
  rewrite IH. apply Permutation_swap.
Qed.

Lemma sort_newest_first_perm l : sort_newest_first l ≡ₚ l.
Proof.
  induction l as [|x r IH]; [reflexivity|].
  unfold sort_newest_first in *. cbn [foldr].
  by rewrite insert_newest_first_perm, IH.
Qed.

Lemma insert_newest_first_sorted b l :
  StronglySorted not_older l → StronglySorted not_older (insert_newest_first b l).
Proof.
  induction 1 as [|x r Hr IH Hx]; cbn [insert_newest_first].
  { repeat constructor. }
  destruct (Z.ltb_spec (Bill.timestamp b) (Bill.timestamp x)) as [Hlt|Hge].
  - constructor; [exact IH|].
    rewrite insert_newest_first_perm. constructor; [|exact Hx].
    unfold not_older. lia.
  - constructor; [by constructor|]. constructor; [exact Hge|].
    eapply Forall_impl; [exact Hx|]. unfold not_older. intros y Hy. lia.
Qed.

Lemma sort_newest_first_sorted l : StronglySorted not_older (sort_newest_first l).
Proof.
  induction l as [|x r IH]; [constructor|].
  by apply insert_newest_first_sorted.
Qed.
End sort_facts.

Section merge_facts.
Context {V : Type}.
Implicit Types (payerBills splitBills : list (Bill.t V)).

Lemma Map_new_bills_from payerBills splitBills (e : string * Bill.t V) :
  e ∈ Map_new ((λ bill, (Bill.id bill, bill)) <$> payerBills ++ splitBills) →
  Bill.id e.2 = e.1 ∧ e.2 ∈ payerBills ++ splitBills.
Proof.
  intros He. destruct (Map_fold_from _ [] e He) as [H|H].
  - apply list_elem_of_fmap in H as (b & -> & Hb). done.
  - by apply elem_of_nil in H.
Qed.

Lemma Map_new_bills_ids payerBills splitBills :
  let m := Map_new ((λ bill, (Bill.id bill, bill)) <$> payerBills ++ splitBills) in
  Bill.id <$> m.*2 = m.*1.
Proof.
  intros m. rewrite <- list_fmap_compose. apply list_fmap_ext.
  intros j e He. apply (Map_new_bills_from payerBills splitBills).
  by eapply list_elem_of_lookup_2.
Qed.

Lemma updateBills_from payerBills splitBills (bill : Bill.t V) :
  bill ∈ updateBills payerBills splitBills → bill ∈ payerBills ++ splitBills.
Proof.
  unfold updateBills. rewrite sort_newest_first_perm.
  intros (e & -> & He)%list_elem_of_fmap.
  by apply (Map_new_bills_from payerBills splitBills).
Qed.

Lemma updateBills_NoDup payerBills splitBills :
  NoDup (Bill.id <$> updateBills payerBills splitBills).
Proof.
  unfold updateBills.
  rewrite sort_newest_first_perm, (Map_new_bills_ids payerBills splitBills).
  apply (Map_fold_NoDup _ []). constructor.
Qed.

Lemma updateBills_ids payerBills splitBills (i : string) :
  i ∈ Bill.id <$> updateBills payerBills splitBills
  ↔ i ∈ Bill.id <$> payerBills ++ splitBills.
Proof.
  unfold updateBills.
  rewrite sort_newest_first_perm, (Map_new_bills_ids payerBills splitBills).
  split.
  - intros (e & -> & He)%list_elem_of_fmap.
    destruct (Map_new_bills_from payerBills splitBills e He) as [Hid Hin].
    rewrite <- Hid. by apply list_elem_of_fmap_2.
  - intros Hi. apply Map_fold_keys. left.
    rewrite <- list_fmap_compose. exact Hi.
Qed.

Lemma updateBills_keeps_second payerBills splitBills (bill : Bill.t V) :
  NoDup (Bill.id <$> splitBills) → bill ∈ splitBills →
  bill ∈ updateBills payerBills splitBills.
Proof.
  intros Hnd Hb. unfold updateBills. rewrite sort_newest_first_perm.
  apply list_elem_of_split in Hb as (s1 & s2 & ->).
  apply (list_elem_of_fmap_2' snd _ (Bill.id bill, bill)); [|reflexivity].
  unfold Map_new. rewrite !fmap_app, fmap_cons, app_assoc.
  apply Map_fold_last.
  rewrite <- list_fmap_compose. rewrite fmap_app, fmap_cons in Hnd.
  apply NoDup_app in Hnd as (_ & _ & Hnd). by apply NoDup_cons in Hnd as [? _].
Qed.
End merge_facts.

(** X17. The list of bills the app works with, merged from the "paid by
    me" and the "split with me" subscriptions: it holds no bill id twice
    (a bill the user both paid and takes part in arrives twice and is kept
    once); it holds exactly the ids of the two snapshots and only bills of
    the snapshots; of a bill that arrives twice it keeps the copy of the
    second snapshot; and it is ordered newest first. *)
Theorem updateBills_spec {V} (payerBills splitBills : list (Bill.t V)) :
  let bills := updateBills payerBills splitBills in
  NoDup (Bill.id <$> bills)
  ∧ (∀ bill, bill ∈ bills → bill ∈ payerBills ++ splitBills)
  ∧ (∀ i, i ∈ Bill.id <$> bills ↔ i ∈ Bill.id <$> payerBills ++ splitBills)
  ∧ (NoDup (Bill.id <$> splitBills) → ∀ bill, bill ∈ splitBills → bill ∈ bills)
  ∧ StronglySorted not_older bills.
Proof.
  intros bills. subst bills. split; [|split; [|split; [|split]]].
  - apply updateBills_NoDup.
  - apply updateBills_from.
  - apply updateBills_ids.
  - intros Hnd bill. by apply updateBills_keeps_second.
  - apply sort_newest_first_sorted.
Qed.

(** Two snapshots that share bill C; the copy of the second snapshot has
    the participant's payment confirmed. *)
Example updateBills_merges :
  Bill.id <$> updateBills [scenario_bill_A; scenario_bill_C]
                [perform ConfirmPaid scenario_bill_C "U"; settled_share_bill]
  = ["A"; "C"; "E"]
  ∧ perform ConfirmPaid scenario_bill_C "U"
    ∈ updateBills [scenario_bill_A; scenario_bill_C]
        [perform ConfirmPaid scenario_bill_C "U"; settled_share_bill].
Proof.
  split; [reflexivity|]. apply list_elem_of_In. vm_compute. auto.
Qed.

(** ** Writing to the store (hooks/useData: updateBill, deleteBill) *)

(** [updateBill(billId, updates)]: nothing without a signed-in user;
    otherwise [updateDoc] replaces the given fields of the stored bill,
    and fails without creating anything when there is no such bill. *)
Definition updateBill (user : option useData.User)
    (store : gmap string (Bill.t jsval)) (billId : string)
    (updates : BillPatch) : gmap string (Bill.t jsval) :=
  match user with
  | None => store
  | Some _ => alter (apply_patch updates) billId store
  end.

(** [deleteBill(billId)] *)
Definition deleteBill (user : option useData.User)
    (store : gmap string (Bill.t jsval)) (billId : string)
    : gmap string (Bill.t jsval) :=
  match user with
  | None => store
  | Some _ => delete billId store
  end.

(** Pressing a button on the detail page that shows the snapshot [bill]:
    the handler's calls go to [updateBill] (the page is given [updateBill]
    as [onUpdateBill]). *)
Definition press (user : option useData.User) (a : Action)
    (bill : Bill.t jsval) (personId : string)
    (store : gmap string (Bill.t jsval)) : gmap string (Bill.t jsval) :=
  foldl (λ s c, updateBill user s (call_billId c) (call_updates c)) store
        (handler a bill personId).

Lemma press_alter (u : useData.User) (a : Action) (bill : Bill.t jsval)
    (p : string) (store : gmap string (Bill.t jsval)) :
  ∃ updates,
    handler a bill p = [mkUpdateCall (Bill.id bill) updates]
    ∧ press (Some u) a bill p store
      = alter (apply_patch updates) (Bill.id bill) store.
Proof. destruct a; eexists; split; reflexivity. Qed.

(** X18. A button writes to the one stored bill that has the id of the
    snapshot shown, and creates nothing when that bill has been deleted in
    the meantime.  The status dictionary it writes is the snapshot's with
    the entry of the participant changed: for everybody else the stored
    flag becomes what the snapshot showed, whatever the store held (the
    last write wins).  With nobody signed in nothing is written. *)
Theorem press_writes_snapshot (u : useData.User) (a : Action)
    (snapshot : Bill.t jsval) (p : string)
    (store : gmap string (Bill.t jsval)) :
  let store' := press (Some u) a snapshot p store in
  (∀ i, i ≠ Bill.id snapshot → store' !! i = store !! i)
  ∧ (store !! Bill.id snapshot = None → store' = store)
  ∧ (∀ stored, store !! Bill.id snapshot = Some stored →
       ∃ stored', store' !! Bill.id snapshot = Some stored'
         ∧ (∀ q, q ≠ p →
              match a with
              | MarkPaid | UnmarkPending =>
                  status_flag (Bill.pendingStatus stored') q
                  = status_flag (Bill.pendingStatus snapshot) q
                  ∧ Bill.paidStatus stored' = Bill.paidStatus stored
              | ConfirmPaid =>
                  status_flag (Bill.paidStatus stored') q
                  = status_flag (Bill.paidStatus snapshot) q
                  ∧ status_flag (Bill.pendingStatus stored') q
                    = status_flag (Bill.pendingStatus snapshot) q
              | UnmarkPaid =>
                  status_flag (Bill.paidStatus stored') q
                  = status_flag (Bill.paidStatus snapshot) q
                  ∧ Bill.pendingStatus stored' = Bill.pendingStatus stored
              end)
         ∧ (stored = snapshot → stored' = perform a snapshot p))
  ∧ press None a snapshot p store = store.
Proof.
  intros store'. subst store'.
  destruct (press_alter u a snapshot p store) as (updates & Hcall & ->).
  split; [|split; [|split]]; [| | |by destruct a].
  - intros i Hi. by rewrite lookup_alter_ne.
  - intros Hnone. apply map_eq. intros i.
    destruct (decide (Bill.id snapshot = i)) as [<-|Hne].
    + by rewrite lookup_alter_eq, Hnone.
    + by rewrite lookup_alter_ne.
  - intros stored Hs. rewrite lookup_alter_eq, Hs. cbn [fmap option_fmap option_map].
    eexists. split; [reflexivity|].
    destruct a; injection Hcall as <-; (split; [|by intros ->]);
      intros q Hq; unfold apply_patch; cbn; unfold status_flag; cbn;
      rewrite ?lookup_insert_ne by done; by rewrite ?default_empty_lookup.
Qed.

(** Between the snapshot and the press, F2's payment was marked unpaid in
    the store; confirming F1 from the stale snapshot marks F2 paid again. *)
Example stale_snapshot_overwrites :
  let stored := perform UnmarkPaid scenario_bill_A "F2" in
  let store := {[ "A" := stored ]} in
  status_flag (Bill.paidStatus stored) "F2" = false
  ∧ (Bill.paidStatus <$>
       press (Some (useData.mkUser "U" None)) ConfirmPaid scenario_bill_A "F1"
         store !! "A")
    = Some (Some (list_to_map [("U", true); ("F1", true); ("F2", true)])).
Proof. split; by_evaluation. Qed.

(** X19. Deleting a bill removes that bill and no other; after it no
    button brings the bill back; with nobody signed in neither call
    changes the store. *)
Theorem deleteBill_spec (store : gmap string (Bill.t jsval)) (billId : string) :
  (∀ u, deleteBill (Some u) store billId !! billId = None
        ∧ (∀ i, i ≠ billId → deleteBill (Some u) store billId !! i = store !! i)
        ∧ (∀ v a snapshot p, Bill.id snapshot = billId →
             press v a snapshot p (deleteBill (Some u) store billId)
             = deleteBill (Some u) store billId))
  ∧ deleteBill None store billId = store
  ∧ (∀ a snapshot p, press None a snapshot p store = store).
Proof.
  split; [|split].
  - intros u. simpl. split; [apply lookup_delete_eq|]. split.
    + intros i Hi. by apply lookup_delete_ne.
    + intros v a snapshot p <-. destruct v as [v|]; [|by destruct a].
      destruct (press_alter v a snapshot p (delete (Bill.id snapshot) store))
        as (updates & _ & ->).
      apply map_eq. intros i.
      destruct (decide (Bill.id snapshot = i)) as [<-|Hne].
      * by rewrite lookup_alter_eq, lookup_delete_eq.
      * by rewrite lookup_alter_ne.
  - reflexivity.
  - intros a snapshot p. by destruct a.
Qed.

(** ** Presses from a page that is out of date *)

(** The stored bill once the updates that a handler computed from
    [snapshot] have reached it: a page builds the dictionaries it writes
    from the bill it was handed, not from the store. *)
Definition write {V} (a : Action) (snapshot : Bill.t V) (personId : string)
    (stored : Bill.t V) : Bill.t V :=
  foldl (λ b c, apply_patch (call_updates c) b) stored
        (handler a snapshot personId).

(** The states a stored bill can take, starting as [b0], when buttons are
    pressed on pages that show any state the bill can take: the page of
    the viewer need not show what the store holds at the time of the
    write ([updateBill] does not wait for the store, and other clients
    write too).  This includes every state that pages showing an earlier
    state of the same run can produce. *)
Inductive written {V} (b0 : Bill.t V) : Bill.t V → Prop :=
  | written_start : written b0 b0
  | written_press (snapshot stored : Bill.t V) (viewer : option useData.User)
      (p : string) (a : Action) :
      written b0 snapshot → written b0 stored →
      p ∈ Bill.splitAmong snapshot → a ∈ offered viewer snapshot p →
      written b0 (write a snapshot p stored).

Lemma press_write (u : useData.User) (a : Action) (snapshot : Bill.t jsval)
    (p : string) (store : gmap string (Bill.t jsval)) :
  press (Some u) a snapshot p store
  = alter (write a snapshot p) (Bill.id snapshot) store.
Proof. by destruct a. Qed.

Lemma reachable_written {V} (b0 b : Bill.t V) : reachable b0 b → written b0 b.
Proof.
  induction 1 as [|b viewer p a Hr IH Hp Ha]; [apply written_start|].
  change (perform a b p) with (write a b p b).
  by apply (written_press b0 b b viewer).
Qed.

Lemma write_frame (a : Action) (snapshot stored : Bill.t jsval) (p : string) :
  Bill.paidBy (write a snapshot p stored) = Bill.paidBy stored
  ∧ Bill.splitAmong (write a snapshot p stored) = Bill.splitAmong stored
  ∧ (∀ q, calculateUserShare (write a snapshot p stored) q
          = calculateUserShare stored q).
Proof. by destruct a. Qed.

Lemma write_paid {V} (a : Action) (snapshot stored : Bill.t V) (p q : string) :
  status_flag (Bill.paidStatus (write a snapshot p stored)) q
  = match a with
    | ConfirmPaid =>
        if decide (p = q) then true
        else status_flag (Bill.paidStatus snapshot) q
    | UnmarkPaid =>
        if decide (p = q) then false
        else status_flag (Bill.paidStatus snapshot) q
    | MarkPaid | UnmarkPending => status_flag (Bill.paidStatus stored) q
    end.
Proof. destruct a; try reflexivity; apply status_flag_insert. Qed.

(** What no press changes, from whatever page. *)
Lemma written_frame (b0 b : Bill.t jsval) :
  (Bill.paidBy b0 ∈ Bill.splitAmong b0 →
   status_flag (Bill.paidStatus b0) (Bill.paidBy b0) = true) →
  written b0 b →
  Bill.paidBy b = Bill.paidBy b0
  ∧ Bill.splitAmong b = Bill.splitAmong b0
  ∧ (∀ q, calculateUserShare b q = calculateUserShare b0 q)
  ∧ (Bill.paidBy b0 ∈ Bill.splitAmong b0 →
     status_flag (Bill.paidStatus b) (Bill.paidBy b0) = true).
Proof.
  intros Hpd.
  induction 1 as [|snapshot stored viewer p a _ IHsnap _ IHst Hp Ha].
  { by repeat split. }
  destruct IHsnap as (S1 & _ & _ & S4). destruct IHst as (T1 & T2 & T3 & T4).
  destruct (write_frame a snapshot stored p) as (F1 & F2 & F3).
  rewrite F1, F2. repeat split; try done.
  - intros q. by rewrite F3.
  - intros Hin. rewrite write_paid.
    destruct (offered_spec viewer a snapshot p Ha) as [Hne _].
    rewrite S1 in Hne.
    destruct a; rewrite ?decide_False by done; auto.
Qed.

(** What holds as long as every press is made on the current bill. *)
Lemma reachable_never_both {V} (b0 b : Bill.t V) :
  (∀ q, status_flag (Bill.pendingStatus b0) q = false) →
  reachable b0 b → never_both b.
Proof.
  intros Hpe. induction 1 as [|b viewer p a Hr IH Hp Ha].
  - intros q [_ Hq]. by rewrite Hpe in Hq.
  - by apply (never_both_step viewer).
Qed.

(** X9. Starting from a bill as [createBill] writes it, whatever buttons
    are pressed, also on pages that are out of date: the payer, the
    participants and every share stay what they were, and the payer's own
    [paidStatus] is never cleared.  As long as every press is made on a
    page that shows the bill as it is stored at that moment, moreover
    nobody is ever paid and pending at once, so that undoing a
    confirmation leads back to unpaid. *)
Theorem pressed_bill_invariants (u : useData.User) (db : useData.Firestore)
    (billData : useData.BillData) (b0 b : Bill.t jsval) :
  useData.createBill (Some u) db billData = useData.Resolved b0 →
  written b0 b →
  Bill.paidBy b = Bill.paidBy b0
  ∧ Bill.splitAmong b = Bill.splitAmong b0
  ∧ (∀ q, calculateUserShare b q = calculateUserShare b0 q)
  ∧ (Bill.paidBy b0 ∈ Bill.splitAmong b0 →
     status_flag (Bill.paidStatus b) (Bill.paidBy b0) = true)
  ∧ (reachable b0 b →
     never_both b
     ∧ ∀ viewer p, UnmarkPaid ∈ offered viewer b p →
                   pay_state (perform UnmarkPaid b p) p = Unpaid).
Proof.
  intros Hc Hw. destruct (created_bill_flags u db billData b0 Hc) as [Hpe Hpd].
  destruct (written_frame b0 b Hpd Hw) as (H1 & H2 & H3 & H4).
  repeat split; try done.
  - by apply (reachable_never_both b0).
  - intros viewer p Ha. rewrite perform_self.
    destruct (offered_spec viewer UnmarkPaid b p Ha) as [_ [Hs _]].
    unfold pay_state in Hs.
    pose proof (reachable_never_both b0 b Hpe H p) as Hnb.
    destruct (status_flag (Bill.paidStatus b) p),
             (status_flag (Bill.pendingStatus b) p);
      try discriminate Hs; [|reflexivity].
    exfalso. by apply Hnb.
Qed.

Lemma pressed_bill_invariants_witness :
  ∃ b0,
    useData.createBill (Some (useData.mkUser "U" None)) scenario_db
      scenario_billData = useData.Resolved b0
    ∧ (let b2 := perform ConfirmPaid (perform MarkPaid b0 "F1") "F1" in
       let b3 := write MarkPaid b0 "F1" b2 in
       written b0 b3
       ∧ Bill.splitAmong b3 = Bill.splitAmong b0
       ∧ status_flag (Bill.paidStatus b3) "U" = true
       ∧ reachable b0 b2
       ∧ never_both b2).
Proof.
  eexists. split; [reflexivity|]. cbv zeta.
  match goal with |- written ?b0 _ ∧ _ ∧ _ ∧ reachable _ ?b2 ∧ _ =>
    assert (Hr : reachable b0 b2)
  end.
  { eapply (reach_step _ _ (Some (useData.mkUser "U" None))).
    - eapply (reach_step _ _ (Some (useData.mkUser "F1" None))).
      + apply reach_start.
      + by_evaluation.
      + by_evaluation.
    - by_evaluation.
    - by_evaluation. }
  match goal with |- written ?b0 ?b3 ∧ _ =>
    assert (Hw : written b0 b3)
  end.
  { eapply (written_press _ _ _ (Some (useData.mkUser "F1" None))).
    - apply written_start.
    - by apply reachable_written.
    - by_evaluation.
    - by_evaluation. }
  destruct (pressed_bill_invariants (useData.mkUser "U" None) scenario_db
              scenario_billData _ _ eq_refl Hw) as (_ & Hsplit & _ & Hpaid & _).
  destruct (pressed_bill_invariants (useData.mkUser "U" None) scenario_db
              scenario_billData _ _ eq_refl (reachable_written _ _ Hr))
    as (_ & _ & _ & _ & Hsync).
  split; [exact Hw|]. split; [exact Hsplit|].
  split; [apply Hpaid; by_evaluation|].
  split; [exact Hr|]. by apply Hsync.
Defined.

(** The second half of X9 needs the page to be up to date.  F1 reports a
    payment and U confirms it; F1 then presses "mark paid" on a page that
    still shows the bill as created.  F1 is now paid and pending at once,
    and undoing the confirmation leads to pending, not to unpaid. *)
Example stale_press_paid_and_pending :
  ∃ b0,
    useData.createBill (Some (useData.mkUser "U" None)) scenario_db
      scenario_billData = useData.Resolved b0
    ∧ (let b2 := perform ConfirmPaid (perform MarkPaid b0 "F1") "F1" in
       let b3 := write MarkPaid b0 "F1" b2 in
       MarkPaid ∈ offered (Some (useData.mkUser "F1" None)) b0 "F1"
       ∧ status_flag (Bill.paidStatus b3) "F1" = true
       ∧ status_flag (Bill.pendingStatus b3) "F1" = true
       ∧ UnmarkPaid ∈ offered (Some (useData.mkUser "U" None)) b3 "F1"
       ∧ pay_state (perform UnmarkPaid b3 "F1") "F1" = Pending).
Proof. eexists. split; [reflexivity|]. cbv zeta. repeat split; by_evaluation. Qed.

(** X11. A confirmation pressed on a page that shows every other
    participant, the payer apart, as paid completes the stored bill,
    whatever flags the store held, and the bill then no longer contributes
    to anybody's ledger.  So does confirming all participants one after
    the other, each on the bill as it stands after the previous
    confirmation. *)
Theorem last_confirmation_completes (snapshot stored bill : Bill.t jsval)
    (p : string) :
  (Bill.paidBy stored = Bill.paidBy snapshot →
   Bill.splitAmong stored = Bill.splitAmong snapshot →
   (∀ q, q ∈ Bill.splitAmong snapshot → q ≠ Bill.paidBy snapshot → q ≠ p →
         status_flag (Bill.paidStatus snapshot) q = true) →
   isBillCompleted (write ConfirmPaid snapshot p stored) = true
   ∧ ∀ friends userId m,
       bill_step friends userId m (write ConfirmPaid snapshot p stored) = m)
  ∧ (isBillCompleted (confirm_all bill) = true
     ∧ ∀ friends userId m, bill_step friends userId m (confirm_all bill) = m).
Proof.
  split.
  - intros Hpayer Hsplit Hothers.
    assert (Hc : isBillCompleted (write ConfirmPaid snapshot p stored) = true).
    { apply isBillCompleted_true. intros q Hq Hne.
      destruct (write_frame ConfirmPaid snapshot stored p) as (F1 & F2 & _).
      rewrite F1, Hpayer in Hne. rewrite F2, Hsplit in Hq.
      rewrite write_paid. case_decide; [reflexivity | by apply Hothers]. }
    split; [exact Hc|]. intros friends userId m.
    apply bill_step_skipped. by left.
  - assert (Hc : isBillCompleted (confirm_all bill) = true).
    { unfold confirm_all.
      destruct (confirm_fold
                  (filter (λ id, id ≠ Bill.paidBy bill) (Bill.splitAmong bill))
                  bill) as (H1 & H2 & H3).
      apply isBillCompleted_true. intros q Hq Hne.
      rewrite H1 in Hne. rewrite H2 in Hq. rewrite H3.
      rewrite decide_True; [reflexivity|]. by apply list_elem_of_filter. }
    split; [exact Hc|]. intros friends userId m.
    apply bill_step_skipped. by left.
Qed.

Lemma last_confirmation_completes_witness :
  let stored := perform UnmarkPending pending_bill "F1" in
  isBillCompleted stored = false
  ∧ isBillCompleted (write ConfirmPaid pending_bill "F1" stored) = true.
Proof.
  intros stored. split; [by_evaluation|].
  destruct (last_confirmation_completes pending_bill stored pending_bill "F1")
    as [Hlast _].
  apply Hlast.
  - reflexivity.
  - reflexivity.
  - intros q Hq Hpayer Hp.
    change (Bill.splitAmong pending_bill) with ["U"; "F1"; "F2"] in Hq.
    change (Bill.paidBy pending_bill) with "U" in Hpayer.
    rewrite !elem_of_cons, elem_of_nil in Hq.
    destruct Hq as [->|[->|[->|[]]]]; first [done | by_evaluation].
Defined.

(** Confirmations pressed on one and the same page overwrite each other:
    with F1 and F2 both pending, confirming F1 and then F2 from the page
    that shows neither as paid leaves F1 unpaid and the bill open, while
    confirming F2 on the bill as it stands after F1's confirmation
    completes it. *)
Example confirmations_from_one_snapshot :
  let snapshot :=
    Bill.set_paidStatus
      (Some (list_to_map [("U", true); ("F1", false); ("F2", false)]))
      (Bill.set_pendingStatus
         (Some (list_to_map [("U", false); ("F1", true); ("F2", true)]))
         scenario_bill_A) in
  let payer := Some (useData.mkUser "U" None) in
  let confirmed_F1 := write ConfirmPaid snapshot "F1" snapshot in
  ConfirmPaid ∈ offered payer snapshot "F1"
  ∧ ConfirmPaid ∈ offered payer snapshot "F2"
  ∧ isBillCompleted (write ConfirmPaid snapshot "F2" confirmed_F1) = false
  ∧ status_flag
      (Bill.paidStatus (write ConfirmPaid snapshot "F2" confirmed_F1)) "F1"
    = false
  ∧ isBillCompleted (write ConfirmPaid confirmed_F1 "F2" confirmed_F1) = true.
Proof. cbv zeta. repeat split; by_evaluation. Qed.

(** ** The two subscriptions (hooks/useData) *)

(** [{ id: doc.id, ...doc.data() }]: a document read from the collection
    carries the id it is stored under ([createBill] writes no [id] field
    that the spread could put in its place). *)
Definition with_id {V} (k : string) (b : Bill.t V) : Bill.t V :=
  Bill.mk k (Bill.description b) (Bill.amount b) (Bill.paidBy b)
    (Bill.paidByName b) (Bill.splitAmong b) (Bill.splitType b) (Bill.items b)
    (Bill.itemizedAmounts b) (Bill.taxPercentage b) (Bill.tipsPercentage b)
    (Bill.paidStatus b) (Bill.pendingStatus b) (Bill.timestamp b).

Definition collection_docs {V} (store : gmap string (Bill.t V)) : list (Bill.t V) :=
  (λ kv, with_id kv.1 kv.2) <$> map_to_list store.

(** [where("paidBy", "==", uid), orderBy("timestamp", "desc")] *)
Definition payerBillsQuery {V} (uid : string) (store : gmap string (Bill.t V))
    : list (Bill.t V) :=
  sort_newest_first (filter (λ b, Bill.paidBy b = uid) (collection_docs store)).

(** [where("splitAmong", "array-contains", uid), orderBy("timestamp", "desc")] *)
Definition splitBillsQuery {V} (uid : string) (store : gmap string (Bill.t V))
    : list (Bill.t V) :=
  sort_newest_first (filter (λ b, uid ∈ Bill.splitAmong b) (collection_docs store)).

(** The [bills] of [useData(user)] once both subscriptions have delivered
    the same state of the collection. *)
Definition useData_bills {V} (user : option useData.User)
    (store : gmap string (Bill.t V)) : list (Bill.t V) :=
  match user with
  | None => []
  | Some u =>
      updateBills (payerBillsQuery (useData.uid u) store)
                  (splitBillsQuery (useData.uid u) store)
  end.

Section subscriptions.
Context {V : Type}.
Implicit Types (store : gmap string (Bill.t V)) (b : Bill.t V).

Lemma collection_docs_ids store : Bill.id <$> collection_docs store = (map_to_list store).*1.
Proof.
  unfold collection_docs. rewrite <- list_fmap_compose. by apply list_fmap_ext.
Qed.

Lemma collection_docs_NoDup store : NoDup (Bill.id <$> collection_docs store).
Proof. rewrite collection_docs_ids. apply NoDup_fst_map_to_list. Qed.

Lemma elem_of_collection_docs store b :
  b ∈ collection_docs store ↔ ∃ k d, store !! k = Some d ∧ b = with_id k d.
Proof.
  unfold collection_docs. rewrite list_elem_of_fmap. split.
  - intros ([k d] & -> & H%elem_of_map_to_list). by exists k, d.
  - intros (k & d & H & ->). exists (k, d). split; [reflexivity|].
    by apply elem_of_map_to_list.
Qed.

Lemma NoDup_fmap_inj_on {A C} (f : A → C) (l : list A) (x y : A) :
  NoDup (f <$> l) → x ∈ l → y ∈ l → f x = f y → x = y.
Proof.
  induction l as [|z l IH]; [by intros _ ?%elem_of_nil|].
  rewrite fmap_cons, NoDup_cons. intros [Hz Hnd] Hx Hy Hf.
  apply elem_of_cons in Hx as [->|Hx]; apply elem_of_cons in Hy as [->|Hy];
    [reflexivity | | | by apply IH].
  - exfalso. apply Hz. rewrite Hf. by apply list_elem_of_fmap_2.
  - exfalso. apply Hz. rewrite <- Hf. by apply list_elem_of_fmap_2.
Qed.

Lemma query_NoDup (P : Bill.t V → Prop) `{!∀ b, Decision (P b)} store :
  NoDup (Bill.id <$> sort_newest_first (filter P (collection_docs store))).
Proof.
  rewrite sort_newest_first_perm.
  eapply sublist_NoDup; [apply collection_docs_NoDup|].
  apply fmap_sublist, sublist_filter.
Qed.
End subscriptions.

(** X20. What the app lists for a signed-in user is exactly the stored
    bills the user paid or takes part in, each one once, under the id it
    is stored with; signed out, the list is empty. *)
Theorem useData_bills_spec {V} (store : gmap string (Bill.t V)) :
  (∀ u,
     let bills := useData_bills (Some u) store in
     NoDup (Bill.id <$> bills)
     ∧ ∀ b, b ∈ bills
            ↔ ∃ k d, store !! k = Some d ∧ b = with_id k d
                     ∧ (Bill.paidBy d = useData.uid u
                        ∨ useData.uid u ∈ Bill.splitAmong d))
  ∧ useData_bills None store = [].
Proof.
  split; [|reflexivity]. intros u bills. subst bills. unfold useData_bills.
  split; [apply updateBills_NoDup|]. intros b. split.
  - intros Hb%updateBills_from. unfold payerBillsQuery, splitBillsQuery in Hb.
    rewrite !sort_newest_first_perm, elem_of_app, !list_elem_of_filter in Hb.
    destruct Hb as [[Hp Hd] | [Hp Hd]];
      apply elem_of_collection_docs in Hd as (k & d & Hk & ->);
      exists k, d; (split; [exact Hk|]); (split; [reflexivity|]);
      [by left | by right].
  - intros (k & d & Hk & -> & Hcase).
    assert (Hd : with_id k d ∈ collection_docs store).
    { apply elem_of_collection_docs. by exists k, d. }
    destruct (decide (useData.uid u ∈ Bill.splitAmong d)) as [Hin|Hin].
    + apply updateBills_keeps_second.
      * apply (query_NoDup (λ b, useData.uid u ∈ Bill.splitAmong b)).
      * unfold splitBillsQuery. rewrite sort_newest_first_perm.
        by apply list_elem_of_filter.
    + destruct Hcase as [Hp|?]; [|done].
      assert (Hq : with_id k d ∈ payerBillsQuery (useData.uid u) store).
      { unfold payerBillsQuery. rewrite sort_newest_first_perm.
        by apply list_elem_of_filter. }
      assert (Hi : Bill.id (with_id k d)
                   ∈ Bill.id <$> updateBills (payerBillsQuery (useData.uid u) store)
                                   (splitBillsQuery (useData.uid u) store)).
      { apply updateBills_ids. apply list_elem_of_fmap_2, elem_of_app. by left. }
      apply list_elem_of_fmap in Hi as (b' & Hid & Hb').
      assert (Hd' : b' ∈ collection_docs store).
      { apply updateBills_from in Hb'.
        unfold payerBillsQuery, splitBillsQuery in Hb'.
        rewrite !sort_newest_first_perm, elem_of_app, !list_elem_of_filter in Hb'.
        by destruct Hb' as [[_ ?] | [_ ?]]. }
      rewrite (NoDup_fmap_inj_on Bill.id (collection_docs store) (with_id k d) b'
                 (collection_docs_NoDup store) Hd Hd' Hid).
      exact Hb'.
Qed.

(** ** Removing a friend (hooks/useData, deleteFriend) *)

Record FriendRequest : Type := mkFriendRequest {
  senderId : string;
  recipientId : string;
}.

(** The friend lists ([users/{owner}/friends/{friend}]) and the collection
    of friend requests. *)
Record SocialDb : Type := mkSocialDb {
  friendDocs : gmap (string * string) Friend.t;
  friendRequests : gmap string FriendRequest;
}.

(** A request from one of the two to the other. *)
Definition request_between (a b : string) (r : FriendRequest) : Prop :=
  (senderId r = a ∧ recipientId r = b) ∨ (senderId r = b ∧ recipientId r = a).

#[global] Instance request_between_dec a b r : Decision (request_between a b r).
Proof. unfold request_between. apply _. Defined.

(** [deleteFriend(friendUserId)]: [failure] is the error of a query or of
    the commit, if one fails; the batch is then not applied. *)
Definition deleteFriend (user : option useData.User) (friendUserId : string)
    (failure : option string) (db : SocialDb) : useData.outcome SocialDb :=
  match user with
  | None => useData.Resolved db
  | Some u =>
      if bool_decide (friendUserId = useData.uid u) then useData.Resolved db
      else
        match failure with
        | Some error => useData.Rejected error
        | None =>
            useData.Resolved
              (mkSocialDb
                 (delete (friendUserId, useData.uid u)
                    (delete (useData.uid u, friendUserId) (friendDocs db)))
                 (filter (λ kr, ¬ request_between (useData.uid u) friendUserId kr.2)
                    (friendRequests db)))
        end
  end.

(** X21. Removing a friend removes the friendship on both sides and
    every request between the two, in either direction, and touches no
    other friendship and no other request; removing oneself changes
    nothing. *)
Theorem deleteFriend_spec (u : useData.User) (friendUserId : string)
    (db db' : SocialDb) :
  deleteFriend (Some u) friendUserId None db = useData.Resolved db' →
  (friendUserId = useData.uid u → db' = db)
  ∧ (friendUserId ≠ useData.uid u →
     friendDocs db' !! (useData.uid u, friendUserId) = None
     ∧ friendDocs db' !! (friendUserId, useData.uid u) = None
     ∧ (∀ a b, (a, b) ≠ (useData.uid u, friendUserId) →
               (a, b) ≠ (friendUserId, useData.uid u) →
               friendDocs db' !! (a, b) = friendDocs db !! (a, b))
     ∧ (∀ k r, friendRequests db' !! k = Some r
               ↔ friendRequests db !! k = Some r
                 ∧ ¬ request_between (useData.uid u) friendUserId r)).
Proof.
  unfold deleteFriend. case_bool_decide as Hself.
  - intros [= <-]. split; [done | by intros ?].
  - intros [= <-]. split; [by intros ?|]. intros _. simpl.
    split; [|split; [|split]].
    + rewrite lookup_delete_ne by (intros [= ? ?]; by subst).
      apply lookup_delete_eq.
    + apply lookup_delete_eq.
    + intros a b H1 H2. by rewrite !lookup_delete_ne.
    + intros k r. by rewrite map_lookup_filter_Some.
Qed.

Definition scenario_social : SocialDb :=
  mkSocialDb
    (list_to_map [(("U", "F1"), Friend.mk "F1" "Fay" None);
                  (("F1", "U"), Friend.mk "U" "Una" None);
                  (("U", "F2"), Friend.mk "F2" "Finn" None)])
    (list_to_map [("r1", mkFriendRequest "F1" "U");
                  ("r2", mkFriendRequest "U" "F2")]).

Lemma deleteFriend_spec_witness :
  ∃ db',
    deleteFriend (Some (useData.mkUser "U" None)) "F1" None scenario_social
    = useData.Resolved db'
    ∧ friendDocs db' !! ("F1", "U") = None
    ∧ friendDocs db' !! ("U", "F2") = friendDocs scenario_social !! ("U", "F2").
Proof.
  eexists. split; [reflexivity|].
  destruct (deleteFriend_spec (useData.mkUser "U" None) "F1" scenario_social _
              eq_refl) as [_ H].
  destruct (H ltac:(discriminate)) as (_ & H2 & H3 & _).
  split; [exact H2|]. apply H3; discriminate.
Defined.

(** ** The ledger as sums over the bills *)

(** [k] times [x], added up from 0. *)
Definition times (k : nat) (x : num) : num := Nat.iter k (λ acc, acc + x)%num zero.

Section contributions.
Variable friends : list Friend.t.
Variable userId : string.
Implicit Types (bill : Bill.t jsval) (m : gmap string UserBalance) (p : string).

(** What [bill] adds to what [p] owes the user: the share of [p], once for
    every time [p] is listed, if the bill is open, was paid by the user,
    lists the user, and [p] is somebody else who has not paid. *)
Definition owes_contribution bill p : num :=
  if negb (isBillCompleted bill)
     && bool_decide (userId ∈ Bill.splitAmong bill)
     && bool_decide (Bill.paidBy bill = userId)
     && negb (bool_decide (p = userId))
     && negb (status_flag (Bill.paidStatus bill) p)
  then times (occurrences p (Bill.splitAmong bill)) (calculateUserShare bill p)
  else zero.

(** What [bill] adds to what the user owes [p]: the user's share, if [p]
    paid the bill and the user takes part and has not paid. *)
Definition owed_contribution bill p : num :=
  if user_unpaid userId bill && bool_decide (Bill.paidBy bill = p)
  then calculateUserShare bill userId
  else zero.

Lemma iter_add_owes (k : nat) (s : num) (e : UserBalance) :
  owes (Nat.iter k (add_owes s) e) = (owes e + times k s)%num
  ∧ owed (Nat.iter k (add_owes s) e) = owed e.
Proof.
  induction k as [|k [IH1 IH2]]; simpl.
  - by rewrite add_zero_r.
  - rewrite IH1, IH2. by rewrite add_assoc.
Qed.

Lemma owes_fold_owed_of bill (l : list string) m p :
  owed_of (foldl (owes_step friends userId bill) m l) p = owed_of m p.
Proof.
  revert m. induction l as [|x l IH]; intros m; [reflexivity|].
  cbn [foldl]. rewrite IH. unfold owed_of. rewrite owes_step_lookup.
  case_decide; [|reflexivity]. by destruct (m !! p).
Qed.

Lemma bill_step_owed_of bill m p :
  owed_of (bill_step friends userId m bill) p
  = (owed_of m p + owed_contribution bill p)%num.
Proof.
  unfold owed_contribution.
  destruct (user_unpaid userId bill) eqn:Hu.
  - pose proof (user_unpaid_open userId bill Hu) as Hopen.
    unfold user_unpaid in Hu.
    apply andb_prop in Hu as [Hu Hflag]. apply andb_prop in Hu as [Hin Hpayer].
    apply bool_decide_eq_true_1 in Hin.
    apply negb_true_iff, bool_decide_eq_false_1 in Hpayer.
    apply negb_true_iff in Hflag.
    unfold owed_of. rewrite bill_step_participant by done. rewrite Hflag.
    cbn [andb]. case_bool_decide as Hp.
    + rewrite decide_True by done. by destruct (m !! p).
    + rewrite decide_False by done. by rewrite add_zero_r.
  - cbn [andb]. rewrite add_zero_r.
    destruct (isBillCompleted bill) eqn:Hopen.
    { by rewrite bill_step_skipped by (by left). }
    destruct (decide (userId ∈ Bill.splitAmong bill)) as [Hin|Hin].
    2: { by rewrite bill_step_skipped by (by right). }
    destruct (decide (Bill.paidBy bill = userId)) as [Hp|Hp].
    + rewrite bill_step_payer by done. apply owes_fold_owed_of.
    + unfold user_unpaid in Hu.
      rewrite bool_decide_eq_true_2, bool_decide_eq_false_2 in Hu by done.
      simpl in Hu. apply negb_false_iff in Hu.
      unfold owed_of. rewrite bill_step_participant by done. rewrite Hu.
      case_decide; [|reflexivity]. by destruct (m !! p).
Qed.

Lemma bill_step_owes_of bill m p :
  owes_of (bill_step friends userId m bill) p
  = (owes_of m p + owes_contribution bill p)%num.
Proof.
  unfold owes_contribution.
  destruct (isBillCompleted bill) eqn:Hopen.
  { rewrite bill_step_skipped by (by left). by rewrite add_zero_r. }
  destruct (decide (userId ∈ Bill.splitAmong bill)) as [Hin|Hin].
  2: { rewrite bill_step_skipped by (by right).
       rewrite (bool_decide_eq_false_2 _ Hin). cbn [negb andb].
       by rewrite add_zero_r. }
  rewrite (bool_decide_eq_true_2 _ Hin). cbn [negb andb].
  destruct (decide (Bill.paidBy bill = userId)) as [Hp|Hp].
  - rewrite (bool_decide_eq_true_2 _ Hp). cbn [andb].
    rewrite bill_step_payer by done. unfold owes_of.
    destruct (decide (p = userId)) as [Hpu|Hpu].
    { rewrite (bool_decide_eq_true_2 _ Hpu). cbn [negb andb].
      rewrite owes_fold_unchanged by (by right; left). by rewrite add_zero_r. }
    rewrite (bool_decide_eq_false_2 _ Hpu). cbn [negb andb].
    destruct (status_flag (Bill.paidStatus bill) p) eqn:Hflag; cbn [negb].
    { rewrite owes_fold_unchanged by (by right; right). by rewrite add_zero_r. }
    rewrite owes_fold_count by done.
    destruct (occurrences p (Bill.splitAmong bill)) as [|k].
    + unfold times. simpl. by rewrite add_zero_r.
    + cbn [from_option].
      rewrite (proj1 (iter_add_owes (S k) _ _)). by destruct (m !! p).
  - rewrite (bool_decide_eq_false_2 _ Hp). cbn [andb]. rewrite add_zero_r.
    unfold owes_of. rewrite bill_step_participant by done.
    case_decide; [|reflexivity].
    destruct (status_flag (Bill.paidStatus bill) userId); by destruct (m !! p).
Qed.

Lemma accumulate_sums (bills : list (Bill.t jsval)) m p :
  owes_of (foldl (bill_step friends userId) m bills) p
  = (owes_of m p + sum_num ((λ bill, owes_contribution bill p) <$> bills))%num
  ∧ owed_of (foldl (bill_step friends userId) m bills) p
    = (owed_of m p + sum_num ((λ bill, owed_contribution bill p) <$> bills))%num.
Proof.
  revert m. induction bills as [|b bills IH]; intros m.
  { simpl. by rewrite !add_zero_r. }
  cbn [foldl]. destruct (IH (bill_step friends userId m b)) as [-> ->].
  rewrite bill_step_owes_of, bill_step_owed_of. simpl. by rewrite !add_assoc.
Qed.
End contributions.

Lemma lookup_set_netBalance (m : gmap string UserBalance) (p : string) :
  owes_of (set_netBalance <$> m) p = owes_of m p
  ∧ owed_of (set_netBalance <$> m) p = owed_of m p.
Proof. unfold owes_of, owed_of. rewrite lookup_fmap. by destruct (m !! p). Qed.

(** X22. The ledger in closed form: what a friend owes the user is the
    sum, over the bills, of the friend's share of every open bill the user
    paid and takes part in where the friend has not paid; what the user
    owes the friend is the sum of the user's share of every bill the
    friend paid where the user takes part and has not paid. *)
Theorem useBalances_sums (bills : list (Bill.t jsval)) (friends : list Friend.t)
    (uid p : string) :
  uid ≠ "" →
  owes_of (useBalances bills friends (Some uid)) p
  = sum_num ((λ bill, owes_contribution uid bill p) <$> bills)
  ∧ owed_of (useBalances bills friends (Some uid)) p
    = sum_num ((λ bill, owed_contribution uid bill p) <$> bills).
Proof.
  intros Huid. rewrite useBalances_established by exact Huid.
  destruct (lookup_set_netBalance (foldl (bill_step friends uid) ∅ bills) p)
    as [-> ->].
  destruct (accumulate_sums friends uid bills ∅ p) as [-> ->].
  unfold owes_of, owed_of. rewrite lookup_empty. cbn [from_option].
  by rewrite !add_zero_l.
Qed.

Lemma useBalances_sums_witness :
  owes_of (useBalances [scenario_bill_A; scenario_bill_C] [] (Some "U")) "F1"
  = of_Z 30
  ∧ owed_of (useBalances [scenario_bill_A; scenario_bill_C] [] (Some "U")) "F2"
    = of_Z 25.
Proof.
  destruct (useBalances_sums [scenario_bill_A; scenario_bill_C] [] "U" "F1"
              ltac:(discriminate)) as [-> _].
  destruct (useBalances_sums [scenario_bill_A; scenario_bill_C] [] "U" "F2"
              ltac:(discriminate)) as [_ ->].
  split; by_evaluation.
Defined.

(** X23. The amounts of the ledger, and who has an entry, do not depend
    on the order in which the bills are listed. *)
Theorem useBalances_order_free (bills bills' : list (Bill.t jsval))
    (friends : list Friend.t) (userId : option string) (p : string) :
  bills ≡ₚ bills' →
  owes_of (useBalances bills friends userId) p
  = owes_of (useBalances bills' friends userId) p
  ∧ owed_of (useBalances bills friends userId) p
    = owed_of (useBalances bills' friends userId) p
  ∧ (is_Some (useBalances bills friends userId !! p)
     ↔ is_Some (useBalances bills' friends userId !! p)).
Proof.
  intros Hperm.
  destruct userId as [uid|]; [|done].
  destruct (decide (uid = "")) as [->|Huid]; [done|].
  rewrite !useBalances_established by exact Huid.
  destruct (lookup_set_netBalance (foldl (bill_step friends uid) ∅ bills) p)
    as [-> ->].
  destruct (lookup_set_netBalance (foldl (bill_step friends uid) ∅ bills') p)
    as [-> ->].
  destruct (accumulate_sums friends uid bills ∅ p) as [-> ->].
  destruct (accumulate_sums friends uid bills' ∅ p) as [-> ->].
  split; [|split].
  - f_equal. apply sum_num_perm. by apply fmap_Permutation.
  - f_equal. apply sum_num_perm. by apply fmap_Permutation.
  - rewrite !lookup_fmap, !fmap_is_Some, !accumulate_is_Some.
    split; (intros [H | (b & Hb & Hg)]; [by left | right; exists b; split; [|done]]).
    + by rewrite <- Hperm.
    + by rewrite Hperm.
Qed.

Lemma useBalances_order_free_witness :
  owed_of (useBalances [scenario_bill_A; scenario_bill_C] [] (Some "U")) "F2"
  = owed_of (useBalances [scenario_bill_C; scenario_bill_A] [] (Some "U")) "F2".
Proof.
  apply (useBalances_order_free [scenario_bill_A; scenario_bill_C]
           [scenario_bill_C; scenario_bill_A] [] (Some "U") "F2").
  apply Permutation_swap.
Defined.

(** ** The shares of a bill add up *)

(** A number that is neither NaN nor infinite. *)
Definition finite (n : num) : Prop := ∃ q, n = Fin q.

(** The value of a finite number, 0 for the others. *)
Definition value_of (n : num) : Qc :=
  match n with Fin q => q | _ => 0 end.

(** The sum of [q p] over the people [p] of [l]. *)
Fixpoint qsum (q : string → Qc) (l : list string) : Qc :=
  match l with
  | [] => 0
  | p :: l => (q p + qsum q l)%Qc
  end.

Section shares_add_up.
Implicit Types (items : gmap string jsval) (l : list string).

Lemma sum_num_finite (q : string → Qc) l :
  sum_num ((λ p, Fin (q p)) <$> l) = Fin (qsum q l).
Proof.
  induction l as [|x l IH]; [reflexivity|].
  cbn [fmap list_fmap sum_num foldr qsum].
  change (foldr add zero ((λ p, Fin (q p)) <$> l))
    with (sum_num ((λ p, Fin (q p)) <$> l)).
  by rewrite IH.
Qed.

Lemma qsum_scaled (q : string → Qc) (c : Qc) l :
  qsum (λ p, (q p + q p * c)%Qc) l = (qsum q l + qsum q l * c)%Qc.
Proof.
  induction l as [|x l IH]; simpl; [ring|]. rewrite IH. ring.
Qed.

Lemma itemizedTotal_spec_empty : itemizedTotal_spec ∅ = zero.
Proof. unfold itemizedTotal_spec. by rewrite map_fold_empty. Qed.

Lemma userItemAmount_spec_delete items (x : string) l :
  x ∉ l →
  userItemAmount_spec (delete x items) <$> l = userItemAmount_spec items <$> l.
Proof.
  intros Hx. apply list_fmap_ext. intros j p Hp.
  unfold userItemAmount_spec. rewrite lookup_delete_ne; [reflexivity|].
  intros ->. apply Hx. by eapply list_elem_of_lookup_2.
Qed.

(** If every key of [items] is listed in [l], once, the itemized total is
    the sum of the item amounts of the people of [l]. *)
Lemma itemizedTotal_over_participants items l :
  NoDup l → (∀ k, is_Some (items !! k) → k ∈ l) →
  itemizedTotal_spec items = sum_num (userItemAmount_spec items <$> l).
Proof.
  intros Hnd. revert items. induction Hnd as [|x l Hx Hnd IH]; intros items Hkeys.
  - assert (items = ∅) as ->.
    { apply map_empty. intros k. apply eq_None_not_Some. intros Hk.
      specialize (Hkeys k Hk). by apply elem_of_nil in Hkeys. }
    apply itemizedTotal_spec_empty.
  - cbn [fmap list_fmap sum_num foldr].
    change (foldr add zero (userItemAmount_spec items <$> l))
      with (sum_num (userItemAmount_spec items <$> l)).
    destruct (items !! x) as [v|] eqn:Hv.
    + rewrite <- (insert_delete_id items x v Hv) at 1.
      rewrite itemizedTotal_spec_insert by apply lookup_delete_eq.
      unfold userItemAmount_spec at 1. rewrite Hv. cbn [from_option].
      f_equal. rewrite (IH (delete x items)).
      * by rewrite userItemAmount_spec_delete.
      * intros k Hk. destruct (decide (k = x)) as [->|Hkx].
        { rewrite lookup_delete_eq in Hk. by destruct Hk. }
        rewrite lookup_delete_ne in Hk by done.
        specialize (Hkeys k Hk). apply elem_of_cons in Hkeys as [?|?]; done.
    + unfold userItemAmount_spec at 1. rewrite Hv. cbn [from_option].
      rewrite add_zero_l. apply IH.
      intros k Hk. specialize (Hkeys k Hk).
      apply elem_of_cons in Hkeys as [->|?]; [|done].
      rewrite Hv in Hk. by destruct Hk.
Qed.

Lemma userItemAmount_spec_finite items (p : string) :
  (∀ k v, items !! k = Some v → finite (safeNumber v)) →
  userItemAmount_spec items p = Fin (value_of (userItemAmount_spec items p)).
Proof.
  intros Hfin. unfold userItemAmount_spec.
  destruct (items !! p) as [v|] eqn:Hv; [|reflexivity].
  destruct (Hfin p v Hv) as [q Hq]. cbn [from_option]. by rewrite Hq.
Qed.
End shares_add_up.

Lemma hundred_nonzero : Q2Qc (inject_Z 100) ≠ 0%Qc.
Proof. intros H. by apply Qc_of_Z_inj in H. Qed.

(** The overheads of a finite itemized total at finite percentages. *)
Lemma overheads_finite (τ t u : Qc) :
  (Fin τ * Fin t / of_Z 100 + Fin τ * Fin u / of_Z 100)%num
  = Fin (τ * t / Q2Qc (inject_Z 100) + τ * u / Q2Qc (inject_Z 100))%Qc.
Proof.
  unfold of_Z. cbn [mul div].
  rewrite (bool_decide_eq_false_2 _ hundred_nonzero). reflexivity.
Qed.

(** X24. Custom split: when nobody is listed twice, every itemized amount
    belongs to a participant, and the itemized amounts and the two
    percentages are finite, the shares of the participants add up to the
    itemized total plus the tax and the tips on it. *)
Theorem custom_shares_add_up (bill : Bill.t jsval) (items : gmap string jsval) :
  Bill.splitType bill = custom →
  default ∅ (Bill.itemizedAmounts bill) = items →
  NoDup (Bill.splitAmong bill) →
  (∀ k, is_Some (items !! k) → k ∈ Bill.splitAmong bill) →
  (∀ k v, items !! k = Some v → finite (safeNumber v)) →
  finite (safeNumber (default JUndefined (Bill.taxPercentage bill))) →
  finite (safeNumber (default JUndefined (Bill.tipsPercentage bill))) →
  sum_shares bill
  = (itemizedTotal_spec items
     + (itemizedTotal_spec items
          * safeNumber (default JUndefined (Bill.taxPercentage bill)) / of_Z 100
        + itemizedTotal_spec items
          * safeNumber (default JUndefined (Bill.tipsPercentage bill)) / of_Z 100))%num.
Proof.
  intros Hc Hitems Hnd Hkeys Hfin [t Ht] [u Hu].
  unfold sum_shares. rewrite foldl_add_sum, add_zero_l.
  set (q := λ p, value_of (userItemAmount_spec items p)).
  assert (Hq : ∀ p, userItemAmount_spec items p = Fin (q p)).
  { intros p. by apply userItemAmount_spec_finite. }
  assert (HT : itemizedTotal_spec items = Fin (qsum q (Bill.splitAmong bill))).
  { rewrite (itemizedTotal_over_participants items (Bill.splitAmong bill))
      by done.
    rewrite <- sum_num_finite. f_equal. apply list_fmap_ext. by intros. }
  set (τ := qsum q (Bill.splitAmong bill)) in *.
  rewrite Ht, Hu, HT, overheads_finite.
  set (ξ := (τ * t / Q2Qc (inject_Z 100) + τ * u / Q2Qc (inject_Z 100))%Qc).
  destruct (decide (τ = 0%Qc)) as [Hz|Hz].
  - rewrite (list_fmap_ext (calculateUserShare bill) (λ p, Fin (q p))
               (Bill.splitAmong bill)).
    + rewrite sum_num_finite. fold τ. cbn [add]. f_equal.
      unfold ξ. rewrite Hz. field. apply hundred_nonzero.
    + intros j p _. rewrite calculateUserShare_custom by exact Hc.
      unfold custom_share_spec. rewrite Hitems, HT, Hq.
      rewrite decide_True; [reflexivity|]. unfold zero. by rewrite Hz.
  - rewrite (list_fmap_ext (calculateUserShare bill)
               (λ p, Fin (q p + q p * (/ τ * ξ))%Qc) (Bill.splitAmong bill)).
    + rewrite (sum_num_finite (λ p, (q p + q p * (/ τ * ξ))%Qc)).
      rewrite qsum_scaled. fold τ. cbn [add]. f_equal. by field.
    + intros j p _. rewrite calculateUserShare_custom by exact Hc.
      unfold custom_share_spec. rewrite Hitems, HT, Hq, Ht, Hu.
      rewrite decide_False by (unfold zero; congruence).
      rewrite overheads_finite. fold ξ. cbn [add mul div].
      rewrite (bool_decide_eq_false_2 _ Hz). f_equal. unfold Qcdiv. ring.
Qed.

Lemma custom_shares_add_up_witness :
  Bill.splitType scenario_bill_B = custom
  ∧ sum_shares scenario_bill_B = of_Z 115.
Proof.
  split; [reflexivity|].
  rewrite (custom_shares_add_up scenario_bill_B
             (list_to_map [("P", JNumber (of_Z 40)); ("Q", JNumber (of_Z 60))])).
  - by_evaluation.
  - reflexivity.
  - reflexivity.
  - by_evaluation.
  - intros k Hk. change (list_to_map _) with
      (<["P" := JNumber (of_Z 40)]>
         (<["Q" := JNumber (of_Z 60)]> (∅ : gmap string jsval))) in Hk.
    destruct (decide (k = "P")) as [->|HP]; [by_evaluation|].
    destruct (decide (k = "Q")) as [->|HQ]; [by_evaluation|].
    rewrite !lookup_insert_ne, lookup_empty in Hk by done. by destruct Hk.
  - intros k v Hk. change (list_to_map _) with
      (<["P" := JNumber (of_Z 40)]>
         (<["Q" := JNumber (of_Z 60)]> (∅ : gmap string jsval))) in Hk.
    destruct (decide (k = "P")) as [->|HP].
    { rewrite lookup_insert_eq in Hk. injection Hk as <-. by eexists. }
    destruct (decide (k = "Q")) as [->|HQ].
    { rewrite lookup_insert_ne, lookup_insert_eq in Hk by done.
      injection Hk as <-. by eexists. }
    rewrite !lookup_insert_ne, lookup_empty in Hk by done. discriminate.
  - eexists. reflexivity.
  - eexists. reflexivity.
Defined.

(** The form does not guarantee the second condition: unticking a
    participant leaves their itemized amount in the form, so the bill
    stores an amount that no share covers. *)
Example removed_participant_keeps_item :
  let f := AddBillPage.toggleFriend "F2"
             (AddBillPage.toggleFriend "F1"
                (AddBillPage.handleItemAmountChange "F1" "10"
                   (AddBillPage.handleItemAmountChange "U" "20"
                      (AddBillPage.toggleFriend "F1"
                         (AddBillPage.toggleFriend "U"
                            AddBillPage.initial_formData))))) in
  AddBillPage.reachable_form f
  ∧ ∃ bill,
      useData.createBill (Some (useData.mkUser "U" None)) scenario_db
        (AddBillPage.handleFinish (AddBillPage.mkSettings custom true true) f)
      = useData.Resolved bill
      ∧ Bill.splitAmong bill = ["U"; "F2"]
      ∧ itemizedTotal_spec (default ∅ (Bill.itemizedAmounts bill)) = of_Z 30
      ∧ sum_shares bill = of_Z 20.
Proof.
  intros f. split.
  { repeat (first [ apply AddBillPage.form_initial
                  | apply AddBillPage.form_toggle
                  | apply AddBillPage.form_item ]). }
  eexists. split; [reflexivity|]. repeat split; by_evaluation.
Qed.
